(** * Agent Runner: the orchestration engine

    A shallow embedding of the orchestrator ([orchestrator.ts]: persistence,
    run manager, execution pipeline), of the worker bookkeeping
    ([worker.ts]: [addLog], [addActivity], [spawnWorker], [killWorkers]) and
    of the event bus ([events.ts]), with the properties the specification
    states about them.

    Conventions of the embedding.
    - JavaScript objects that are shared and mutated in place (a [Run], its
      [Task]s and [Worker]s) live in one place of the state; an alias to a
      task or a worker is its position in [run.tasks] / [run.workers]
      (both arrays only ever grow by [push]).
    - [Date.now()] is the argument [now] of every synchronous block.
    - [nanoid(10)] draws from a supply [nanoid : nat -> string] indexed by a
      counter kept in the state.
    - [saveState()] only writes files; it leaves the in-memory state alone
      and swallows its own errors, so it appears as a comment where the
      source calls it. *)

From stdpp Require Import gmap strings list fin_maps pretty sorting.

Local Open Scope Z_scope.

(** [set_solver] clears hypotheses by name and warns when one is gone. *)
#[local] Set Warnings "-clear-no-such-hyp".

(** ** Data model ([types.ts]) *)

Inductive TaskStatus := pending | in_progress | completed | failed | cancelled.

Inductive RunStatus :=
  idle | planning | executing | judging
| run_completed | run_failed | stopped | paused.

Inductive WorkerStatus :=
  worker_idle | running | worker_completed | worker_failed | merging.

Inductive Level := info | warn | error | debug.

Inductive ActivityType :=
  tool_call | file_edit | file_create | bash | text | act_error | thinking.

#[global] Instance TaskStatus_eq_dec : EqDecision TaskStatus.
Proof. solve_decision. Defined.
#[global] Instance RunStatus_eq_dec : EqDecision RunStatus.
Proof. solve_decision. Defined.
#[global] Instance WorkerStatus_eq_dec : EqDecision WorkerStatus.
Proof. solve_decision. Defined.

Module LogEntry.
Record t := mk {
  timestamp : Z;
  level : Level;
  source : string;
  message : string;
}.
End LogEntry.

Module WorkerActivity.
Record t := mk {
  type : ActivityType;
  summary : string;
  timestamp : Z;
}.
End WorkerActivity.

(** The optional fields [assignedWorker] and [branch] of a task, and [pid]
    and [sessionId] of a worker, are never assigned by the code and are left
    out. *)
Module Task.
Record t := mk {
  id : string;
  title : string;
  description : string;
  status : TaskStatus;
  priority : Z;
  dependencies : list string;
  result : option string;
  error : option string;
  spawnedBy : option string;
  createdAt : Z;
  startedAt : option Z;
  completedAt : option Z;
}.

Definition set_status (s : TaskStatus) (x : t) : t :=
  mk (id x) (title x) (description x) s (priority x) (dependencies x)
     (result x) (error x) (spawnedBy x) (createdAt x) (startedAt x)
     (completedAt x).
Definition set_startedAt (v : option Z) (x : t) : t :=
  mk (id x) (title x) (description x) (status x) (priority x)
     (dependencies x) (result x) (error x) (spawnedBy x) (createdAt x) v
     (completedAt x).
Definition set_completedAt (v : option Z) (x : t) : t :=
  mk (id x) (title x) (description x) (status x) (priority x)
     (dependencies x) (result x) (error x) (spawnedBy x) (createdAt x)
     (startedAt x) v.
Definition set_result (v : option string) (x : t) : t :=
  mk (id x) (title x) (description x) (status x) (priority x)
     (dependencies x) v (error x) (spawnedBy x) (createdAt x)
     (startedAt x) (completedAt x).
Definition set_error (v : option string) (x : t) : t :=
  mk (id x) (title x) (description x) (status x) (priority x)
     (dependencies x) (result x) v (spawnedBy x) (createdAt x)
     (startedAt x) (completedAt x).
Definition set_dependencies (v : list string) (x : t) : t :=
  mk (id x) (title x) (description x) (status x) (priority x) v
     (result x) (error x) (spawnedBy x) (createdAt x) (startedAt x)
     (completedAt x).
End Task.

Module Worker.
Record t := mk {
  id : string;
  port : Z;
  status : WorkerStatus;
  taskId : option string;
  logs : list LogEntry.t;
  activity : list WorkerActivity.t;
  startedAt : Z;
  completedAt : option Z;
}.

Definition set_status (s : WorkerStatus) (x : t) : t :=
  mk (id x) (port x) s (taskId x) (logs x) (activity x) (startedAt x)
     (completedAt x).
Definition set_completedAt (v : option Z) (x : t) : t :=
  mk (id x) (port x) (status x) (taskId x) (logs x) (activity x)
     (startedAt x) v.
Definition set_logs (v : list LogEntry.t) (x : t) : t :=
  mk (id x) (port x) (status x) (taskId x) v (activity x) (startedAt x)
     (completedAt x).
Definition set_activity (v : list WorkerActivity.t) (x : t) : t :=
  mk (id x) (port x) (status x) (taskId x) (logs x) v (startedAt x)
     (completedAt x).
End Worker.

Module Judgement.
Record t := mk {
  id : string;
  taskId : string;
  assessment : string;
  newTaskIds : list string;
  goalComplete : bool;
  timestamp : Z;
}.
End Judgement.

Module Run.
Record t := mk {
  id : string;
  goal : string;
  targetDir : string;
  status : RunStatus;
  analysis : string;
  tasks : list Task.t;
  judgements : list Judgement.t;
  workers : list Worker.t;
  maxWorkers : Z;
  createdAt : Z;
  completedAt : option Z;
  error : option string;
}.

Definition set_status (s : RunStatus) (x : t) : t :=
  mk (id x) (goal x) (targetDir x) s (analysis x) (tasks x) (judgements x)
     (workers x) (maxWorkers x) (createdAt x) (completedAt x) (error x).
Definition set_tasks (v : list Task.t) (x : t) : t :=
  mk (id x) (goal x) (targetDir x) (status x) (analysis x) v
     (judgements x) (workers x) (maxWorkers x) (createdAt x)
     (completedAt x) (error x).
Definition set_judgements (v : list Judgement.t) (x : t) : t :=
  mk (id x) (goal x) (targetDir x) (status x) (analysis x) (tasks x) v
     (workers x) (maxWorkers x) (createdAt x) (completedAt x) (error x).
Definition set_workers (v : list Worker.t) (x : t) : t :=
  mk (id x) (goal x) (targetDir x) (status x) (analysis x) (tasks x)
     (judgements x) v (maxWorkers x) (createdAt x) (completedAt x)
     (error x).
Definition set_completedAt (v : option Z) (x : t) : t :=
  mk (id x) (goal x) (targetDir x) (status x) (analysis x) (tasks x)
     (judgements x) (workers x) (maxWorkers x) (createdAt x) v (error x).
Definition set_analysis (v : string) (x : t) : t :=
  mk (id x) (goal x) (targetDir x) (status x) v (tasks x) (judgements x)
     (workers x) (maxWorkers x) (createdAt x) (completedAt x) (error x).
End Run.

(** ** JavaScript array and value helpers *)

(** [a.slice(-n)] for [n > 0]: the last [n] elements, all of them when the
    array is shorter. *)
Definition slice_last {A} (n : nat) (l : list A) : list A :=
  drop (length l - n) l.

(** [x || d] on an optional number: [undefined] and [0] are falsy. *)
Definition num_or (x : option Z) (d : Z) : Z :=
  match x with
  | Some v => if decide (v = 0) then d else v
  | None => d
  end.

(** [x || d] on an optional string: [undefined] and the empty string are
    falsy. *)
Definition str_or (x : option string) (d : string) : string :=
  match x with
  | Some EmptyString | None => d
  | Some v => v
  end.

(** ** Event bus ([events.ts]) *)

Inductive EventType :=
  ev_run_created | ev_run_updated | ev_run_completed | ev_run_failed
| ev_task_updated | ev_worker_created | ev_worker_updated | ev_worker_log
| ev_judgement_created | ev_log.

#[global] Instance EventType_eq_dec : EqDecision EventType.
Proof. solve_decision. Defined.

(** The payload is serialised by [emit] at the moment of the call, so an
    event carries a snapshot of the object it is about. *)
Inductive EventData :=
| DRun (r : Run.t)
| DTask (t : Task.t)
| DWorker (w : Worker.t)
| DJudgement (j : Judgement.t)
| DLog (level : Level) (source message : string)
| DWorkerLog (workerId : string) (entry : LogEntry.t).

Module Event.
Record t := mk {
  type : EventType;
  data : EventData;
  timestamp : Z;
}.
End Event.

(** [eventLog] is the bounded ring; [delivered] is what has been written to
    a client that has been connected since the start. *)
Module EventBus.
Record t := mk {
  eventLog : list Event.t;
  delivered : list Event.t;
}.

Definition empty : t := mk [] [].

Definition emit (now : Z) (ty : EventType) (d : EventData) (b : t) : t :=
  let event := Event.mk ty d now in
  let log := eventLog b ++ [event] in
  let log := if decide (1000 < length log)%nat then slice_last 1000 log
             else log in
  mk log (delivered b ++ [event]).

(** [this.eventLog.slice(-limit)]; [slice(-0)] is [slice(0)], the whole
    array. *)
Definition getRecentEvents (limit : nat) (b : t) : list Event.t :=
  match limit with
  | O => eventLog b
  | S _ => slice_last limit (eventLog b)
  end.
End EventBus.

(** The events of type [ty] that were emitted. *)
Definition emitted (ty : EventType) (b : EventBus.t) : list EventData :=
  Event.data <$> List.filter
    (λ e, bool_decide (Event.type e = ty)) (EventBus.delivered b).

Arguments EventBus.emit : simpl never.
Arguments emitted : simpl never.
Arguments String.append : simpl never.

(** ** Worker bookkeeping ([worker.ts]) *)

Definition activityName (ty : ActivityType) : string :=
  match ty with
  | tool_call => "tool_call"
  | file_edit => "file_edit"
  | file_create => "file_create"
  | bash => "bash"
  | text => "text"
  | act_error => "error"
  | thinking => "thinking"
  end.

(** [addLog(worker, level, message)]: the worker object is mutated in place,
    so the function returns the worker and the bus after the call. *)
Definition addLog (now : Z) (lvl : Level) (message : string)
    (w : Worker.t) (b : EventBus.t) : Worker.t * EventBus.t :=
  let entry :=
    LogEntry.mk now lvl ("worker-" +:+ String.substring 0 6 (Worker.id w))
      message in
  let logs := Worker.logs w ++ [entry] in
  let logs := if decide (500 < length logs)%nat then slice_last 500 logs
              else logs in
  (Worker.set_logs logs w,
   EventBus.emit now ev_worker_log (DWorkerLog (Worker.id w) entry) b).

(** [addActivity(worker, type, summary)]. *)
Definition addActivity (now : Z) (ty : ActivityType) (summary : string)
    (w : Worker.t) (b : EventBus.t) : Worker.t * EventBus.t :=
  let act := WorkerActivity.mk ty summary now in
  let acts := Worker.activity w ++ [act] in
  let acts := if decide (200 < length acts)%nat then slice_last 200 acts
              else acts in
  addLog now info ("[" +:+ activityName ty +:+ "] " +:+ summary)
    (Worker.set_activity acts w) b.

(** Everything the agent loop and the tools do to a worker record goes
    through the two functions above; one execution is a sequence of such
    calls. *)
Inductive WorkerOp :=
| OpLog (now : Z) (lvl : Level) (message : string)
| OpActivity (now : Z) (ty : ActivityType) (summary : string).

Definition applyOp (op : WorkerOp) (s : Worker.t * EventBus.t)
    : Worker.t * EventBus.t :=
  match op with
  | OpLog now lvl m => addLog now lvl m s.1 s.2
  | OpActivity now ty m => addActivity now ty m s.1 s.2
  end.

Definition runOps (ops : list WorkerOp) (s : Worker.t * EventBus.t)
    : Worker.t * EventBus.t :=
  foldl (λ acc op, applyOp op acc) s ops.

(** How the agent loop of a worker settles. *)
Inductive AgentOutcome :=
| Resolved (result : string)
| Rejected (errorMsg : string).

(** A reference to a task object of [run.tasks]: its position, and the two
    fields that are read through the reference and never change. *)
Module TaskRef.
Record t := mk {
  index : nat;
  id : string;
  title : string;
}.
End TaskRef.

(** The module-level state outside the runs: the event bus, the [nanoid]
    counter, and [worker.ts]'s table of active workers together with the
    abort signals that have been fired. *)
Module Env.
Record t := mk {
  bus : EventBus.t;
  idCount : nat;
  activeWorkers : gset string;
  abortedWorkers : gset string;
}.

Definition empty : t := mk EventBus.empty 0 ∅ ∅.

Definition set_bus (b : EventBus.t) (e : t) : t :=
  mk b (idCount e) (activeWorkers e) (abortedWorkers e).

Definition emit (now : Z) (ty : EventType) (d : EventData) (e : t) : t :=
  set_bus (EventBus.emit now ty d (bus e)) e.

Definition log (now : Z) (lvl : Level) (source message : string) (e : t) : t :=
  emit now ev_log (DLog lvl source message) e.
End Env.

(** [killWorker(workerId)]: abort the agentic loop of an active worker. *)
Definition killWorker (workerId : string) (e : Env.t) : Env.t :=
  if decide (workerId ∈ Env.activeWorkers e) then
    Env.mk (Env.bus e) (Env.idCount e)
      (Env.activeWorkers e ∖ {[workerId]})
      ({[workerId]} ∪ Env.abortedWorkers e)
  else e.

(** [killWorkers(workerIds)]. *)
Definition killWorkers (workerIds : list string) (e : Env.t) : Env.t :=
  foldl (λ acc i, killWorker i acc) e workerIds.

(** [runs] and [runAborts] are the two module-level maps; an
    [AbortController] is represented by whether its signal has fired. *)
Module Store.
Record t := mk {
  runs : gmap string Run.t;
  runAborts : gmap string bool;
  env : Env.t;
}.

Definition empty : t := mk ∅ ∅ Env.empty.
End Store.

(** What [JSON.parse] yields for a saved file.  A record is either in the
    legacy shape ([cycles], no [tasks]) or in the current one; the parts the
    loader tests for or defaults are optional here, the other fields are
    read at the type [Run] declares. *)
Module RawPlan.
Record t := mk {
  analysis : option string;
  tasks : option (list Task.t);
}.
End RawPlan.

Module RawCycle.
Record t := mk {
  plan : option RawPlan.t;
  judgement : option string;
  shouldContinue : bool;
  completedAt : option Z;
}.
End RawCycle.

Module RawWorker.
Record t := mk {
  id : string;
  port : Z;
  status : WorkerStatus;
  taskId : option string;
  logs : list LogEntry.t;
  activity : option (list WorkerActivity.t);
  startedAt : Z;
  completedAt : option Z;
}.
End RawWorker.

Module RawRun.
Record t := mk {
  id : string;
  goal : string;
  targetDir : string;
  status : RunStatus;
  cycles : option (list RawCycle.t);
  tasks : option (list Task.t);
  judgements : option (list Judgement.t);
  analysis : option string;
  workers : option (list RawWorker.t);
  maxWorkers : Z;
  createdAt : Z;
  completedAt : option Z;
  error : option string;
}.
End RawRun.

(** A file of the [saved] directory: [JSON.parse] throws or yields a
    record. *)
Inductive SavedFile :=
| Unreadable
| Parsed (raw : RawRun.t).

(** What the judge ([judgeTaskCompletion]) answers. *)
Module NewTask.
Record t := mk {
  title : string;
  description : string;
  priority : option Z;
  dependencies : option (list string);
}.
End NewTask.

Module JudgeResult.
Record t := mk {
  assessment : string;
  goalComplete : bool;
  newTasks : list NewTask.t;
}.
End JudgeResult.

Inductive JudgeOutcome :=
| Judged (result : JudgeResult.t)
| JudgeThrew (msg : string).

(** The state one call of [executePipeline(run, abort)] works on: the run
    object, the abort signal, and the closure variables [runningTasks]
    (a [Map] of which only the keys matter), [judgeQueue] and [judging]. *)
Module Pipeline.
Record t := mk {
  run : Run.t;
  aborted : bool;
  runningTasks : gset string;
  judgeQueue : list TaskRef.t;
  judging : bool;
  env : Env.t;
}.

Definition set_run (r : Run.t) (p : t) : t :=
  mk r (aborted p) (runningTasks p) (judgeQueue p) (judging p) (env p).
Definition set_runningTasks (v : gset string) (p : t) : t :=
  mk (run p) (aborted p) v (judgeQueue p) (judging p) (env p).
Definition set_judgeQueue (v : list TaskRef.t) (p : t) : t :=
  mk (run p) (aborted p) (runningTasks p) v (judging p) (env p).
Definition set_judging (v : bool) (p : t) : t :=
  mk (run p) (aborted p) (runningTasks p) (judgeQueue p) v (env p).
Definition set_env (e : Env.t) (p : t) : t :=
  mk (run p) (aborted p) (runningTasks p) (judgeQueue p) (judging p) e.

Definition emit (now : Z) (ty : EventType) (d : EventData) (p : t) : t :=
  set_env (Env.emit now ty d (env p)) p.
Definition log (now : Z) (lvl : Level) (source message : string) (p : t) : t :=
  set_env (Env.log now lvl source message (env p)) p.
End Pipeline.

(** A call of the public API either returns or throws. *)
Inductive Result (A : Type) :=
| Ok (a : A)
| Throw (message : string).
Arguments Ok {A} a.
Arguments Throw {A} message.

(** ** The worker's activity summary ([getWorkerActivitySummary]) *)

#[global] Instance ActivityType_eq_dec : EqDecision ActivityType.
Proof. solve_decision. Defined.





Definition doubleQuote : string := String (Ascii.ascii_of_nat 34) EmptyString.

Definition newline : string := String (Ascii.ascii_of_nat 10) EmptyString.







(** ** Model configuration ([model.ts]) *)

Inductive Provider := anthropic | google.

(** [s.includes(sub)]. *)
Fixpoint includes (sub s : string) : bool :=
  match s with
  | EmptyString => String.prefix sub EmptyString
  | String _ rest => String.prefix sub s || includes sub rest
  end.

Definition detectProvider (modelId : string) : Provider :=
  if String.prefix "gemini" modelId then google
  else if String.prefix "claude" modelId then anthropic
  else if includes "gemini" modelId then google
  else if includes "claude" modelId || includes "anthropic" modelId
       then anthropic
  else anthropic.

(** The environment variables the module reads. *)
Module ProcessEnv.
Record t := mk {
  MODEL : option string;
  PLANNER_MODEL : option string;
  WORKER_MODEL : option string;
}.
End ProcessEnv.

Definition DEFAULT_MODEL : string := "claude-opus-4-6".

Definition getDefaultModelId (env : ProcessEnv.t) : string :=
  str_or (ProcessEnv.MODEL env) DEFAULT_MODEL.

Definition getPlannerModelId (env : ProcessEnv.t) : string :=
  str_or (ProcessEnv.PLANNER_MODEL env) (getDefaultModelId env).

Definition getWorkerModelId (env : ProcessEnv.t) : string :=
  str_or (ProcessEnv.WORKER_MODEL env) (getDefaultModelId env).

(** ** Skills ([skills.ts]) *)

Module Skill.
Record t := mk {
  name : string;
  description : string;
  content : string;
  disableModelInvocation : bool;
  userInvocable : bool;
  allowedTools : option (list string);
  filePath : string;
  dirPath : string;
}.
End Skill.

(** The tail of [loadSkills], given what the two directories yielded:
    [skillNames] is computed once, before any command is pushed. *)
Definition mergeSkills (skills commands : list Skill.t) : list Skill.t :=
  let skillNames := Skill.name <$> skills in
  skills
  ++ List.filter (λ cmd, negb (bool_decide (Skill.name cmd ∈ skillNames)))
       commands.

Definition getSkillContent (skills : list Skill.t) (name : string)
    : option string :=
  match List.find (λ s, bool_decide (Skill.name s = name)) skills with
  | Some skill => Some (Skill.content skill)
  | None => None
  end.

(** The skills [buildSkillsSummary] lists in the system prompt. *)
Definition modelSkills (skills : list Skill.t) : list Skill.t :=
  List.filter (λ s, negb (Skill.disableModelInvocation s)) skills.

Definition buildSkillsSummary (skills : list Skill.t) : string :=
  match modelSkills skills with
  | [] => ""
  | listed =>
      String.concat newline
        (["## Available Skills"; "";
          "The following skills are available. You can invoke them using the `skill` tool when they are relevant to your task.";
          ""]
         ++ (listed ≫= λ skill,
               ["### " +:+ Skill.name skill; Skill.description skill; ""]))
  end.

(** [executeSkillTool(args, skills)], the [skill] tool of a worker. *)
Definition executeSkillTool (name : string) (skills : list Skill.t) : string :=
  match getSkillContent skills name with
  | None =>
      let available := String.concat ", " (Skill.name <$> skills) in
      "Error: Skill " +:+ doubleQuote +:+ name +:+ doubleQuote
      +:+ " not found. Available skills: " +:+ str_or (Some available) "(none)"
  | Some content =>
      "# Skill: " +:+ name +:+ newline +:+ newline +:+ content
  end.

(** ** Worker tools ([worker.ts]) *)

Definition MAX_TOOL_RESULT_CHARS : Z := 60000.
Definition MAX_FILE_LINES : Z := 2000.
Definition MAX_LINE_CHARS : Z := 2000.

(** [a.slice(start, stop)] on an array, for integer arguments: a negative
    index counts from the end, and both are clamped to the array. *)
Definition jsSlice {A} (start stop : Z) (l : list A) : list A :=
  let len := Z.of_nat (length l) in
  let from := if decide (start < 0) then Z.max (len + start) 0
              else Z.min start len in
  let to := if decide (stop < 0) then Z.max (len + stop) 0
            else Z.min stop len in
  take (Z.to_nat (to - from)) (drop (Z.to_nat from) l).

(** [s.padStart(n, " ")]. *)
Fixpoint spaces (n : nat) : string :=
  match n with
  | O => ""
  | S n => String (Ascii.ascii_of_nat 32) (spaces n)
  end.

Definition padStart (n : nat) (s : string) : string :=
  spaces (n - String.length s) +:+ s.

(** The tail of every tool that returns command output:
    [output.length > MAX ? output.slice(0, MAX) + "\n... (truncated)" : output]. *)
Definition truncateResult (output : string) : string :=
  if decide (MAX_TOOL_RESULT_CHARS < Z.of_nat (String.length output))
  then String.substring 0 (Z.to_nat MAX_TOOL_RESULT_CHARS) output
       +:+ newline +:+ "... (truncated)"
  else output.

(** [executeRead] on a file that exists, is not a directory and is not too
    large, given [content.split("\n")]: the lines it shows, the text it
    makes of each, and the result. *)
Definition shownLines (offset limit : option Z) (allLines : list string)
    : list string :=
  let offset := num_or offset 0 in
  let limit := num_or limit MAX_FILE_LINES in
  jsSlice offset (offset + limit) allLines.

Definition truncateLine (line : string) : string :=
  if decide (MAX_LINE_CHARS < Z.of_nat (String.length line))
  then String.substring 0 (Z.to_nat MAX_LINE_CHARS) line +:+ "..."
  else line.

Definition numberLine (offset : Z) (i : nat) (line : string) : string :=
  let lineNum := padStart 5 (pretty (offset + Z.of_nat i + 1)) in
  lineNum +:+ "| " +:+ truncateLine line.

Definition readFooter (offset limit : option Z) (allLines : list string)
    : option string :=
  let lines := shownLines offset limit allLines in
  let offset := num_or offset 0 in
  let limit := num_or limit MAX_FILE_LINES in
  if decide (offset + limit < Z.of_nat (length allLines))
  then Some (newline +:+ newline +:+ "(File has "
             +:+ pretty (length allLines) +:+ " total lines. Showing lines "
             +:+ pretty (offset + 1) +:+ "-"
             +:+ pretty (offset + Z.of_nat (length lines))
             +:+ ". Use offset parameter to read more.)")
  else None.

Definition readResult (offset limit : option Z) (allLines : list string)
    : string :=
  let numbered :=
    imap (numberLine (num_or offset 0)) (shownLines offset limit allLines) in
  String.concat newline numbered
  +:+ default "" (readFooter offset limit allLines).

Section Engine.

(** The identifier supply, the configured worker model and JavaScript's
    [String.prototype.toLowerCase]. *)
Variable nanoid : nat → string.
Variable workerModelId : string.
Variable toLowerCase : string → string.

Definition freshId (e : Env.t) : string * Env.t :=
  (nanoid (Env.idCount e),
   Env.mk (Env.bus e) (S (Env.idCount e)) (Env.activeWorkers e)
     (Env.abortedWorkers e)).

(** [spawnWorker(task, targetDir)], up to the point where the agent loop
    starts: the worker record is created, registered and logged. *)
Definition spawnWorker (now : Z) (task : TaskRef.t) (e : Env.t)
    : Worker.t * Env.t :=
  let '(wid, e) := freshId e in
  let worker := Worker.mk wid 0 running (Some (TaskRef.id task)) [] [] now None in
  let e := Env.mk (Env.bus e) (Env.idCount e)
             ({[wid]} ∪ Env.activeWorkers e) (Env.abortedWorkers e) in
  let e := Env.emit now ev_worker_created (DWorker worker) e in
  let '(worker, b) :=
    addLog now info
      ("Worker spawned for task: " +:+ TaskRef.title task
       +:+ " (in-process, model: " +:+ workerModelId +:+ ")")
      worker (Env.bus e) in
  (worker, Env.set_bus b e).

(** The tail of [spawnWorker]'s [done] promise: what runs once the agent loop
    has settled, on the task and worker objects the closure holds. *)
Definition settle (now : Z) (o : AgentOutcome) (task : Task.t)
    (worker : Worker.t) (b : EventBus.t) : Task.t * Worker.t * EventBus.t :=
  let '(task, worker, b) :=
    match o with
    | Resolved result =>
        let worker := Worker.set_completedAt (Some now)
                        (Worker.set_status worker_completed worker) in
        let task := Task.set_completedAt (Some now)
                      (Task.set_status completed
                         (Task.set_result (Some result) task)) in
        let '(worker, b) :=
          addLog now info "Task completed successfully" worker b in
        (task, worker, b)
    | Rejected errorMsg =>
        let worker := Worker.set_completedAt (Some now)
                        (Worker.set_status worker_failed worker) in
        let task := Task.set_completedAt (Some now)
                      (Task.set_error (Some errorMsg)
                         (Task.set_status failed task)) in
        let '(worker, b) :=
          addLog now error ("Worker failed: " +:+ errorMsg) worker b in
        (task, worker, b)
    end in
  let b := EventBus.emit now ev_worker_updated (DWorker worker) b in
  let b := EventBus.emit now ev_task_updated (DTask task) b in
  (task, worker, b).

(** [settle] on the objects at positions [ti] of [run.tasks] and [wi] of
    [run.workers]. *)
Definition settleIn (now : Z) (o : AgentOutcome) (ti wi : nat)
    (r : Run.t) (b : EventBus.t) : Run.t * EventBus.t :=
  match Run.tasks r !! ti, Run.workers r !! wi with
  | Some task, Some worker =>
      let '(task, worker, b) := settle now o task worker b in
      (Run.set_workers (<[wi := worker]> (Run.workers r))
         (Run.set_tasks (<[ti := task]> (Run.tasks r)) r), b)
  | _, _ => (r, b)
  end.

(** ** Orchestrator, persistence and run manager ([orchestrator.ts]) *)

Definition MAX_CONCURRENT_WORKERS : Z := 10.

Definition runStatusName (s : RunStatus) : string :=
  match s with
  | idle => "idle"
  | planning => "planning"
  | executing => "executing"
  | judging => "judging"
  | run_completed => "completed"
  | run_failed => "failed"
  | stopped => "stopped"
  | paused => "paused"
  end.

(** [["planning", "executing", "judging"].includes(status)]. *)
Definition isActive (s : RunStatus) : bool :=
  match s with
  | planning | executing | judging => true
  | _ => false
  end.

(** The object [saveRun] serialises: the run with each worker's logs and
    activity cut to their last 100 entries.  The run itself is not
    modified. *)
Definition saveRun (run : Run.t) : Run.t :=
  Run.set_workers
    ((λ w, Worker.set_activity (slice_last 100 (Worker.activity w))
             (Worker.set_logs (slice_last 100 (Worker.logs w)) w))
       <$> Run.workers run)
    run.

Definition getRun (id : string) (s : Store.t) : option Run.t :=
  Store.runs s !! id.

(** [createRun(goal, targetDir, maxWorkers?)]. *)
Definition createRun (now : Z) (goal targetDir : string)
    (maxWorkers : option Z) (s : Store.t) : Run.t * Store.t :=
  let '(rid, e) := freshId (Store.env s) in
  let run :=
    Run.mk rid goal targetDir idle "" [] [] []
      (Z.min (num_or maxWorkers 3) MAX_CONCURRENT_WORKERS) now None None in
  let runs := <[rid := run]> (Store.runs s) in
  (* saveState() *)
  let e := Env.emit now ev_run_created (DRun run) e in
  (run, Store.mk runs (Store.runAborts s) e).

Definition getRunningWorkerIds (run : Run.t) : list string :=
  Worker.id <$>
    List.filter (λ w, bool_decide (Worker.status w = running))
      (Run.workers run).

(** The loop shared by [stopRun], [pauseRun] and [loadState]:
    an [in_progress] task goes back to [pending], its [startedAt] cleared. *)
Definition rollbackTask (task : Task.t) : Task.t :=
  if decide (Task.status task = in_progress)
  then Task.set_startedAt None (Task.set_status pending task)
  else task.

(** The loop of [stopRun] and [loadState] over the workers. *)
Definition failRunning (now : Z) (worker : Worker.t) : Worker.t :=
  if decide (Worker.status worker = running)
  then Worker.set_completedAt (Some now) (Worker.set_status worker_failed worker)
  else worker.

(** [runAborts.get(runId)?.abort()]. *)
Definition fireAbort (runId : string) (aborts : gmap string bool)
    : gmap string bool :=
  alter (λ _, true) runId aborts.

(** [stopRun] up to its [await killWorkers(...)]. *)
Definition stopRun_begin (runId : string) (s : Store.t) : Result Store.t :=
  match Store.runs s !! runId with
  | None => Throw ("Run " +:+ runId +:+ " not found")
  | Some run =>
      Ok (Store.mk (Store.runs s) (fireAbort runId (Store.runAborts s))
            (killWorkers (getRunningWorkerIds run) (Store.env s)))
  end.

(** [stopRun] after the [await], on the run object it looked up. *)
Definition stopRun_finish (now : Z) (runId : string) (s : Store.t) : Store.t :=
  match Store.runs s !! runId with
  | None => s
  | Some run =>
      let run := Run.set_workers (failRunning now <$> Run.workers run) run in
      let run := Run.set_tasks (rollbackTask <$> Run.tasks run) run in
      let run := Run.set_completedAt (Some now) (Run.set_status stopped run) in
      (* saveState() *)
      Store.mk (<[runId := run]> (Store.runs s)) (Store.runAborts s)
        (Env.emit now ev_run_updated (DRun run) (Store.env s))
  end.

(** [stopRun(runId)] when nothing else runs during its [await]. *)
Definition stopRun (now : Z) (runId : string) (s : Store.t) : Result Store.t :=
  match stopRun_begin runId s with
  | Ok s => Ok (stopRun_finish now runId s)
  | Throw m => Throw m
  end.

(** [pauseRun] up to its [await killWorkers(...)]. *)
Definition pauseRun_begin (runId : string) (s : Store.t) : Result Store.t :=
  match Store.runs s !! runId with
  | None => Throw ("Run " +:+ runId +:+ " not found")
  | Some run =>
      if isActive (Run.status run) then
        let run := Run.set_status paused run in
        Ok (Store.mk (<[runId := run]> (Store.runs s))
              (fireAbort runId (Store.runAborts s))
              (killWorkers (getRunningWorkerIds run) (Store.env s)))
      else
        Throw ("Run " +:+ runId +:+ " is " +:+ runStatusName (Run.status run)
               +:+ ", can only pause active runs")
  end.

(** [pauseRun] after the [await]. *)
Definition pauseRun_finish (now : Z) (runId : string) (s : Store.t) : Store.t :=
  match Store.runs s !! runId with
  | None => s
  | Some run =>
      let run := Run.set_tasks (rollbackTask <$> Run.tasks run) run in
      (* saveState() *)
      let e := Env.emit now ev_run_updated (DRun run) (Store.env s) in
      let e := Env.log now info "system" "Run paused. Use resume to continue." e in
      Store.mk (<[runId := run]> (Store.runs s)) (Store.runAborts s) e
  end.

(** [pauseRun(runId)] when nothing else runs during its [await]. *)
Definition pauseRun (now : Z) (runId : string) (s : Store.t) : Result Store.t :=
  match pauseRun_begin runId s with
  | Ok s => Ok (pauseRun_finish now runId s)
  | Throw m => Throw m
  end.

(** The completion of the worker at position [wi] for the task at position
    [ti] of run [runId]: the tail of [spawnWorker]'s [done] promise, acting
    on the run object held in [runs]. *)
Definition workerSettles (now : Z) (o : AgentOutcome) (runId : string)
    (ti wi : nat) (s : Store.t) : Store.t :=
  match Store.runs s !! runId with
  | None => s
  | Some run =>
      let '(run, b) := settleIn now o ti wi run (Env.bus (Store.env s)) in
      Store.mk (<[runId := run]> (Store.runs s)) (Store.runAborts s)
        (Env.set_bus b (Store.env s))
  end.

(** *** Loading the saved runs *)

(** One iteration of the migration loop over [raw.cycles]; the accumulator
    is [allTasks], [allJudgements], [analysis] and the environment. *)
Definition migrateCycle (now : Z)
    (acc : list Task.t * list Judgement.t * string * Env.t)
    (cycle : RawCycle.t) : list Task.t * list Judgement.t * string * Env.t :=
  let '(allTasks, allJudgements, analysis, e) := acc in
  let analysis :=
    match RawCycle.plan cycle ≫= RawPlan.analysis, analysis with
    | Some (String c a), EmptyString => String c a
    | _, _ => analysis
    end in
  let allTasks :=
    match RawCycle.plan cycle ≫= RawPlan.tasks with
    | Some ts => allTasks ++ ts
    | None => allTasks
    end in
  match RawCycle.judgement cycle with
  | Some (String c a) =>
      let '(jid, e) := freshId e in
      (allTasks,
       allJudgements ++
         [Judgement.mk jid "" (String c a) []
            (negb (RawCycle.shouldContinue cycle))
            (num_or (RawCycle.completedAt cycle) now)],
       analysis, e)
  | _ => (allTasks, allJudgements, analysis, e)
  end.

(** A saved worker as a [Worker], with [if (!worker.activity)
    worker.activity = []] applied. *)
Definition ofRawWorker (w : RawWorker.t) : Worker.t :=
  Worker.mk (RawWorker.id w) (RawWorker.port w) (RawWorker.status w)
    (RawWorker.taskId w) (RawWorker.logs w)
    (default [] (RawWorker.activity w)) (RawWorker.startedAt w)
    (RawWorker.completedAt w).

(** The body of [loadState]'s loop for one parsed file, up to
    [runs.set(run.id, run)]: migration, defaults, reconciliation.  [None]
    when the body throws, which is when a record in the current shape has no
    [workers] array to iterate over.  In [raw.maxWorkers || 3] a missing
    number and 0 are alike, so a legacy record without [maxWorkers] reads
    as one with 0. *)
Definition loadRun (now : Z) (raw : RawRun.t) (e : Env.t)
    : option Run.t * Env.t :=
  let '(tasks, judgements, analysis, workers, maxWorkers, e) :=
    match RawRun.cycles raw, RawRun.tasks raw with
    | Some cycles, None =>
        let '(allTasks, allJudgements, analysis, e) :=
          foldl (migrateCycle now) ([], [], "", e) cycles in
        (Some allTasks, Some allJudgements, Some analysis,
         Some (default [] (RawRun.workers raw)),
         num_or (Some (RawRun.maxWorkers raw)) 3, e)
    | _, _ =>
        (RawRun.tasks raw, RawRun.judgements raw, RawRun.analysis raw,
         RawRun.workers raw, RawRun.maxWorkers raw, e)
    end in
  let tasks := default [] tasks in
  let judgements := default [] judgements in
  let analysis := str_or analysis "" in
  let status :=
    if isActive (RawRun.status raw) then paused else RawRun.status raw in
  match workers with
  | None => (None, e)
  | Some workers =>
      let workers := (λ w, failRunning now (ofRawWorker w)) <$> workers in
      let tasks := rollbackTask <$> tasks in
      (Some (Run.mk (RawRun.id raw) (RawRun.goal raw) (RawRun.targetDir raw)
               status analysis tasks judgements workers maxWorkers
               (RawRun.createdAt raw) (RawRun.completedAt raw)
               (RawRun.error raw)), e)
  end.

Definition loadFile (now : Z) (s : Store.t) (file : SavedFile) : Store.t :=
  match file with
  | Unreadable => s
  | Parsed raw =>
      match loadRun now raw (Store.env s) with
      | (Some run, e) =>
          Store.mk (<[Run.id run := run]> (Store.runs s)) (Store.runAborts s) e
      | (None, e) => Store.mk (Store.runs s) (Store.runAborts s) e
      end
  end.

(** [loadState()], given the parsed contents of the [.json] files of the
    [saved] directory. *)
Definition loadState (now : Z) (files : list SavedFile) (s : Store.t)
    : Store.t :=
  foldl (loadFile now) s files.

(** *** The judge queue *)

(** [run.tasks.find(t => t.title.toLowerCase() === depTitle.toLowerCase())]. *)
Definition findByTitle (tasks : list Task.t) (depTitle : string)
    : option Task.t :=
  List.find
    (λ t, bool_decide (toLowerCase (Task.title t) = toLowerCase depTitle))
    tasks.

(** [deps.map(depTitle => find(...)?.id).filter(Boolean)]: a title without a
    match maps to [undefined] and is filtered out, and so is an empty id. *)
Definition resolveDependencies (tasks : list Task.t) (deps : list string)
    : list string :=
  omap (λ depTitle,
          match Task.id <$> findByTitle tasks depTitle with
          | Some (String c a) => Some (String c a)
          | _ => None
          end) deps.

(** The task object built for a follow-up [nt] while [run.tasks] is
    [tasks]: the object literal, then "Resolve dependencies (titles → IDs)". *)
Definition newTaskOf (now : Z) (judgementId tid : string)
    (tasks : list Task.t) (nt : NewTask.t) : Task.t :=
  let newTask :=
    Task.mk tid (NewTask.title nt) (NewTask.description nt) pending
      (num_or (NewTask.priority nt) 5) [] None None (Some judgementId) now
      None None in
  match NewTask.dependencies nt with
  | Some (d :: ds) =>
      Task.set_dependencies (resolveDependencies tasks (d :: ds)) newTask
  | _ => newTask
  end.

(** [run.tasks] after the loop over [result.newTasks], when it was [tasks]
    before and the identifier counter stood at [c]. *)
Fixpoint followUpTasks (now : Z) (judgementId : string) (c : nat)
    (tasks : list Task.t) (nts : list NewTask.t) : list Task.t :=
  match nts with
  | [] => tasks
  | nt :: rest =>
      followUpTasks now judgementId (S c)
        (tasks ++ [newTaskOf now judgementId (nanoid c) tasks nt]) rest
  end.

(** One iteration of the loop over [result.newTasks]. *)
Definition spawnFollowUp (now : Z) (judgementId : string)
    (acc : Pipeline.t * list string) (nt : NewTask.t)
    : Pipeline.t * list string :=
  let '(p, newTaskIds) := acc in
  let '(tid, e) := freshId (Pipeline.env p) in
  let p := Pipeline.set_env e p in
  let newTask :=
    newTaskOf now judgementId tid (Run.tasks (Pipeline.run p)) nt in
  let p :=
    Pipeline.set_run
      (Run.set_tasks (Run.tasks (Pipeline.run p) ++ [newTask]) (Pipeline.run p))
      p in
  let p := Pipeline.emit now ev_task_updated (DTask newTask) p in
  let p := Pipeline.log now info "judge"
             ("Spawned follow-up task: " +:+ Task.title newTask) p in
  (p, newTaskIds ++ [Task.id newTask]).

Definition pushJudgement (now : Z) (j : Judgement.t) (p : Pipeline.t)
    : Pipeline.t :=
  let run := Pipeline.run p in
  let p := Pipeline.set_run
             (Run.set_judgements (Run.judgements run ++ [j]) run) p in
  Pipeline.emit now ev_judgement_created (DJudgement j) p.

(** [if (t.status === "pending") t.status = "cancelled"]. *)
Definition cancelIfPending (t : Task.t) : Task.t :=
  if decide (Task.status t = pending) then Task.set_status cancelled t else t.

(** The loop [for (const t of run.tasks)] of the goal-complete branch; each
    task it cancels is announced. *)
Definition cancelPending (now : Z) (p : Pipeline.t) : Pipeline.t :=
  let run := Pipeline.run p in
  let e :=
    foldl (λ e t, if decide (Task.status t = pending)
                  then Env.emit now ev_task_updated (DTask (cancelIfPending t)) e
                  else e)
      (Pipeline.env p) (Run.tasks run) in
  Pipeline.set_env e
    (Pipeline.set_run (Run.set_tasks (cancelIfPending <$> Run.tasks run) run) p).

(** The [try] block of [processJudgeQueue] from the point where the judge
    has answered, first part: the follow-up tasks are created and the
    judgement is recorded. *)
Definition recordJudgement (now : Z) (task : TaskRef.t)
    (result : JudgeResult.t) (p : Pipeline.t) : Pipeline.t :=
  let p :=
    match JudgeResult.newTasks result with
    | nt :: nts =>
        let '(judgementId, e) := freshId (Pipeline.env p) in
        let p := Pipeline.set_env e p in
        let '(p, newTaskIds) :=
          foldl (spawnFollowUp now judgementId) (p, []) (nt :: nts) in
        pushJudgement now
          (Judgement.mk judgementId (TaskRef.id task)
             (JudgeResult.assessment result) newTaskIds
             (JudgeResult.goalComplete result) now) p
    | [] =>
        let '(jid, e) := freshId (Pipeline.env p) in
        let p := Pipeline.set_env e p in
        pushJudgement now
          (Judgement.mk jid (TaskRef.id task) (JudgeResult.assessment result)
             [] (JudgeResult.goalComplete result) now) p
    end in
  Pipeline.log now info "judge" (JudgeResult.assessment result) p.

(** Second part: [if (result.goalComplete) { ... } saveState()].  The
    boolean tells whether the function returned from inside the loop. *)
Definition concludeJudgement (now : Z) (result : JudgeResult.t)
    (p : Pipeline.t) : Pipeline.t * bool :=
  if JudgeResult.goalComplete result then
    let p := cancelPending now p in
    let stillRunning :=
      existsb (λ t, bool_decide (Task.status t = in_progress))
        (Run.tasks (Pipeline.run p)) in
    if negb stillRunning then
      let run := Run.set_completedAt (Some now)
                   (Run.set_status run_completed (Pipeline.run p)) in
      let p := Pipeline.set_run run p in
      (* saveState() *)
      let p := Pipeline.emit now ev_run_completed (DRun run) p in
      let p := Pipeline.log now info "system" "Goal achieved! Run completed." p in
      (Pipeline.set_judging false p, true)
    else
      let p := Pipeline.log now info "system"
                 "Goal marked complete — waiting for running tasks to finish."
                 p in
      (* saveState() *)
      (p, false)
  else
    (* saveState() *)
    (p, false).

Definition onJudged (now : Z) (task : TaskRef.t) (result : JudgeResult.t)
    (p : Pipeline.t) : Pipeline.t * bool :=
  concludeJudgement now result (recordJudgement now task result p).

(** The [catch] block. *)
Definition onJudgeThrew (now : Z) (task : TaskRef.t) (msg : string)
    (p : Pipeline.t) : Pipeline.t :=
  let p := Pipeline.log now error "judge" ("Judge error: " +:+ msg) p in
  let '(jid, e) := freshId (Pipeline.env p) in
  let p := Pipeline.set_env e p in
  let run := Pipeline.run p in
  Pipeline.set_run
    (Run.set_judgements
       (Run.judgements run ++
          [Judgement.mk jid (TaskRef.id task) ("Judge error: " +:+ msg) []
             false now]) run) p.

(** [if (run.status === "judging") { run.status = "executing"; ... }]. *)
Definition backToExecuting (now : Z) (p : Pipeline.t) : Pipeline.t :=
  if decide (Run.status (Pipeline.run p) = judging) then
    let run := Run.set_status executing (Pipeline.run p) in
    Pipeline.emit now ev_run_updated (DRun run) (Pipeline.set_run run p)
  else p.

(** The head of one iteration, before the judge is called. *)
Definition beginJudging (now : Z) (task : TaskRef.t) (p : Pipeline.t)
    : Pipeline.t :=
  let run := Run.set_status judging (Pipeline.run p) in
  let p := Pipeline.set_run run p in
  let p := Pipeline.emit now ev_run_updated (DRun run) p in
  Pipeline.log now info "judge" ("Evaluating task: " +:+ TaskRef.title task) p.

(** The rest of the iteration, once the judge call has settled. *)
Definition judged (now : Z) (task : TaskRef.t) (o : JudgeOutcome)
    (p : Pipeline.t) : Pipeline.t * bool :=
  match o with
  | Judged result =>
      let '(p, returned) := onJudged now task result p in
      if returned then (p, true) else (backToExecuting now p, false)
  | JudgeThrew msg =>
      (backToExecuting now (onJudgeThrew now task msg p), false)
  end.

(** The [while (judgeQueue.length > 0)] loop, with the judge as a function
    of the run and the task it is shown, and nothing else running while it
    is awaited.  [queue] is the content of [judgeQueue], which each
    iteration shifts. *)
Fixpoint drain (now : Z) (judge : Run.t → TaskRef.t → JudgeOutcome)
    (queue : list TaskRef.t) (p : Pipeline.t) : Pipeline.t :=
  match queue with
  | [] => Pipeline.set_judging false p
  | task :: rest =>
      if Pipeline.aborted p then Pipeline.set_judging false p
      else
        let p := Pipeline.set_judgeQueue rest p in
        let p := beginJudging now task p in
        let '(p, returned) :=
          judged now task (judge (Pipeline.run p) task) p in
        if returned then p else drain now judge rest p
  end.

Definition processJudgeQueue (now : Z)
    (judge : Run.t → TaskRef.t → JudgeOutcome) (p : Pipeline.t)
    : Pipeline.t :=
  if Pipeline.judging p then p
  else drain now judge (Pipeline.judgeQueue p) (Pipeline.set_judging true p).

(** *** The main loop *)

(** [run.tasks.find(t => t.id === depId)?.status === "completed"]. *)
Definition depCompleted (tasks : list Task.t) (depId : string) : bool :=
  match List.find (λ t, bool_decide (Task.id t = depId)) tasks with
  | Some depTask => bool_decide (Task.status depTask = completed)
  | None => false
  end.

(** The predicate [getReadyTasks] filters with. *)
Definition isReady (tasks : list Task.t) (task : Task.t) : bool :=
  bool_decide (Task.status task = pending)
  && forallb (depCompleted tasks) (Task.dependencies task).

(** [tasks.filter(pred)] as references: what is left of the array from
    position [i] on is filtered, in array order. *)
Fixpoint filterRefs (pred : Task.t → bool) (i : nat) (tasks : list Task.t)
    : list TaskRef.t :=
  match tasks with
  | [] => []
  | t :: ts =>
      if pred t
      then TaskRef.mk i (Task.id t) (Task.title t) :: filterRefs pred (S i) ts
      else filterRefs pred (S i) ts
  end.

Definition getReadyTasks (run : Run.t) : list TaskRef.t :=
  filterRefs (isReady (Run.tasks run)) 0 (Run.tasks run).

(** [task.status = "in_progress"; task.startedAt = Date.now()]. *)
Definition markStarted (now : Z) (t : Task.t) : Task.t :=
  Task.set_startedAt (Some now) (Task.set_status in_progress t).

(** The body of the loop [for (const task of readyTasks)] after its two
    [break] tests. *)
Definition startTask (now : Z) (task : TaskRef.t) (p : Pipeline.t)
    : Pipeline.t :=
  let run := Pipeline.run p in
  let tasks :=
    alter (markStarted now) (TaskRef.index task) (Run.tasks run) in
  let p := Pipeline.set_run (Run.set_tasks tasks run) p in
  let p :=
    match tasks !! TaskRef.index task with
    | Some t => Pipeline.emit now ev_task_updated (DTask t) p
    | None => p
    end in
  let p := Pipeline.log now info "system"
             ("Starting task: " +:+ TaskRef.title task) p in
  let '(worker, e) := spawnWorker now task (Pipeline.env p) in
  let run := Pipeline.run p in
  let run := Run.set_workers (Run.workers run ++ [worker]) run in
  let p := Pipeline.set_env e (Pipeline.set_run run p) in
  let p := Pipeline.emit now ev_run_updated (DRun run) p in
  Pipeline.set_runningTasks ({[TaskRef.id task]} ∪ Pipeline.runningTasks p) p.

(** [if (runningTasks.size >= run.maxWorkers) break;
     if (abort.signal.aborted) break;]. *)
Definition mustBreak (p : Pipeline.t) : bool :=
  bool_decide (Run.maxWorkers (Pipeline.run p)
               ≤ Z.of_nat (size (Pipeline.runningTasks p)))
  || Pipeline.aborted p.

(** [for (const task of readyTasks) { ... }]. *)
Fixpoint spawnLoop (now : Z) (readyTasks : list TaskRef.t) (p : Pipeline.t)
    : Pipeline.t :=
  match readyTasks with
  | [] => p
  | task :: rest =>
      if mustBreak p then p
      else spawnLoop now rest (startTask now task p)
  end.

(** The references the loop passes to [startTask], in order. *)
Fixpoint started (now : Z) (readyTasks : list TaskRef.t) (p : Pipeline.t)
    : list TaskRef.t :=
  match readyTasks with
  | [] => []
  | task :: rest =>
      if mustBreak p then []
      else task :: started now rest (startTask now task p)
  end.

(** The same loop, recording the state in which each task is started. *)
Fixpoint startMoments (now : Z) (readyTasks : list TaskRef.t) (p : Pipeline.t)
    : list (Pipeline.t * TaskRef.t) :=
  match readyTasks with
  | [] => []
  | task :: rest =>
      if mustBreak p then []
      else (p, task) :: startMoments now rest (startTask now task p)
  end.

(** "Spawn workers for ready tasks": one pass of the main loop. *)
Definition spawnReady (now : Z) (p : Pipeline.t) : Pipeline.t :=
  spawnLoop now (getReadyTasks (Pipeline.run p)) p.

(** [dep && (dep.status === "failed" || dep.status === "cancelled")]. *)
Definition depDead (tasks : list Task.t) (depId : string) : bool :=
  match List.find (λ d, bool_decide (Task.id d = depId)) tasks with
  | Some dep =>
      bool_decide (Task.status dep = failed)
      || bool_decide (Task.status dep = cancelled)
  | None => false
  end.

Definition trulyBlocked (tasks : list Task.t) (t : Task.t) : bool :=
  bool_decide (Task.status t = pending)
  && existsb (depDead tasks) (Task.dependencies t).

(** One iteration of [for (const t of trulyBlocked)]. *)
Definition cancelBlocked (now : Z) (p : Pipeline.t) (t : TaskRef.t)
    : Pipeline.t :=
  let run := Pipeline.run p in
  let tasks :=
    alter (λ t, Task.set_error (Some "Blocked by failed dependencies")
                  (Task.set_status cancelled t))
      (TaskRef.index t) (Run.tasks run) in
  let p := Pipeline.set_run (Run.set_tasks tasks run) p in
  match tasks !! TaskRef.index t with
  | Some t => Pipeline.emit now ev_task_updated (DTask t) p
  | None => p
  end.

(** "Handle blocked tasks": the dead-end branch of the main loop, up to its
    test for leaving the loop; the boolean is that [break]. *)
Definition handleBlocked (now : Z) (p : Pipeline.t) : Pipeline.t * bool :=
  if bool_decide (size (Pipeline.runningTasks p) = 0%nat)
     && bool_decide (getReadyTasks (Pipeline.run p) = [])
  then
    let tasks := Run.tasks (Pipeline.run p) in
    let blocked := filterRefs (trulyBlocked tasks) 0 tasks in
    let p :=
      match blocked with
      | [] => p
      | _ =>
          let p := Pipeline.log now warn "system"
                     (pretty (length blocked)
                      +:+ " tasks blocked by failed dependencies. Cancelling them.")
                     p in
          foldl (cancelBlocked now) p blocked
      end in
    if negb (Pipeline.judging p)
       && bool_decide (Pipeline.judgeQueue p = [])
       && bool_decide
            (List.filter (λ t, bool_decide (Task.status t = pending))
               (Run.tasks (Pipeline.run p)) = [])
    then (p, true) else (p, false)
  else (p, false).

(** ** Sample data

    Concrete identifier supply, lower-casing and states on which the
    properties below are exercised. *)

Definition sampleId (n : nat) : string := "id" +:+ pretty n.

Definition lowerAscii (c : Ascii.ascii) : Ascii.ascii :=
  let n := Ascii.nat_of_ascii c in
  if ((65 <=? n) && (n <=? 90))%nat then Ascii.ascii_of_nat (n + 32) else c.

(** [toLowerCase] on ASCII strings. *)
Fixpoint asciiLower (s : string) : string :=
  match s with
  | EmptyString => EmptyString
  | String c s => String (lowerAscii c) (asciiLower s)
  end.

Definition sampleTask (id title : string) (st : TaskStatus) (prio : Z)
    (deps : list string) : Task.t :=
  Task.mk id title "" st prio deps None None None 0
    (if decide (st = in_progress) then Some 1 else None) None.

Definition sampleWorker (id taskId : string) (st : WorkerStatus) : Worker.t :=
  Worker.mk id 0 st (Some taskId) [] [] 1 None.

Definition sampleRun (id : string) (st : RunStatus) (tasks : list Task.t)
    (workers : list Worker.t) (maxWorkers : Z) (completedAt : option Z) : Run.t :=
  Run.mk id "goal" "/tmp/target" st "" tasks [] workers maxWorkers 0
    completedAt None.

Definition storeOf (run : Run.t) (aborted : bool) (active : gset string)
    : Store.t :=
  Store.mk {[Run.id run := run]} {[Run.id run := aborted]}
    (Env.mk EventBus.empty 100 active ∅).

Definition pipelineOf (run : Run.t) (queue : list TaskRef.t) : Pipeline.t :=
  Pipeline.mk run false ∅ queue false (Env.mk EventBus.empty 100 ∅ ∅).



(** A run in full swing: one task being worked on, one waiting. *)
Definition busyRun : Run.t :=
  sampleRun "r3" executing
    [sampleTask "t1" "T1" in_progress 1 []; sampleTask "t2" "T2" pending 2 ["t1"]]
    [sampleWorker "w1" "t1" running] 3 None.

(** The saved record of [busyRun], and one in the legacy shape. *)
Definition busyRaw : RawRun.t :=
  RawRun.mk "r3" "goal" "/tmp/target" executing None
    (Some [sampleTask "t1" "T1" in_progress 1 [];
           sampleTask "t2" "T2" pending 2 ["t1"]])
    (Some []) (Some "")
    (Some [RawWorker.mk "w1" 0 running (Some "t1") [] None 1 None])
    3 0 None None.

Definition legacyRaw : RawRun.t :=
  RawRun.mk "r4" "goal" "/tmp/target" judging
    (Some [RawCycle.mk
             (Some (RawPlan.mk (Some "analysis")
                      (Some [sampleTask "t1" "T1" in_progress 1 []])))
             (Some "looks good") true None])
    None None None None 0 0 None None.

(** Two ready tasks, the second with the smaller priority value, and a
    single worker slot. *)
Definition contendedRun : Run.t :=
  sampleRun "r5" executing
    [sampleTask "a" "A" pending 5 []; sampleTask "b" "B" pending 1 []] [] 1 None.

(** A run whose first task has just been completed by its worker. *)
Definition judgedRun : Run.t :=
  sampleRun "r6" executing
    [sampleTask "t1" "T1" completed 1 []; sampleTask "t2" "T2" pending 2 []]
    [sampleWorker "w1" "t1" worker_completed] 3 None.

Definition t1Ref : TaskRef.t := TaskRef.mk 0 "t1" "T1".

(** A judge that declares the goal complete, and one that fails. *)
Definition judgeDone (_ : Run.t) (_ : TaskRef.t) : JudgeOutcome :=
  Judged (JudgeResult.mk "all done" true []).


(** Two follow-ups of one judgement: the second names the first, in another
    case, and a title that no task bears. *)
Definition followUps : list NewTask.t :=
  [NewTask.mk "Build" "compile it" (Some 1) None;
   NewTask.mk "Test" "run the tests" None (Some ["BUILD"; "Deploy"])].

Definition contended : Pipeline.t := pipelineOf contendedRun [].

Definition judgedPipeline : Pipeline.t := pipelineOf judgedRun [].

Definition busyStore : Store.t := storeOf busyRun false {["w1"]}.

Definition savedFiles : list SavedFile :=
  [Parsed busyRaw; Unreadable; Parsed legacyRaw].

(** A task that waits for another, before and after that one is done. *)
Definition chainWaiting : Pipeline.t :=
  pipelineOf
    (sampleRun "r7" executing
       [sampleTask "t1" "T1" pending 2 []; sampleTask "t2" "T2" pending 1 ["t1"]]
       [] 3 None) [].

Definition chainReleased : Pipeline.t :=
  pipelineOf
    (sampleRun "r7" executing
       [sampleTask "t1" "T1" completed 2 []; sampleTask "t2" "T2" pending 1 ["t1"]]
       [] 3 None) [].

(** ** Predicates used in the statements *)

(** The bounds the worker code maintains on a worker record. *)
Definition buffersBounded (w : Worker.t) : Prop :=
  (length (Worker.logs w) ≤ 500)%nat ∧ (length (Worker.activity w) ≤ 200)%nat.

(** No phantom in-flight state. *)
Definition reconciled (run : Run.t) : Prop :=
(Run.status run ∉ [planning; executing; judging])
  ∧ Forall (λ w, Worker.status w ≠ running) (Run.workers run)
  ∧ Forall (λ t, Task.status t ≠ in_progress) (Run.tasks run).

(** The tasks and workers a saved record holds: for a legacy record the
    tasks are those of the plans of its cycles, in order. *)
Definition storedTasks (raw : RawRun.t) : list Task.t :=
  match RawRun.cycles raw, RawRun.tasks raw with
  | Some cycles, None =>
      cycles ≫= λ cycle, default [] (RawCycle.plan cycle ≫= RawPlan.tasks)
  | _, _ => default [] (RawRun.tasks raw)
  end.

Definition storedWorkers (raw : RawRun.t) : list Worker.t :=
  ofRawWorker <$> default [] (RawRun.workers raw).

(** How a loaded run relates to what was stored for it. *)
Definition reconciledFrom (now : Z) (raw : RawRun.t) (run : Run.t) : Prop :=
  Run.id run = RawRun.id raw
  ∧ Run.status run
    = (if isActive (RawRun.status raw) then paused else RawRun.status raw)
  ∧ Run.workers run = failRunning now <$> storedWorkers raw
  ∧ Run.tasks run = rollbackTask <$> storedTasks raw.

(** The run [stopRun] leaves behind. *)
Definition stoppedAt (now : Z) (run : Run.t) : Run.t :=
  Run.set_completedAt (Some now)
    (Run.set_status stopped
       (Run.set_tasks (rollbackTask <$> Run.tasks run)
          (Run.set_workers (failRunning now <$> Run.workers run) run))).

(** A task status from which the scheduler never moves a task again. *)
Definition terminal (s : TaskStatus) : Prop :=
  s = completed ∨ s = failed.

(** The status of the task at position [ti] of run [runId]. *)
Definition taskStatusAt (runId : string) (ti : nat) (s : Store.t)
    : option TaskStatus :=
  getRun runId s ≫= λ run, Task.status <$> Run.tasks run !! ti.

(** The status [spawnWorker]'s completion code writes to the task. *)
Definition outcomeStatus (o : AgentOutcome) : TaskStatus :=
  match o with
  | Resolved _ => completed
  | Rejected _ => failed
  end.

(** What the loop over [result.newTasks] leaves alone. *)
Definition sameButTasks (p q : Pipeline.t) : Prop :=
  Run.judgements (Pipeline.run q) = Run.judgements (Pipeline.run p)
  ∧ Run.status (Pipeline.run q) = Run.status (Pipeline.run p)
  ∧ Run.completedAt (Pipeline.run q) = Run.completedAt (Pipeline.run p)
  ∧ Run.error (Pipeline.run q) = Run.error (Pipeline.run p)
  ∧ Pipeline.judgeQueue q = Pipeline.judgeQueue p
  ∧ Pipeline.judging q = Pipeline.judging p
  ∧ Pipeline.aborted q = Pipeline.aborted p
  ∧ (∀ ty, ty ≠ ev_task_updated → ty ≠ ev_log →
       emitted ty (Env.bus (Pipeline.env q))
       = emitted ty (Env.bus (Pipeline.env p))).

(** What holds of a task at the moment the main loop starts it: it is
    [pending] and each of its dependencies resolves, by id, to a task that
    is [completed]. *)
Definition startable (q : Pipeline.t) (ref : TaskRef.t) : Prop :=
  ∃ t, Run.tasks (Pipeline.run q) !! TaskRef.index ref = Some t
       ∧ Task.status t = pending
       ∧ Forall
           (λ depId,
              ∃ dep,
                List.find (λ d, bool_decide (Task.id d = depId))
                  (Run.tasks (Pipeline.run q)) = Some dep
                ∧ Task.status dep = completed)
           (Task.dependencies t).

(** The run with the priorities of its tasks replaced. *)
Definition reprioritised (f : Task.t → Z) (run : Run.t) : Run.t :=
  Run.set_tasks
    ((λ t, Task.mk (Task.id t) (Task.title t) (Task.description t)
             (Task.status t) (f t) (Task.dependencies t) (Task.result t)
             (Task.error t) (Task.spawnedBy t) (Task.createdAt t)
             (Task.startedAt t) (Task.completedAt t)) <$> Run.tasks run)
    run.

(** What the loop may still start: distinct tasks, each of them ready in the
    current state. *)
Definition allReady (p : Pipeline.t) (refs : list TaskRef.t) : Prop :=
  NoDup (TaskRef.index <$> refs)
  ∧ ∀ ref, ref ∈ refs →
      ∃ t, Run.tasks (Pipeline.run p) !! TaskRef.index ref = Some t
           ∧ isReady (Run.tasks (Pipeline.run p)) t = true.

(** ** Further predicates and runs of calls *)

(** A sequence of [eventBus.emit(type, data)] calls, each with the time at
    which it is made, and the event each call builds. *)
Definition emitAll (calls : list (Z * EventType * EventData))
    (b : EventBus.t) : EventBus.t :=
  foldl (λ b c, EventBus.emit c.1.1 c.1.2 c.2 b) b calls.

Definition eventOf (c : Z * EventType * EventData) : Event.t :=
  Event.mk c.1.2 c.2 c.1.1.

(** [killAllWorkers()]: [killWorker] on every key of [activeWorkers]. *)
Definition killAllWorkers (e : Env.t) : Env.t :=
  killWorkers (elements (Env.activeWorkers e)) e.

(** The head of [startRun]: the two guards, then
    [runAborts.set(runId, new AbortController())].  The controller is the
    one [executePipeline] is handed. *)
Definition startRun_begin (runId : string) (s : Store.t) : Result Store.t :=
  match Store.runs s !! runId with
  | None => Throw ("Run " +:+ runId +:+ " not found")
  | Some run =>
      match Run.status run with
      | idle | paused =>
          Ok (Store.mk (Store.runs s) (<[runId := false]> (Store.runAborts s))
                (Store.env s))
      | _ =>
          Throw ("Run " +:+ runId +:+ " is " +:+ runStatusName (Run.status run)
                 +:+ ", can only start idle or paused runs")
      end
  end.


(** [resumeRun] up to its call of [startRun]. *)
Definition resumeRun_reopen (now : Z) (runId : string) (s : Store.t)
    : Result Store.t :=
  match Store.runs s !! runId with
  | None => Throw ("Run " +:+ runId +:+ " not found")
  | Some run =>
      match Run.status run with
      | paused | stopped =>
          let run :=
            if decide (Run.status run = stopped)
            then Run.set_completedAt None (Run.set_status paused run)
            else run in
          Ok (Store.mk (<[runId := run]> (Store.runs s)) (Store.runAborts s)
                (Env.log now info "system" "Resuming run..." (Store.env s)))
      | _ =>
          Throw ("Run " +:+ runId +:+ " is " +:+ runStatusName (Run.status run)
                 +:+ ", can only resume paused or stopped runs")
      end
  end.

(** [resumeRun(runId)] with the head of the [startRun] it launches; what
    [startRun] throws is caught and written to the console. *)
Definition resumeRun (now : Z) (runId : string) (s : Store.t)
    : Result Store.t :=
  match resumeRun_reopen now runId s with
  | Ok s1 =>
      match startRun_begin runId s1 with
      | Ok s2 => Ok s2
      | Throw _ => Ok s1
      end
  | Throw m => Throw m
  end.



(** The tail of [createInitialPlan]: the task objects built from the tasks
    of the parsed plan, the [i]-th with the [i]-th identifier drawn ... *)
Definition plannedTask (now : Z) (c i : nat) (t : NewTask.t) : Task.t :=
  Task.mk (nanoid (c + i)) (NewTask.title t) (NewTask.description t) pending
    (num_or (NewTask.priority t) (Z.of_nat i + 1))
    (default [] (NewTask.dependencies t)) None None None now None None.

(** ... and "Resolve dependency titles to IDs", the loop that replaces the
    titles of each task by ids found in the same array.  The lookups read
    titles and ids only, which the loop does not change. *)
Definition planTasks (now : Z) (c : nat) (parsed : list NewTask.t)
    : list Task.t :=
  let tasks := imap (plannedTask now c) parsed in
  (λ task,
     Task.set_dependencies
       (resolveDependencies tasks (Task.dependencies task)) task) <$> tasks.

(** The planning phase of [executePipeline] once [createInitialPlan] has
    returned: [run.analysis = analysis; run.tasks.push(...tasks)]. *)
Definition pushPlan (analysis : string) (tasks : list Task.t) (run : Run.t)
    : Run.t :=
  Run.set_tasks (Run.tasks run ++ tasks) (Run.set_analysis analysis run).

(** Every dependency of every task is the id of a task of the list. *)
Definition depsClosed (tasks : list Task.t) : Prop :=
  ∀ t, t ∈ tasks → ∀ d, d ∈ Task.dependencies t → d ∈ Task.id <$> tasks.

(** What the dead-end branch writes to a task it gives up on. *)
Definition blockTask (t : Task.t) : Task.t :=
  Task.set_error (Some "Blocked by failed dependencies")
    (Task.set_status cancelled t).

(** One turn of [while (true)] in [executePipeline], from its two exit tests
    to the point where it waits; the boolean is a [break]. *)
Definition loopIteration (now : Z) (p : Pipeline.t) : Pipeline.t * bool :=
  if Pipeline.aborted p then (p, true)
  else if decide (Run.status (Pipeline.run p) = run_completed) then (p, true)
  else handleBlocked now (spawnReady now p).

(** "Clean up completed entries from runningTasks", after [Promise.race]. *)
Definition cleanupRunning (p : Pipeline.t) : Pipeline.t :=
  let settled taskId :=
    match List.find (λ t, bool_decide (Task.id t = taskId))
            (Run.tasks (Pipeline.run p)) with
    | Some task =>
        bool_decide (Task.status task = completed)
        || bool_decide (Task.status task = failed)
    | None => false
    end in
  Pipeline.set_runningTasks
    (filter (λ taskId, settled taskId = false) (Pipeline.runningTasks p)) p.

(** A plan whose two tasks name each other as dependencies, and the run
    that executes it. *)
Definition cyclicPlan : list NewTask.t :=
  [NewTask.mk "Build" "compile it" None (Some ["Test"]);
   NewTask.mk "Test" "run the tests" None (Some ["Build"])].

Definition cyclicRun : Run.t :=
  sampleRun "r8" executing
    [Task.mk "id0" "Build" "compile it" pending 1 ["id1"]
       None None None 0 None None;
     Task.mk "id1" "Test" "run the tests" pending 2 ["id0"]
       None None None 0 None None]
    [] 3 None.

Definition stalled : Pipeline.t := pipelineOf cyclicRun [].

(** A pending task behind a failed one, and one behind that. *)
Definition deadEnd : Pipeline.t :=
  pipelineOf
    (sampleRun "r9" executing
       [sampleTask "t1" "T1" failed 1 []; sampleTask "t2" "T2" pending 2 ["t1"];
        sampleTask "t3" "T3" pending 3 ["t2"]]
       [sampleWorker "w1" "t1" worker_failed] 3 None) [].

(** What [JSON.parse] reads back from the text [JSON.stringify] makes of
    the object [saveRun] writes: a record in the current shape, with every
    field of the run, the [undefined] ones left out. *)
Definition writtenWorker (w : Worker.t) : RawWorker.t :=
  RawWorker.mk (Worker.id w) (Worker.port w) (Worker.status w)
    (Worker.taskId w) (Worker.logs w) (Some (Worker.activity w))
    (Worker.startedAt w) (Worker.completedAt w).

Definition writtenRun (data : Run.t) : RawRun.t :=
  RawRun.mk (Run.id data) (Run.goal data) (Run.targetDir data)
    (Run.status data) None (Some (Run.tasks data))
    (Some (Run.judgements data)) (Some (Run.analysis data))
    (Some (writtenWorker <$> Run.workers data)) (Run.maxWorkers data)
    (Run.createdAt data) (Run.completedAt data) (Run.error data).

(** The state [loadState] puts a run in. *)
Definition restoredAt (now : Z) (run : Run.t) : Run.t :=
  Run.set_tasks (rollbackTask <$> Run.tasks run)
    (Run.set_workers (failRunning now <$> Run.workers run)
       (Run.set_status
          (if isActive (Run.status run) then paused else Run.status run) run)).


(** [busyRun] in the hands of its pipeline: [t1] is in the map of running
    tasks, its worker is active. *)
Definition busyPipeline : Pipeline.t :=
  Pipeline.mk busyRun false {["t1"]} [] false
    (Env.mk EventBus.empty 100 {["w1"]} ∅).



(** *** HTTP routes ([server.ts])

    A response is its status code with, for an error, the message of the
    JSON body. *)
Inductive Response :=
| Replied (status : Z)
| RepliedRun (status : Z) (run : Run.t)
| RepliedError (status : Z) (message : string).

(** The handler of the routes [POST /api/runs/:id/stop], [.../pause] and
    [.../resume] around the call [action] it awaits. *)
Definition actionRoute (action : Store.t → Result Store.t) (s : Store.t)
    : Response * Store.t :=
  match action s with
  | Ok s' => (Replied 200, s')
  | Throw msg => (RepliedError 500 msg, s)
  end.

(** [GET /api/runs/:id]. *)
Definition getRunRoute (id : string) (s : Store.t) : Response :=
  match getRun id s with
  | None => RepliedError 404 "Run not found"
  | Some run => RepliedRun 200 run
  end.

(** The planning branch of [executePipeline], which a run without pending
    tasks takes, up to its call of [createInitialPlan]. *)
Definition startPlanning (now : Z) (runId : string) (s : Store.t) : Store.t :=
  match Store.runs s !! runId with
  | None => s
  | Some run =>
      let run := Run.set_status planning run in
      let e := Env.emit now ev_run_updated (DRun run) (Store.env s) in
      let e := Env.log now info "system" "Planning tasks..." e in
      Store.mk (<[runId := run]> (Store.runs s)) (Store.runAborts s) e
  end.

(** [POST /api/runs], given [path.resolve] and [fs.existsSync].  The run is
    created and [startRun] is launched in the background; it runs up to the
    first [await] of the pipeline before the handler goes on, so the run
    object the handler then serialises is already [planning]. *)
Definition postRunsRoute (resolve : string → string) (existsSync : string → bool)
    (now : Z) (goal targetDir : option string) (maxWorkers : option Z)
    (s : Store.t) : Response * Store.t :=
  match str_or goal "", str_or targetDir "" with
  | String c g, String d t =>
      let targetDir := resolve (String d t) in
      if existsSync targetDir then
        let '(run, s) := createRun now (String c g) targetDir maxWorkers s in
        let s := match startRun_begin (Run.id run) s with
                 | Ok s' => startPlanning now (Run.id run) s'
                 | Throw _ => s
                 end in
        (RepliedRun 200 (default run (getRun (Run.id run) s)), s)
      else
        (RepliedError 400 ("Directory does not exist: " +:+ targetDir), s)
  | _, _ => (RepliedError 400 "goal and targetDir are required", s)
  end.

(** What the migration keeps of a legacy cycle: its verdict, if it has
    one, with the flag and the time the judgement gets, and the analysis of
    its plan, if it has one. *)
Definition cycleVerdict (now : Z) (cycle : RawCycle.t)
    : option (string * bool * Z) :=
  match RawCycle.judgement cycle with
  | Some (String c a) =>
      Some (String c a, negb (RawCycle.shouldContinue cycle),
            num_or (RawCycle.completedAt cycle) now)
  | _ => None
  end.

Definition cycleAnalysis (cycle : RawCycle.t) : option string :=
  match RawCycle.plan cycle ≫= RawPlan.analysis with
  | Some (String c a) => Some (String c a)
  | _ => None
  end.

(** *** The run view of the front end ([App.tsx]) *)

(** The conditions under which [RunView] renders its three buttons. *)
Definition showsPause (run : Run.t) : bool :=
  bool_decide (Run.status run ∈ [planning; executing; judging]).

Definition showsResume (run : Run.t) : bool :=
  bool_decide (Run.status run ∈ [paused; stopped]).

Definition showsStop (run : Run.t) : bool :=
  bool_decide (Run.status run ∈ [planning; executing; judging; paused]).

(** The task groups of [RunView]. *)
Definition withStatus (sts : list TaskStatus) (run : Run.t) : list Task.t :=
  List.filter (λ t, bool_decide (Task.status t ∈ sts)) (Run.tasks run).

Definition completedTasks (run : Run.t) : nat :=
  length (withStatus [completed] run).

Definition runningTasks (run : Run.t) : list Task.t :=
  withStatus [in_progress] run.

Definition pendingTasks (run : Run.t) : list Task.t :=
  withStatus [pending] run.

Definition finishedTasks (run : Run.t) : list Task.t :=
  withStatus [completed; failed; cancelled] run.

(** [formatDuration(ms)], for a whole number of milliseconds; [%] is the
    remainder that takes the sign of the dividend. *)
Definition formatDuration (ms : Z) : string :=
  let s := ms / 1000 in
  if decide (s < 60) then pretty s +:+ "s"
  else
    let m := s / 60 in
    let rem := Z.rem s 60 in
    if decide (m < 60) then pretty m +:+ "m " +:+ pretty rem +:+ "s"
    else
      let h := m / 60 in
      pretty h +:+ "h " +:+ pretty (Z.rem m 60) +:+ "m".

(** [elapsed] in the header of [RunView]. *)
Definition elapsed (now : Z) (run : Run.t) : string :=
  match Run.completedAt run with
  | Some (Zpos p) => formatDuration (Zpos p - Run.createdAt run)
  | Some (Zneg p) => formatDuration (Zneg p - Run.createdAt run)
  | _ => formatDuration (now - Run.createdAt run)
  end.

(** * Properties *)

(** ** Bounded worker buffers *)

Lemma slice_last_length {A} (n : nat) (l : list A) :
  (length (slice_last n l) ≤ n)%nat.
Proof. unfold slice_last. rewrite length_drop. lia. Qed.

Lemma slice_last_short {A} (n : nat) (l : list A) :
  (length l ≤ n)%nat → slice_last n l = l.
Proof.
  intros H. unfold slice_last.
  replace (length l - n)%nat with 0%nat by lia. reflexivity.
Qed.

Lemma addLog_logs now lvl m w b :
  (length (Worker.logs (addLog now lvl m w b).1) ≤ 500)%nat.
Proof.
  unfold addLog; cbn. case_decide as H.
  - apply slice_last_length.
  - lia.
Qed.

(** What is kept is the most recent part of the log, the new entry
    included. *)
Lemma addLog_latest now lvl m w b :
  Worker.logs (addLog now lvl m w b).1
  = slice_last 500
      (Worker.logs w
       ++ [LogEntry.mk now lvl ("worker-" +:+ String.substring 0 6 (Worker.id w))
             m]).
Proof.
  unfold addLog; cbn. case_decide as H; [reflexivity|].
  symmetry. apply slice_last_short. lia.
Qed.

Lemma addLog_activity now lvl m w b :
  Worker.activity (addLog now lvl m w b).1 = Worker.activity w.
Proof. reflexivity. Qed.


(** Name the result of the [addLog] call in the goal, with what is known
    of its [logs] and [activity]. *)
Ltac case_addLog Hlogs Hactivity :=
  match goal with
  | |- context [addLog ?n ?l ?m ?w ?b] =>
      pose proof (addLog_logs n l m w b) as Hlogs;
      pose proof (addLog_activity n l m w b) as Hactivity;
      destruct (addLog n l m w b)
  end.

Lemma addActivity_activity now ty m w b :
  (length (Worker.activity (addActivity now ty m w b).1) ≤ 200)%nat.
Proof.
  unfold addActivity. rewrite addLog_activity; cbn. case_decide as H.
  - apply slice_last_length.
  - lia.
Qed.

Lemma addActivity_latest now ty m w b :
  Worker.activity (addActivity now ty m w b).1
  = slice_last 200 (Worker.activity w ++ [WorkerActivity.mk ty m now]).
Proof.
  unfold addActivity. rewrite addLog_activity; cbn.
  case_decide as H; [reflexivity|].
  symmetry. apply slice_last_short. lia.
Qed.

Lemma slice_last_suffix {A} (n : nat) (l : list A) : slice_last n l `suffix_of` l.
Proof. apply suffix_drop. Qed.

Lemma applyOp_bounded op s : buffersBounded s.1 → buffersBounded (applyOp op s).1.
Proof.
  intros [Hl Ha]. destruct op as [now lvl m | now ty m]; cbn [applyOp]; split.
  - apply addLog_logs.
  - rewrite addLog_activity. exact Ha.
  - apply addLog_logs.
  - apply addActivity_activity.
Qed.

Lemma runOps_bounded ops s : buffersBounded s.1 → buffersBounded (runOps ops s).1.
Proof.
  revert s. induction ops as [|op ops IH]; intros s H; [exact H|].
  cbn. apply IH, applyOp_bounded, H.
Qed.

Lemma spawnWorker_bounded now task e : buffersBounded (spawnWorker now task e).1.
Proof.
  unfold spawnWorker, freshId; cbn -[addLog]. case_addLog Hl Ha.
  cbn in *. split; [exact Hl | rewrite Ha; cbn; lia].
Qed.

Lemma settle_bounded now o t w b :
  buffersBounded w → buffersBounded (settle now o t w b).1.2.
Proof.
  intros [Hl Ha]. unfold settle.
  destruct o as [res|msg].
  - case_addLog Hl' Ha'. cbn in *. split; [exact Hl' | rewrite Ha'; exact Ha].
  - case_addLog Hl' Ha'. cbn in *. split; [exact Hl' | rewrite Ha'; exact Ha].
Qed.

Lemma saveRun_truncates run :
  Forall (λ w, (length (Worker.logs w) ≤ 100)%nat
               ∧ (length (Worker.activity w) ≤ 100)%nat)
    (Run.workers (saveRun run)).
Proof.
  unfold saveRun; cbn. apply Forall_fmap, Forall_forall. intros w _; cbn.
  split; apply slice_last_length.
Qed.

(** C9.  A worker record is born by [spawnWorker] and from then on only
    written through [addLog] and [addActivity], by the agent loop and, at the
    end, by the completion code.  After its creation, after any sequence of
    such calls and after the completion, its [logs] hold at most 500 entries
    and its [activity] at most 200: each append keeps the last 500, resp.
    200, entries of the extended array.  The cut to 100 entries is made on
    the copy that [saveRun] writes out, only there. *)
Theorem worker_buffers_bounded now task e ops now' o t :
  let spawned := spawnWorker now task e in
  let ran := runOps ops (spawned.1, Env.bus spawned.2) in
  let settled := settle now' o t ran.1 ran.2 in
  buffersBounded spawned.1
  ∧ buffersBounded ran.1
  ∧ buffersBounded settled.1.2
  ∧ (∀ n lvl m w b,
       Worker.logs (addLog n lvl m w b).1
       = slice_last 500
           (Worker.logs w
            ++ [LogEntry.mk n lvl
                  ("worker-" +:+ String.substring 0 6 (Worker.id w)) m]))
  ∧ (∀ n ty m w b,
       Worker.activity (addActivity n ty m w b).1
       = slice_last 200 (Worker.activity w ++ [WorkerActivity.mk ty m n]))
  ∧ (∀ run, Forall (λ w, (length (Worker.logs w) ≤ 100)%nat
                         ∧ (length (Worker.activity w) ≤ 100)%nat)
              (Run.workers (saveRun run))).
Proof.
  intros spawned ran settled.
  assert (H0 : buffersBounded spawned.1) by apply spawnWorker_bounded.
  assert (H1 : buffersBounded ran.1) by (apply runOps_bounded; exact H0).
  split; [exact H0|]. split; [exact H1|].
  split; [apply (settle_bounded now' o t ran.1 ran.2 H1)|].
  split; [apply addLog_latest|]. split; [apply addActivity_latest|].
  apply saveRun_truncates.
Qed.

(** ** The worker cap of a new run *)

Lemma createRun_maxWorkers now goal dir mw s :
  Run.maxWorkers (createRun now goal dir mw s).1
  = Z.min (num_or mw 3) MAX_CONCURRENT_WORKERS.
Proof. reflexivity. Qed.

(** What [createRun] makes of its argument: the cap is at most 10; it is 3
    when the argument is absent or 0, the argument when that lies in 1..10,
    10 when it is larger, and the argument again when it is negative. *)
Lemma createRun_maxWorkers_cases now goal dir mw s :
  let m := Run.maxWorkers (createRun now goal dir mw s).1 in
  m ≤ 10
  ∧ (mw = None ∨ mw = Some 0 → m = 3)
  ∧ (∀ v, mw = Some v → 1 ≤ v ≤ 10 → m = v)
  ∧ (∀ v, mw = Some v → 10 < v → m = 10)
  ∧ (∀ v, mw = Some v → v < 0 → m = v).
Proof.
  cbn zeta. rewrite createRun_maxWorkers. unfold MAX_CONCURRENT_WORKERS, num_or.
  repeat split.
  - lia.
  - intros [-> | ->]; reflexivity.
  - intros v -> Hv. case_decide; lia.
  - intros v -> Hv. case_decide; lia.
  - intros v -> Hv. case_decide; lia.
Qed.

(** With a cap that is not positive the main loop never starts a task. *)
Lemma spawnReady_without_slots now p :
  Run.maxWorkers (Pipeline.run p) ≤ 0 → spawnReady now p = p.
Proof.
  intros H. unfold spawnReady.
  destruct (getReadyTasks (Pipeline.run p)) as [|task rest]; [reflexivity|].
  cbn. unfold mustBreak. rewrite bool_decide_eq_true_2; [reflexivity | lia].
Qed.

(** C5.  A negative request is not raised to 1: [createRun] with
    [maxWorkers = v < 0] creates a run whose [maxWorkers] is [v], below the
    interval 1..10; and a pipeline working on that run never starts a
    task. *)
Theorem createRun_keeps_negative_maxWorkers now goal dir s v :
  v < 0 →
  Run.maxWorkers (createRun now goal dir (Some v) s).1 = v
  ∧ ¬ (1 ≤ Run.maxWorkers (createRun now goal dir (Some v) s).1)
  ∧ ∀ now' p, Pipeline.run p = (createRun now goal dir (Some v) s).1 →
              spawnReady now' p = p.
Proof.
  intros Hv.
  destruct (createRun_maxWorkers_cases now goal dir (Some v) s)
    as (_ & _ & _ & _ & Hneg).
  specialize (Hneg v eq_refl Hv).
  split; [exact Hneg|]. split; [rewrite Hneg; lia|].
  intros now' p Hp. apply spawnReady_without_slots.
  rewrite Hp, Hneg. lia.
Qed.

(** ** Reconciliation on load, on stop and on pause *)

Lemma rollbackTask_status t : Task.status (rollbackTask t) ≠ in_progress.
Proof. unfold rollbackTask. case_decide; [cbn; discriminate | assumption]. Qed.

Lemma rollbackTask_in_progress t :
  Task.status t = in_progress →
  Task.status (rollbackTask t) = pending ∧ Task.startedAt (rollbackTask t) = None.
Proof. intros H. unfold rollbackTask. rewrite decide_True by exact H. split; reflexivity. Qed.

Lemma rollbackTask_other t : Task.status t ≠ in_progress → rollbackTask t = t.
Proof. intros H. unfold rollbackTask. rewrite decide_False by exact H. reflexivity. Qed.


Lemma failRunning_status now w : Worker.status (failRunning now w) ≠ running.
Proof. unfold failRunning. case_decide; [cbn; discriminate | assumption]. Qed.

Lemma failRunning_running now w :
  Worker.status w = running →
  Worker.status (failRunning now w) = worker_failed
  ∧ Worker.completedAt (failRunning now w) = Some now.
Proof. intros H. unfold failRunning. rewrite decide_True by exact H. split; reflexivity. Qed.

Lemma failRunning_other now w : Worker.status w ≠ running → failRunning now w = w.
Proof. intros H. unfold failRunning. rewrite decide_False by exact H. reflexivity. Qed.

Lemma migrateCycle_tasks now acc cycle :
  (migrateCycle now acc cycle).1.1.1
  = acc.1.1.1 ++ default [] (RawCycle.plan cycle ≫= RawPlan.tasks).
Proof.
  destruct acc as [[[ts js] an] e]. unfold migrateCycle.
  destruct (RawCycle.judgement cycle) as [[|c a]|];
    destruct (RawCycle.plan cycle ≫= RawPlan.tasks); cbn;
    rewrite ?app_nil_r; reflexivity.
Qed.

Lemma migrateCycles_tasks now cycles acc :
  (foldl (migrateCycle now) acc cycles).1.1.1
  = acc.1.1.1
    ++ (cycles ≫= λ cycle, default [] (RawCycle.plan cycle ≫= RawPlan.tasks)).
Proof.
  revert acc. induction cycles as [|cycle cycles IH]; intros acc.
  - cbn. rewrite app_nil_r. reflexivity.
  - cbn [foldl]. rewrite IH, migrateCycle_tasks. cbn.
    rewrite <- app_assoc. reflexivity.
Qed.

Lemma reconciledFrom_reconciled now raw run :
  reconciledFrom now raw run → reconciled run.
Proof.
  intros (_ & Hs & Hw & Ht). unfold reconciled. rewrite Hs, Hw, Ht.
  split; [|split].
  - destruct (RawRun.status raw); cbn;
      repeat (apply not_elem_of_cons; split; [discriminate|]);
      apply not_elem_of_nil.
  - apply Forall_fmap, Forall_forall. intros w _. apply failRunning_status.
  - apply Forall_fmap, Forall_forall. intros t _. apply rollbackTask_status.
Qed.

Lemma loadRun_reconciledFrom now raw e run e' :
  loadRun now raw e = (Some run, e') → reconciledFrom now raw run.
Proof.
  unfold loadRun, reconciledFrom, storedTasks, storedWorkers.
  destruct (RawRun.cycles raw) as [cycles|], (RawRun.tasks raw) as [ts|];
    cbn -[migrateCycle].
  2: { pose proof (migrateCycles_tasks now cycles ([], [], "", e)) as Hm.
       destruct (foldl _ _ cycles) as [[[allTasks allJ] an] e0].
       cbn in Hm. subst allTasks.
       intros [= <- <-]. cbn. repeat split.
       rewrite <- list_fmap_compose. reflexivity. }
  all: destruct (RawRun.workers raw) as [ws|]; [|discriminate];
    intros [= <- <-]; cbn; repeat split;
    rewrite <- list_fmap_compose; reflexivity.
Qed.

Lemma loadRun_reconciled now raw e run e' :
  loadRun now raw e = (Some run, e') →
  reconciled run ∧ reconciledFrom now raw run.
Proof.
  intros H. apply loadRun_reconciledFrom in H.
  split; [eapply reconciledFrom_reconciled|]; exact H.
Qed.

Lemma loadState_lookup now files s id run :
  Store.runs (loadState now files s) !! id = Some run →
  Store.runs s !! id = Some run
  ∨ ∃ raw e e', Parsed raw ∈ files ∧ loadRun now raw e = (Some run, e').
Proof.
  revert s. induction files as [|file files IH]; intros s H; [left; exact H|].
  cbn in H. apply IH in H as [H | (raw & e & e' & Hin & Hl)].
  - destruct file as [|raw]; cbn in H; [left; exact H|].
    destruct (loadRun now raw (Store.env s)) as [[r|] e'] eqn:Hl; cbn in H.
    + destruct (decide (Run.id r = id)) as [<-|Hne].
      * rewrite lookup_insert_eq in H. injection H as <-.
        right. exists raw, (Store.env s), e'. split; [left | exact Hl].
      * rewrite lookup_insert_ne in H by exact Hne. left; exact H.
    + left; exact H.
  - right. exists raw, e, e'. split; [right; exact Hin | exact Hl].
Qed.

(** C3.  After [loadState] on a cold start (no run in memory), every run in
    memory was read from one of the files and has no in-flight state left:
    its status is [paused] if it was stored as [planning], [executing] or
    [judging] (its stored status otherwise), no worker is [running] and no
    task is [in_progress].  Its workers and tasks are the stored ones, one
    for one, where a stored [running] worker is now [failed] with
    [completedAt = now], a stored [in_progress] task is [pending] with
    [startedAt] cleared, and the others are as stored. *)
Theorem loadState_reconciles now files id run :
  Store.runs (loadState now files Store.empty) !! id = Some run →
  reconciled run
  ∧ (∃ raw, Parsed raw ∈ files ∧ reconciledFrom now raw run)
  ∧ (∀ w, Worker.status w = running →
          Worker.status (failRunning now w) = worker_failed
          ∧ Worker.completedAt (failRunning now w) = Some now)
  ∧ (∀ w, Worker.status w ≠ running → failRunning now w = w)
  ∧ (∀ t, Task.status t = in_progress →
          Task.status (rollbackTask t) = pending
          ∧ Task.startedAt (rollbackTask t) = None)
  ∧ (∀ t, Task.status t ≠ in_progress → rollbackTask t = t).
Proof.
  intros H. apply loadState_lookup in H as [H | (raw & e & e' & Hin & Hl)].
  - cbn in H. rewrite lookup_empty in H. discriminate.
  - apply loadRun_reconciled in Hl as [Hr Hf].
    split; [exact Hr|]. split; [exists raw; split; assumption|].
    split; [apply failRunning_running|]. split; [apply failRunning_other|].
    split; [apply rollbackTask_in_progress | apply rollbackTask_other].
Qed.

(** ** Stopping a run *)

Lemma stopRun_unknown now runId s :
  Store.runs s !! runId = None →
  stopRun now runId s = Throw ("Run " +:+ runId +:+ " not found").
Proof. intros H. unfold stopRun, stopRun_begin. rewrite H. reflexivity. Qed.




(** ** A worker that settles around a pause or a stop *)

Lemma getRun_pauseRun_finish now runId s :
  getRun runId (pauseRun_finish now runId s)
  = (λ run, Run.set_tasks (rollbackTask <$> Run.tasks run) run)
      <$> getRun runId s.
Proof.
  unfold pauseRun_finish, getRun.
  destruct (Store.runs s !! runId) as [run|] eqn:H; cbn.
  - apply lookup_insert_eq.
  - exact H.
Qed.

Lemma getRun_stopRun_finish now runId s :
  getRun runId (stopRun_finish now runId s) = stoppedAt now <$> getRun runId s.
Proof.
  unfold stopRun_finish, getRun.
  destruct (Store.runs s !! runId) as [run|] eqn:H; cbn.
  - apply lookup_insert_eq.
  - exact H.
Qed.

Lemma getRun_workerSettles now o runId ti wi s :
  getRun runId (workerSettles now o runId ti wi s)
  = (λ run, (settleIn now o ti wi run (Env.bus (Store.env s))).1)
      <$> getRun runId s.
Proof.
  unfold workerSettles, getRun.
  destruct (Store.runs s !! runId) as [run|] eqn:H; cbn.
  - destruct (settleIn now o ti wi run (Env.bus (Store.env s))) as [r b]; cbn.
    apply lookup_insert_eq.
  - exact H.
Qed.

Lemma pauseRun_begin_active runId s run :
  Store.runs s !! runId = Some run → isActive (Run.status run) = true →
  ∃ s0, pauseRun_begin runId s = Ok s0
        ∧ getRun runId s0 = Some (Run.set_status paused run).
Proof.
  intros H Ha. unfold pauseRun_begin. rewrite H, Ha.
  eexists. split; [reflexivity|]. unfold getRun; cbn. apply lookup_insert_eq.
Qed.

Lemma stopRun_begin_known runId s run :
  Store.runs s !! runId = Some run →
  ∃ s0, stopRun_begin runId s = Ok s0 ∧ getRun runId s0 = Some run.
Proof.
  intros H. unfold stopRun_begin. rewrite H.
  eexists. split; [reflexivity | exact H].
Qed.

Lemma settle_task_status now o t w b :
  Task.status (settle now o t w b).1.1 = outcomeStatus o.
Proof.
  unfold settle. destruct o as [res|msg].
  - destruct (addLog _ _ _ _ _) as [w' b']. reflexivity.
  - destruct (addLog _ _ _ _ _) as [w' b']. reflexivity.
Qed.

Lemma settle_task_error now msg t w b :
  Task.error (settle now (Rejected msg) t w b).1.1 = Some msg.
Proof. unfold settle. destruct (addLog _ _ _ _ _) as [w' b']. reflexivity. Qed.

(** Once the worker has settled, the task carries the outcome's status, in
    whatever state the task and the worker were before. *)
Lemma settleIn_task_status now o ti wi run b t w :
  Run.tasks run !! ti = Some t → Run.workers run !! wi = Some w →
  Task.status <$> Run.tasks (settleIn now o ti wi run b).1 !! ti
  = Some (outcomeStatus o).
Proof.
  intros Ht Hw. unfold settleIn. rewrite Ht, Hw.
  pose proof (settle_task_status now o t w b) as Hs.
  destruct (settle now o t w b) as [[t' w'] b']; cbn in *.
  rewrite list_lookup_insert_eq by (eapply lookup_lt_Some; exact Ht).
  cbn. rewrite Hs. reflexivity.
Qed.

Lemma outcomeStatus_terminal o : terminal (outcomeStatus o).
Proof. destruct o; [left | right]; reflexivity. Qed.

Lemma rollbackTask_terminal t :
  terminal (Task.status t) → rollbackTask t = t.
Proof.
  intros [H | H]; apply rollbackTask_other; rewrite H; discriminate.
Qed.

(** C6.  Take a run with a task [in_progress] and its worker.  Right after
    [pauseRun] (or [stopRun]) the task is [pending]; but the worker's
    completion code, which runs once the cancelled agent loop has settled,
    writes its own status to the same task: [failed] when the loop was
    rejected, [completed] when it had resolved.  Whether that code runs
    after [pauseRun] has returned or while it awaits [killWorkers], the task
    ends with the status of the outcome, not [pending]. *)
Theorem interrupted_task_is_overwritten
    now now' o runId s run ti wi task worker :
  Store.runs s !! runId = Some run →
  isActive (Run.status run) = true →
  Run.tasks run !! ti = Some task →
  Task.status task = in_progress →
  Run.workers run !! wi = Some worker →
  (∃ s1, pauseRun now runId s = Ok s1
         ∧ taskStatusAt runId ti s1 = Some pending
         ∧ taskStatusAt runId ti (workerSettles now' o runId ti wi s1)
           = Some (outcomeStatus o))
  ∧ (∃ s0, pauseRun_begin runId s = Ok s0
           ∧ taskStatusAt runId ti
               (pauseRun_finish now runId (workerSettles now' o runId ti wi s0))
             = Some (outcomeStatus o))
  ∧ (∃ s1, stopRun now runId s = Ok s1
           ∧ taskStatusAt runId ti s1 = Some pending
           ∧ taskStatusAt runId ti (workerSettles now' o runId ti wi s1)
             = Some (outcomeStatus o))
  ∧ (∃ s0, stopRun_begin runId s = Ok s0
           ∧ taskStatusAt runId ti
               (stopRun_finish now runId (workerSettles now' o runId ti wi s0))
             = Some (outcomeStatus o)).
Proof.
  intros Hrun Hact Ht Hst Hw.
  destruct (pauseRun_begin_active runId s run Hrun Hact) as (p0 & Hp0 & Hg0).
  destruct (stopRun_begin_known runId s run Hrun) as (q0 & Hq0 & Hh0).
  assert (Hroll : Task.status (rollbackTask task) = pending)
    by (apply rollbackTask_in_progress, Hst).
  split; [|split; [|split]].
  - exists (pauseRun_finish now runId p0). split; [|split].
    + unfold pauseRun. rewrite Hp0. reflexivity.
    + unfold taskStatusAt. rewrite getRun_pauseRun_finish, Hg0; cbn.
      rewrite list_lookup_fmap, Ht; cbn. rewrite Hroll. reflexivity.
    + unfold taskStatusAt.
      rewrite getRun_workerSettles, getRun_pauseRun_finish, Hg0; cbn.
      eapply settleIn_task_status; cbn.
      * rewrite list_lookup_fmap, Ht. reflexivity.
      * exact Hw.
  - exists p0. split; [exact Hp0|]. unfold taskStatusAt.
    rewrite getRun_pauseRun_finish, getRun_workerSettles, Hg0; cbn.
    rewrite list_lookup_fmap.
    pose proof (settleIn_task_status now' o ti wi (Run.set_status paused run)
                  (Env.bus (Store.env p0)) task worker Ht Hw) as Hs.
    destruct (Run.tasks (settleIn _ _ _ _ _ _).1 !! ti) as [t'|];
      [|discriminate].
    cbn in *. injection Hs as Hs.
    rewrite rollbackTask_terminal
      by (rewrite Hs; apply outcomeStatus_terminal).
    rewrite Hs. reflexivity.
  - exists (stopRun_finish now runId q0). split; [|split].
    + unfold stopRun. rewrite Hq0. reflexivity.
    + unfold taskStatusAt. rewrite getRun_stopRun_finish, Hh0; cbn.
      rewrite list_lookup_fmap, Ht; cbn. rewrite Hroll. reflexivity.
    + unfold taskStatusAt.
      rewrite getRun_workerSettles, getRun_stopRun_finish, Hh0; cbn.
      eapply settleIn_task_status; cbn.
      * rewrite list_lookup_fmap, Ht. reflexivity.
      * rewrite list_lookup_fmap, Hw. reflexivity.
  - exists q0. split; [exact Hq0|]. unfold taskStatusAt.
    rewrite getRun_stopRun_finish, getRun_workerSettles, Hh0; cbn.
    rewrite list_lookup_fmap.
    pose proof (settleIn_task_status now' o ti wi run
                  (Env.bus (Store.env q0)) task worker Ht Hw) as Hs.
    destruct (Run.tasks (settleIn _ _ _ _ _ _).1 !! ti) as [t'|];
      [|discriminate].
    cbn in *. injection Hs as Hs.
    rewrite rollbackTask_terminal
      by (rewrite Hs; apply outcomeStatus_terminal).
    rewrite Hs. reflexivity.
Qed.

(** ** The judge queue *)

Lemma emitted_emit ty now ty' d b :
  emitted ty (EventBus.emit now ty' d b)
  = emitted ty b ++ (if decide (ty' = ty) then [d] else []).
Proof.
  unfold emitted, EventBus.emit; cbn.
  rewrite List.filter_app, fmap_app; cbn.
  destruct (decide (ty' = ty)) as [->|Hne].
  - rewrite bool_decide_eq_true_2 by reflexivity. reflexivity.
  - rewrite bool_decide_eq_false_2 by exact Hne. reflexivity.
Qed.

Lemma emitted_emit_other ty now ty' d b :
  ty' ≠ ty → emitted ty (EventBus.emit now ty' d b) = emitted ty b.
Proof.
  intros H. rewrite emitted_emit, decide_False by exact H. apply app_nil_r.
Qed.

Lemma cancelIfPending_pending t :
  Task.status t = pending → Task.status (cancelIfPending t) = cancelled.
Proof. intros H. unfold cancelIfPending. rewrite decide_True by exact H. reflexivity. Qed.

Lemma cancelIfPending_other t :
  Task.status t ≠ pending → cancelIfPending t = t.
Proof. intros H. unfold cancelIfPending. rewrite decide_False by exact H. reflexivity. Qed.

Lemma cancelIfPending_in_progress t :
  Task.status (cancelIfPending t) = in_progress → Task.status t = in_progress.
Proof. unfold cancelIfPending. case_decide; [discriminate | trivial]. Qed.

Lemma cancelPending_emitted ty now p :
  ty ≠ ev_task_updated →
  emitted ty (Env.bus (Pipeline.env (cancelPending now p)))
  = emitted ty (Env.bus (Pipeline.env p)).
Proof.
  intros Hty. unfold cancelPending; cbn.
  generalize (Pipeline.env p) as e.
  induction (Run.tasks (Pipeline.run p)) as [|t ts IH]; intros e; [reflexivity|].
  cbn. rewrite IH. case_decide; [|reflexivity].
  cbn. apply emitted_emit_other. congruence.
Qed.

Lemma spawnFollowUp_frame now jid acc nt :
  sameButTasks acc.1 (spawnFollowUp now jid acc nt).1.
Proof.
  destruct acc as [p ids]. unfold sameButTasks, spawnFollowUp; cbn.
  repeat split; try reflexivity.
  intros ty H1 H2. rewrite !emitted_emit_other by congruence. reflexivity.
Qed.

Lemma followUps_frame now jid nts acc :
  sameButTasks acc.1 (foldl (spawnFollowUp now jid) acc nts).1.
Proof.
  revert acc. induction nts as [|nt nts IH]; intros acc.
  - cbn. repeat split; reflexivity.
  - cbn [foldl].
    destruct (IH (spawnFollowUp now jid acc nt))
      as (Hj & Hs & Hc & He & Hq & Hg & Ha & Hb).
    destruct (spawnFollowUp_frame now jid acc nt)
      as (Hj' & Hs' & Hc' & He' & Hq' & Hg' & Ha' & Hb').
    repeat split; try (etrans; eassumption).
    intros ty H1 H2. rewrite Hb, Hb' by assumption. reflexivity.
Qed.

(** What recording a judgement does to the run, apart from the new tasks. *)
Lemma recordJudgement_frame now task result p :
  let q := recordJudgement now task result p in
  (∃ j, Run.judgements (Pipeline.run q) = Run.judgements (Pipeline.run p) ++ [j]
        ∧ Judgement.taskId j = TaskRef.id task
        ∧ Judgement.assessment j = JudgeResult.assessment result
        ∧ Judgement.goalComplete j = JudgeResult.goalComplete result)
  ∧ Run.status (Pipeline.run q) = Run.status (Pipeline.run p)
  ∧ Pipeline.judgeQueue q = Pipeline.judgeQueue p
  ∧ Pipeline.judging q = Pipeline.judging p
  ∧ emitted ev_run_completed (Env.bus (Pipeline.env q))
    = emitted ev_run_completed (Env.bus (Pipeline.env p)).
Proof.
  unfold recordJudgement. destruct (JudgeResult.newTasks result) as [|nt nts].
  - cbn. split; [eexists; split; [reflexivity|]; cbn; auto|].
    repeat split; try reflexivity.
    rewrite !emitted_emit_other by congruence. reflexivity.
  - cbn [freshId].
    match goal with |- context [foldl ?f ?acc ?l] =>
      pose proof (followUps_frame now (nanoid (Env.idCount (Pipeline.env p)))
                    l acc) as H;
      destruct (foldl f acc l) as [q ids] end.
    destruct H as (Hj & Hs & Hc & He & Hq & Hg & Ha & Hb). cbn in *.
    cbn. rewrite Hj, Hs, Hq, Hg.
    split; [eexists; split; [reflexivity|]; cbn; auto|].
    repeat split; try reflexivity.
    rewrite !emitted_emit_other by congruence.
    rewrite Hb by congruence. reflexivity.
Qed.

Lemma existsb_in_progress_false (tasks : list Task.t) :
  Forall (λ t, Task.status t ≠ in_progress) tasks →
  existsb (λ t, bool_decide (Task.status t = in_progress)) tasks = false.
Proof.
  induction 1 as [|t ts Ht _ IH]; [reflexivity|].
  cbn. rewrite bool_decide_eq_false_2 by exact Ht. exact IH.
Qed.

Lemma beginJudging_frame now task rest p0 :
  let q := beginJudging now task (Pipeline.set_judgeQueue rest p0) in
  Run.judgements (Pipeline.run q) = Run.judgements (Pipeline.run p0)
  ∧ Run.tasks (Pipeline.run q) = Run.tasks (Pipeline.run p0)
  ∧ Run.status (Pipeline.run q) = judging
  ∧ Run.error (Pipeline.run q) = Run.error (Pipeline.run p0)
  ∧ Run.completedAt (Pipeline.run q) = Run.completedAt (Pipeline.run p0)
  ∧ Pipeline.judgeQueue q = rest
  ∧ Pipeline.aborted q = Pipeline.aborted p0
  ∧ Env.idCount (Pipeline.env q) = Env.idCount (Pipeline.env p0)
  ∧ emitted ev_run_completed (Env.bus (Pipeline.env q))
    = emitted ev_run_completed (Env.bus (Pipeline.env p0)).
Proof.
  unfold beginJudging; cbn. repeat split; try reflexivity.
  rewrite !emitted_emit_other by congruence. reflexivity.
Qed.

(** C2.  An iteration of the judge queue in which the judge answers with
    [goalComplete = true]: the judgement is recorded with that flag; every
    task that is [pending] at that point, follow-ups of this very judgement
    included, becomes [cancelled] and the other tasks stay as they are; and
    if no task is [in_progress] then, the run is [completed] with
    [completedAt = now], [run:completed] is emitted with the run, and the
    loop is left at once, with the rest of the queue unprocessed. *)
Theorem goal_complete_cancels_pending now judge task rest p0 result :
  Pipeline.aborted p0 = false →
  let p := beginJudging now task (Pipeline.set_judgeQueue rest p0) in
  judge (Pipeline.run p) task = Judged result →
  JudgeResult.goalComplete result = true →
  let recorded := recordJudgement now task result p in
  let concluded := (concludeJudgement now result recorded).1 in
  (∃ j, Run.judgements (Pipeline.run recorded)
        = Run.judgements (Pipeline.run p0) ++ [j]
        ∧ Judgement.taskId j = TaskRef.id task
        ∧ Judgement.goalComplete j = true)
  ∧ Run.tasks (Pipeline.run concluded)
    = cancelIfPending <$> Run.tasks (Pipeline.run recorded)
  ∧ (∀ t, Task.status t = pending → Task.status (cancelIfPending t) = cancelled)
  ∧ (∀ t, Task.status t ≠ pending → cancelIfPending t = t)
  ∧ (Forall (λ t, Task.status t ≠ in_progress)
       (Run.tasks (Pipeline.run concluded)) →
     Run.status (Pipeline.run concluded) = run_completed
     ∧ Run.completedAt (Pipeline.run concluded) = Some now
     ∧ emitted ev_run_completed (Env.bus (Pipeline.env concluded))
       = emitted ev_run_completed (Env.bus (Pipeline.env p0))
         ++ [DRun (Pipeline.run concluded)]
     ∧ drain now judge (task :: rest) p0 = concluded
     ∧ Pipeline.judging concluded = false
     ∧ Pipeline.judgeQueue concluded = rest).
Proof.
  intros Hab p Hjudge Hgoal recorded concluded.
  destruct (beginJudging_frame now task rest p0)
    as (Bj & Bt & Bs & Be & Bc & Bq & Ba & Bi & Bev).
  fold p in Bj, Bt, Bs, Be, Bc, Bq, Ba, Bi, Bev.
  destruct (recordJudgement_frame now task result p)
    as ((j & Rj & Rt & _ & Rg) & Rs & Rq & Rjg & Rev).
  fold recorded in Rj, Rs, Rq, Rjg, Rev.
  assert (Htasks : Run.tasks (Pipeline.run concluded)
                   = cancelIfPending <$> Run.tasks (Pipeline.run recorded)).
  { unfold concluded, concludeJudgement. rewrite Hgoal.
    destruct (negb _); reflexivity. }
  split; [|split; [|split; [|split]]].
  - exists j. rewrite Rj, Bj, Rg, Hgoal. auto.
  - exact Htasks.
  - apply cancelIfPending_pending.
  - apply cancelIfPending_other.
  - intros Hnone. rewrite Htasks in Hnone.
    assert (Hc : concludeJudgement now result recorded
                 = (concluded, true)
                 ∧ Run.status (Pipeline.run concluded) = run_completed
                 ∧ Run.completedAt (Pipeline.run concluded) = Some now
                 ∧ emitted ev_run_completed (Env.bus (Pipeline.env concluded))
                   = emitted ev_run_completed (Env.bus (Pipeline.env recorded))
                     ++ [DRun (Pipeline.run concluded)]
                 ∧ Pipeline.judging concluded = false
                 ∧ Pipeline.judgeQueue concluded = Pipeline.judgeQueue recorded).
    { unfold concluded, concludeJudgement. rewrite Hgoal.
      change (Run.tasks (Pipeline.run (cancelPending now recorded)))
        with (cancelIfPending <$> Run.tasks (Pipeline.run recorded)).
      rewrite (existsb_in_progress_false _ Hnone). cbn -[cancelPending].
      repeat split; try reflexivity.
      rewrite emitted_emit_other by congruence.
      rewrite emitted_emit, decide_True by reflexivity.
      rewrite (cancelPending_emitted ev_run_completed now recorded)
        by congruence.
      reflexivity. }
    destruct Hc as (Hc & Hst & Hca & Hev & Hjg & Hq).
    repeat split; try assumption.
    + rewrite Hev, Rev, Bev. reflexivity.
    + cbn [drain]. rewrite Hab. fold p. rewrite Hjudge.
      unfold judged, onJudged. fold recorded. rewrite Hc. reflexivity.
    + rewrite Hq, Rq, Bq. reflexivity.
Qed.


(** ** Follow-up tasks and their dependencies *)

Lemma spawnFollowUp_tasks now jid acc nt :
  let q := (spawnFollowUp now jid acc nt).1 in
  Run.tasks (Pipeline.run q)
  = Run.tasks (Pipeline.run acc.1)
    ++ [newTaskOf now jid (nanoid (Env.idCount (Pipeline.env acc.1)))
          (Run.tasks (Pipeline.run acc.1)) nt]
  ∧ Env.idCount (Pipeline.env q) = S (Env.idCount (Pipeline.env acc.1)).
Proof. destruct acc as [p ids]. split; reflexivity. Qed.

Lemma followUps_tasks now jid nts acc :
  Run.tasks (Pipeline.run (foldl (spawnFollowUp now jid) acc nts).1)
  = followUpTasks now jid (Env.idCount (Pipeline.env acc.1))
      (Run.tasks (Pipeline.run acc.1)) nts.
Proof.
  revert acc. induction nts as [|nt nts IH]; intros acc; [reflexivity|].
  cbn [foldl followUpTasks]. rewrite IH.
  destruct (spawnFollowUp_tasks now jid acc nt) as [-> ->]. reflexivity.
Qed.

Lemma followUpTasks_app now jid c tasks nts :
  ∃ news, followUpTasks now jid c tasks nts = tasks ++ news
          ∧ length news = length nts.
Proof.
  revert c tasks. induction nts as [|nt nts IH]; intros c tasks; cbn.
  - exists []. rewrite app_nil_r. split; reflexivity.
  - destruct (IH (S c) (tasks ++ [newTaskOf now jid (nanoid c) tasks nt]))
      as (news & -> & Hlen).
    eexists. rewrite <- app_assoc. split; [reflexivity|].
    cbn. rewrite Hlen. reflexivity.
Qed.

(** The [k]-th follow-up is the task built against exactly what precedes it
    in the final [run.tasks]. *)
Lemma followUpTasks_lookup now jid c tasks nts k nt :
  nts !! k = Some nt →
  followUpTasks now jid c tasks nts !! (length tasks + k)%nat
  = Some (newTaskOf now jid (nanoid (c + k))
            (take (length tasks + k) (followUpTasks now jid c tasks nts)) nt).
Proof.
  revert c tasks k. induction nts as [|nt0 nts IH]; intros c tasks k Hk;
    [discriminate|].
  cbn [followUpTasks]. destruct k as [|k]; cbn in Hk.
  - injection Hk as ->.
    destruct (followUpTasks_app now jid (S c)
                (tasks ++ [newTaskOf now jid (nanoid c) tasks nt]) nts)
      as (news & -> & _).
    rewrite !Nat.add_0_r, <- !app_assoc.
    rewrite take_app_length, lookup_app_r by lia.
    rewrite Nat.sub_diag. reflexivity.
  - specialize (IH (S c) (tasks ++ [newTaskOf now jid (nanoid c) tasks nt0])
                  k Hk).
    rewrite length_app in IH; cbn in IH.
    replace (length tasks + 1 + k)%nat with (length tasks + S k)%nat in IH
      by lia.
    replace (c + S k)%nat with (S (c + k)) by lia.
    exact IH.
Qed.

Lemma findByTitle_Some tasks depTitle t :
  findByTitle tasks depTitle = Some t →
  t ∈ tasks ∧ toLowerCase (Task.title t) = toLowerCase depTitle.
Proof.
  intros H. apply List.find_some in H as [Hin Heq].
  split; [apply list_elem_of_In, Hin | exact (bool_decide_eq_true_1 _ Heq)].
Qed.

Lemma findByTitle_None tasks depTitle :
  (∀ t, t ∈ tasks → toLowerCase (Task.title t) ≠ toLowerCase depTitle) →
  findByTitle tasks depTitle = None.
Proof.
  intros H. unfold findByTitle.
  induction tasks as [|t ts IH]; [reflexivity|]. cbn.
  rewrite bool_decide_eq_false_2 by (apply H; left).
  apply IH. intros t' Hin. apply H. right; exact Hin.
Qed.

(** The first task whose title matches is the one found. *)
Lemma findByTitle_first before t after depTitle :
  (∀ t', t' ∈ before → toLowerCase (Task.title t') ≠ toLowerCase depTitle) →
  toLowerCase (Task.title t) = toLowerCase depTitle →
  findByTitle (before ++ t :: after) depTitle = Some t.
Proof.
  intros Hb Ht. unfold findByTitle.
  induction before as [|b bs IH]; cbn.
  - rewrite bool_decide_eq_true_2 by exact Ht. reflexivity.
  - rewrite bool_decide_eq_false_2 by (apply Hb; left).
    apply IH. intros t' Hin. apply Hb. right; exact Hin.
Qed.

Lemma elem_of_resolveDependencies tasks deps d :
  d ∈ resolveDependencies tasks deps ↔
  d ≠ "" ∧ ∃ depTitle t, depTitle ∈ deps
                         ∧ findByTitle tasks depTitle = Some t
                         ∧ Task.id t = d.
Proof.
  unfold resolveDependencies. rewrite list_elem_of_omap. split.
  - intros (depTitle & Hin & H).
    destruct (findByTitle tasks depTitle) as [t|] eqn:Hf; [|discriminate].
    cbn in H. destruct (Task.id t) as [|c a] eqn:Hid; [discriminate|].
    injection H as <-. split; [discriminate|]. exists depTitle, t. auto.
  - intros (Hne & depTitle & t & Hin & Hf & Hid).
    exists depTitle. split; [exact Hin|]. rewrite Hf; cbn. rewrite Hid.
    destruct d; [contradiction | reflexivity].
Qed.

Lemma resolveDependencies_unmatched tasks before depTitle after :
  findByTitle tasks depTitle = None →
  resolveDependencies tasks (before ++ depTitle :: after)
  = resolveDependencies tasks (before ++ after).
Proof.
  intros H. unfold resolveDependencies.
  rewrite !omap_app. cbn. rewrite H. reflexivity.
Qed.

Lemma newTaskOf_dependencies now jid tid tasks nt :
  Task.dependencies (newTaskOf now jid tid tasks nt)
  = resolveDependencies tasks (default [] (NewTask.dependencies nt)).
Proof.
  unfold newTaskOf. destruct (NewTask.dependencies nt) as [[|d ds]|]; reflexivity.
Qed.

Lemma newTaskOf_fields now jid tid tasks nt :
  let task := newTaskOf now jid tid tasks nt in
  Task.id task = tid
  ∧ Task.title task = NewTask.title nt
  ∧ Task.status task = pending
  ∧ Task.spawnedBy task = Some jid.
Proof.
  unfold newTaskOf. destruct (NewTask.dependencies nt) as [[|d ds]|];
    repeat split; reflexivity.
Qed.

(** C10.  The [k]-th follow-up task of a judgement is appended to
    [run.tasks] after the earlier follow-ups of the same judgement, and its
    dependency titles are resolved against [seen], the content of [run.tasks]
    at that moment: the tasks that were there before the judgement and the
    follow-ups 0..k-1.  A title resolves to the id of the first task of
    [seen] whose lower-cased title equals the lower-cased dependency title;
    so the follow-up depends on an earlier follow-up of the batch whenever
    that one is the first match; and a title that no task of [seen] matches
    contributes nothing. *)
Theorem follow_up_dependencies now jid nts p ids k nt :
  nts !! k = Some nt →
  let before := Run.tasks (Pipeline.run p) in
  let c := Env.idCount (Pipeline.env p) in
  let after :=
    Run.tasks (Pipeline.run (foldl (spawnFollowUp now jid) (p, ids) nts).1) in
  let seen := take (length before + k) after in
  let deps := default [] (NewTask.dependencies nt) in
  ∃ task,
    after !! (length before + k)%nat = Some task
    ∧ take (length before) after = before
    ∧ Task.id task = nanoid (c + k)
    ∧ Task.title task = NewTask.title nt
    ∧ Task.dependencies task = resolveDependencies seen deps
    ∧ (∀ d, d ∈ Task.dependencies task ↔
            d ≠ "" ∧ ∃ depTitle t, depTitle ∈ deps
                                   ∧ findByTitle seen depTitle = Some t
                                   ∧ Task.id t = d)
    ∧ (∀ depTitle t, findByTitle seen depTitle = Some t →
         t ∈ seen ∧ toLowerCase (Task.title t) = toLowerCase depTitle)
    ∧ (∀ j ntj depTitle,
         (j < k)%nat → nts !! j = Some ntj → depTitle ∈ deps →
         toLowerCase (NewTask.title ntj) = toLowerCase depTitle →
         (∀ t, t ∈ take (length before + j) after →
               toLowerCase (Task.title t) ≠ toLowerCase depTitle) →
         nanoid (c + j) ≠ "" →
         nanoid (c + j) ∈ Task.dependencies task)
    ∧ (∀ l1 depTitle l2,
         deps = l1 ++ depTitle :: l2 →
         (∀ t, t ∈ seen → toLowerCase (Task.title t) ≠ toLowerCase depTitle) →
         Task.dependencies task = resolveDependencies seen (l1 ++ l2)).
Proof.
  intros Hk before c after seen deps.
  assert (Hafter : after = followUpTasks now jid c before nts)
    by apply followUps_tasks.
  pose proof (followUpTasks_lookup now jid c before nts k nt Hk) as Hlook.
  rewrite <- Hafter in Hlook. fold seen in Hlook.
  destruct (newTaskOf_fields now jid (nanoid (c + k)) seen nt)
    as (Hid & Htitle & _ & _).
  pose proof (newTaskOf_dependencies now jid (nanoid (c + k)) seen nt) as Hdeps.
  fold deps in Hdeps.
  set (task := newTaskOf now jid (nanoid (c + k)) seen nt) in *.
  exists task. split; [exact Hlook|]. split.
  { destruct (followUpTasks_app now jid c before nts) as (news & Hn & _).
    rewrite Hafter, Hn. apply take_app_length. }
  split; [exact Hid|]. split; [exact Htitle|]. split; [exact Hdeps|].
  split; [|split; [|split]].
  - intros d. rewrite Hdeps. apply elem_of_resolveDependencies.
  - apply findByTitle_Some.
  - intros j ntj depTitle Hj Hntj Hin Hmatch Hfirst Hne.
    pose proof (followUpTasks_lookup now jid c before nts j ntj Hntj) as Hlj.
    rewrite <- Hafter in Hlj.
    set (earlier := newTaskOf now jid (nanoid (c + j))
                      (take (length before + j) after) ntj) in *.
    destruct (newTaskOf_fields now jid (nanoid (c + j))
                (take (length before + j) after) ntj) as (Eid & Etitle & _ & _).
    fold earlier in Eid, Etitle.
    assert (Hseen : seen !! (length before + j)%nat = Some earlier).
    { unfold seen. rewrite lookup_take_lt by lia. exact Hlj. }
    assert (Hsplit : seen = take (length before + j) after
                            ++ earlier :: drop (S (length before + j)) seen).
    { rewrite <- (take_drop_middle seen _ earlier Hseen) at 1.
      f_equal. unfold seen. rewrite take_take. f_equal. lia. }
    rewrite Hdeps. apply elem_of_resolveDependencies. split; [exact Hne|].
    exists depTitle, earlier. split; [exact Hin|]. split; [|exact Eid].
    rewrite Hsplit. apply findByTitle_first; [exact Hfirst|].
    rewrite Etitle. exact Hmatch.
  - intros l1 depTitle l2 Hl Hnone. rewrite Hdeps, Hl.
    apply resolveDependencies_unmatched, findByTitle_None, Hnone.
Qed.

(** ** Ready tasks and the spawn loop *)

Lemma elem_of_filterRefs pred i tasks ref :
  ref ∈ filterRefs pred i tasks →
  ∃ t, (i ≤ TaskRef.index ref)%nat
       ∧ tasks !! (TaskRef.index ref - i)%nat = Some t
       ∧ pred t = true
       ∧ TaskRef.id ref = Task.id t
       ∧ TaskRef.title ref = Task.title t.
Proof.
  revert i. induction tasks as [|t ts IH]; intros i H; cbn in H.
  - apply elem_of_nil in H as [].
  - assert (Htail : ref ∈ filterRefs pred (S i) ts →
              ∃ t0, (i ≤ TaskRef.index ref)%nat
                    ∧ (t :: ts) !! (TaskRef.index ref - i)%nat = Some t0
                    ∧ pred t0 = true
                    ∧ TaskRef.id ref = Task.id t0
                    ∧ TaskRef.title ref = Task.title t0).
    { intros Hin. destruct (IH _ Hin) as (t0 & Hle & Hl & Hp & Hi & Ht).
      exists t0. split; [lia|]. split; [|auto].
      replace (TaskRef.index ref - i)%nat
        with (S (TaskRef.index ref - S i)) by lia.
      exact Hl. }
    destruct (pred t) eqn:Hp; [|auto].
    apply elem_of_cons in H as [-> | H]; [|auto].
    exists t; cbn. rewrite Nat.sub_diag. auto.
Qed.

Lemma filterRefs_complete pred i tasks k t :
  tasks !! k = Some t → pred t = true →
  TaskRef.mk (i + k) (Task.id t) (Task.title t) ∈ filterRefs pred i tasks.
Proof.
  revert i k. induction tasks as [|t0 ts IH]; intros i k Hk Hp; [discriminate|].
  destruct k as [|k]; cbn in Hk |- *.
  - injection Hk as ->. rewrite Hp, Nat.add_0_r. left.
  - replace (i + S k)%nat with (S i + k)%nat by lia.
    specialize (IH (S i) k Hk Hp).
    destruct (pred t0); [right|]; exact IH.
Qed.

(** The references come in array order. *)
Lemma filterRefs_sorted pred i tasks :
  StronglySorted (λ a b, (TaskRef.index a < TaskRef.index b)%nat)
    (filterRefs pred i tasks).
Proof.
  revert i. induction tasks as [|t ts IH]; intros i; cbn; [constructor|].
  destruct (pred t); [|apply IH].
  constructor; [apply IH|].
  apply Forall_forall. intros ref Hin.
  apply elem_of_filterRefs in Hin as (t0 & Hle & _). cbn. lia.
Qed.

Lemma sorted_refs_NoDup (refs : list TaskRef.t) :
  StronglySorted (λ a b, (TaskRef.index a < TaskRef.index b)%nat) refs →
  NoDup (TaskRef.index <$> refs).
Proof.
  induction 1 as [|ref refs _ IH Hall]; cbn; constructor; [|exact IH].
  rewrite list_elem_of_fmap. intros (r & Heq & Hin).
  rewrite Forall_forall in Hall. specialize (Hall r Hin). lia.
Qed.

Lemma depCompleted_find tasks depId :
  depCompleted tasks depId = true ↔
  ∃ dep, List.find (λ d, bool_decide (Task.id d = depId)) tasks = Some dep
         ∧ Task.status dep = completed.
Proof.
  unfold depCompleted.
  destruct (List.find _ tasks) as [dep|]; split.
  - intros H. exists dep. split; [reflexivity | exact (bool_decide_eq_true_1 _ H)].
  - intros (dep' & [= <-] & H). apply bool_decide_eq_true_2, H.
  - discriminate.
  - intros (dep' & [=] & _).
Qed.

(** Starting a task that is not [completed] keeps every completed
    dependency completed: ids do not change, so each lookup by id finds the
    task it found before. *)
Lemma depCompleted_markStarted now tasks i depId :
  (∀ t, tasks !! i = Some t → Task.status t ≠ completed) →
  depCompleted tasks depId = true →
  depCompleted (alter (markStarted now) i tasks) depId = true.
Proof.
  unfold depCompleted. revert i.
  induction tasks as [|t ts IH]; intros i Hi H; [discriminate|].
  destruct i as [|i]; cbn in *.
  - destruct (bool_decide (Task.id t = depId)); [|exact H].
    apply bool_decide_eq_true_1 in H. destruct (Hi t eq_refl H).
  - destruct (bool_decide (Task.id t = depId)); [exact H|].
    apply IH; [|exact H]. intros t' Ht'. apply Hi. exact Ht'.
Qed.

Lemma isReady_markStarted now tasks i t :
  (∀ t', tasks !! i = Some t' → Task.status t' ≠ completed) →
  isReady tasks t = true →
  isReady (alter (markStarted now) i tasks) t = true.
Proof.
  intros Hi. unfold isReady. rewrite !andb_true_iff.
  intros [Hp Hd]. split; [exact Hp|].
  rewrite forallb_forall in Hd |- *. intros d Hin.
  apply depCompleted_markStarted; auto.
Qed.

Lemma isReady_startable q ref t :
  Run.tasks (Pipeline.run q) !! TaskRef.index ref = Some t →
  isReady (Run.tasks (Pipeline.run q)) t = true →
  startable q ref.
Proof.
  intros Ht. unfold isReady. rewrite andb_true_iff. intros [Hp Hd].
  exists t. split; [exact Ht|]. split; [exact (bool_decide_eq_true_1 _ Hp)|].
  apply Forall_forall. intros d Hin. apply depCompleted_find.
  rewrite forallb_forall in Hd. apply Hd, list_elem_of_In, Hin.
Qed.

Lemma startTask_tasks now ref p :
  Run.tasks (Pipeline.run (startTask now ref p))
  = alter (markStarted now) (TaskRef.index ref) (Run.tasks (Pipeline.run p)).
Proof.
  unfold startTask; cbn. destruct (alter _ _ _ !! _); reflexivity.
Qed.

Lemma allReady_getReadyTasks p : allReady p (getReadyTasks (Pipeline.run p)).
Proof.
  split.
  - apply sorted_refs_NoDup, filterRefs_sorted.
  - intros ref Hin. apply elem_of_filterRefs in Hin as (t & _ & Hl & Hp & _).
    rewrite Nat.sub_0_r in Hl. exists t. auto.
Qed.

Lemma allReady_step now ref rest p :
  allReady p (ref :: rest) → allReady (startTask now ref p) rest.
Proof.
  intros [Hnd Hall]. cbn in Hnd. apply NoDup_cons in Hnd as [Hnotin Hnd].
  split; [exact Hnd|]. intros r Hin.
  destruct (Hall r ltac:(right; exact Hin)) as (t & Ht & Hr).
  destruct (Hall ref ltac:(left)) as (t0 & Ht0 & Hr0).
  assert (Hne : TaskRef.index ref ≠ TaskRef.index r).
  { intros Heq. apply Hnotin. rewrite Heq. apply list_elem_of_fmap.
    exists r. auto. }
  exists t. rewrite startTask_tasks. split.
  - rewrite list_lookup_alter_ne by exact Hne. exact Ht.
  - apply isReady_markStarted; [|exact Hr].
    intros t' Ht'. rewrite Ht0 in Ht'. injection Ht' as <-.
    unfold isReady in Hr0. apply andb_true_iff in Hr0 as [Hp _].
    apply bool_decide_eq_true_1 in Hp. rewrite Hp. discriminate.
Qed.

Lemma startMoments_startable now refs p :
  allReady p refs →
  Forall (λ m, startable m.1 m.2) (startMoments now refs p).
Proof.
  revert p. induction refs as [|ref rest IH]; intros p Hall; cbn; [constructor|].
  destruct (mustBreak p); [constructor|]. constructor.
  - destruct Hall as [_ Hall].
    destruct (Hall ref ltac:(left)) as (t & Ht & Hr).
    eapply isReady_startable; eassumption.
  - apply IH. eapply allReady_step, Hall.
Qed.

Lemma started_moments now refs p :
  started now refs p = snd <$> startMoments now refs p.
Proof.
  revert p. induction refs as [|ref rest IH]; intros p; cbn; [reflexivity|].
  destruct (mustBreak p); cbn; [reflexivity|]. rewrite IH. reflexivity.
Qed.

Lemma started_prefix now refs p : started now refs p `prefix_of` refs.
Proof.
  revert p. induction refs as [|ref rest IH]; intros p; cbn.
  - reflexivity.
  - destruct (mustBreak p); [apply prefix_nil|]. apply prefix_cons, IH.
Qed.

Lemma spawnLoop_started now refs p :
  spawnLoop now refs p
  = foldl (λ q ref, startTask now ref q) p (started now refs p).
Proof.
  revert p. induction refs as [|ref rest IH]; intros p; cbn; [reflexivity|].
  destruct (mustBreak p); cbn; [reflexivity|]. apply IH.
Qed.

(** Each recorded moment is the state the loop has reached by then. *)
Lemma startMoments_state now refs p k q ref :
  startMoments now refs p !! k = Some (q, ref) →
  q = foldl (λ q ref, startTask now ref q) p (take k (started now refs p)).
Proof.
  revert p k. induction refs as [|r rest IH]; intros p k H; cbn in H;
    [discriminate|].
  cbn [started]. destruct (mustBreak p); [discriminate|].
  destruct k as [|k]; cbn in H |- *.
  - injection H as <- <-. reflexivity.
  - apply IH, H.
Qed.

Lemma startTasks_tasks now refs p :
  Run.tasks (Pipeline.run (foldl (λ q ref, startTask now ref q) p refs))
  = foldl (λ ts ref, alter (markStarted now) (TaskRef.index ref) ts)
      (Run.tasks (Pipeline.run p)) refs.
Proof.
  revert p. induction refs as [|ref rest IH]; intros p; cbn [foldl];
    [reflexivity|].
  rewrite IH, startTask_tasks. reflexivity.
Qed.

Lemma markAll_length now refs (tasks : list Task.t) :
  length (foldl (λ ts ref, alter (markStarted now) (TaskRef.index ref) ts)
            tasks refs) = length tasks.
Proof.
  revert tasks. induction refs as [|ref rest IH]; intros tasks; cbn;
    [reflexivity|].
  rewrite IH. apply length_alter.
Qed.

Lemma markAll_other now refs (tasks : list Task.t) i :
  i ∉ TaskRef.index <$> refs →
  foldl (λ ts ref, alter (markStarted now) (TaskRef.index ref) ts) tasks refs
  !! i = tasks !! i.
Proof.
  revert tasks. induction refs as [|ref rest IH]; intros tasks Hni; cbn;
    [reflexivity|].
  cbn in Hni. apply not_elem_of_cons in Hni as [Hne Hni].
  rewrite IH by exact Hni. apply list_lookup_alter_ne. congruence.
Qed.

Lemma markAll_keeps now refs (tasks : list Task.t) i :
  Task.status <$> tasks !! i = Some in_progress →
  Task.status <$>
    foldl (λ ts ref, alter (markStarted now) (TaskRef.index ref) ts) tasks refs
    !! i = Some in_progress.
Proof.
  revert tasks. induction refs as [|ref rest IH]; intros tasks H; cbn;
    [exact H|].
  apply IH. destruct (decide (TaskRef.index ref = i)) as [->|Hne].
  - rewrite list_lookup_alter_eq. destruct (tasks !! i); [reflexivity|].
    discriminate.
  - rewrite list_lookup_alter_ne by exact Hne. exact H.
Qed.

Lemma markAll_started now refs (tasks : list Task.t) i :
  i ∈ TaskRef.index <$> refs → (i < length tasks)%nat →
  Task.status <$>
    foldl (λ ts ref, alter (markStarted now) (TaskRef.index ref) ts) tasks refs
    !! i = Some in_progress.
Proof.
  revert tasks. induction refs as [|ref rest IH]; intros tasks Hin Hlt; cbn.
  - cbn in Hin. apply elem_of_nil in Hin as [].
  - destruct (decide (TaskRef.index ref = i)) as [<-|Hne].
    + apply markAll_keeps. rewrite list_lookup_alter_eq.
      destruct (lookup_lt_is_Some_2 tasks _ Hlt) as [t ->]. reflexivity.
    + apply IH; [|rewrite length_alter; exact Hlt].
      cbn in Hin. apply elem_of_cons in Hin as [Heq | Hin];
        [congruence | exact Hin].
Qed.

(** C8.  In one pass of "spawn workers for ready tasks", at the moment a
    task is set [in_progress] it is [pending] and every one of its
    dependencies is [completed] in the state of that moment; the pass does
    nothing but these starts, on tasks that [getReadyTasks] returned; and a
    task that is [in_progress] after the pass and was not before is one of
    them. *)
Theorem tasks_start_with_dependencies_completed now p :
  let ready := getReadyTasks (Pipeline.run p) in
  let moments := startMoments now ready p in
  Forall (λ m, startable m.1 m.2) moments
  ∧ (∀ k q ref, moments !! k = Some (q, ref) →
       q = foldl (λ q ref, startTask now ref q) p (take k (snd <$> moments)))
  ∧ spawnReady now p = foldl (λ q ref, startTask now ref q) p (snd <$> moments)
  ∧ (snd <$> moments) `prefix_of` ready
  ∧ (∀ i t t',
       Run.tasks (Pipeline.run p) !! i = Some t →
       Run.tasks (Pipeline.run (spawnReady now p)) !! i = Some t' →
       Task.status t ≠ in_progress → Task.status t' = in_progress →
       i ∈ TaskRef.index <$> (snd <$> moments)).
Proof.
  intros ready moments. unfold moments.
  rewrite <- started_moments.
  split; [apply startMoments_startable, allReady_getReadyTasks|].
  split; [apply startMoments_state|].
  split; [apply spawnLoop_started|].
  split; [apply started_prefix|].
  intros i t t' Ht Ht' Hbefore Hafter.
  destruct (decide (i ∈ TaskRef.index <$> started now ready p)) as [Hin|Hni];
    [exact Hin|].
  unfold spawnReady in Ht'. fold ready in Ht'.
  rewrite spawnLoop_started, startTasks_tasks, markAll_other in Ht'
    by exact Hni.
  congruence.
Qed.

(** No other code sets a task [in_progress]: the worker's completion writes
    [completed] or [failed]; pause, stop and load roll back to [pending];
    the judge cancels [pending] tasks and appends [pending] ones; the
    dead-end branch cancels. *)
Lemma nothing_else_starts_tasks :
  (∀ now o t w b, Task.status (settle now o t w b).1.1 ≠ in_progress)
  ∧ (∀ t, Task.status (rollbackTask t) ≠ in_progress)
  ∧ (∀ t, Task.status (cancelIfPending t) = in_progress →
          Task.status t = in_progress)
  ∧ (∀ now jid tid tasks nt,
       Task.status (newTaskOf now jid tid tasks nt) = pending)
  ∧ (∀ now p ref i t',
       Run.tasks (Pipeline.run (cancelBlocked now p ref)) !! i = Some t' →
       Task.status t' = in_progress →
       Task.status <$> Run.tasks (Pipeline.run p) !! i = Some in_progress).
Proof.
  split; [|split; [|split; [|split]]].
  - intros now o t w b. rewrite settle_task_status. destruct o; discriminate.
  - apply rollbackTask_status.
  - apply cancelIfPending_in_progress.
  - intros. apply newTaskOf_fields.
  - intros now p ref i t' Ht' Hs.
    assert (Ht : Run.tasks (Pipeline.run (cancelBlocked now p ref))
                 = alter (λ t, Task.set_error
                                 (Some "Blocked by failed dependencies")
                                 (Task.set_status cancelled t))
                     (TaskRef.index ref) (Run.tasks (Pipeline.run p))).
    { unfold cancelBlocked; cbn. destruct (alter _ _ _ !! _); reflexivity. }
    rewrite Ht in Ht'.
    destruct (decide (TaskRef.index ref = i)) as [<-|Hne].
    + rewrite list_lookup_alter_eq in Ht'.
      destruct (Run.tasks (Pipeline.run p) !! _); [|discriminate].
      injection Ht' as <-. discriminate.
    + rewrite list_lookup_alter_ne in Ht' by exact Hne.
      rewrite Ht'; cbn. rewrite Hs. reflexivity.
Qed.

Lemma filterRefs_fmap pred pred' (g : Task.t → Task.t) i tasks :
  (∀ t, pred' (g t) = pred t) →
  (∀ t, Task.id (g t) = Task.id t ∧ Task.title (g t) = Task.title t) →
  filterRefs pred' i (g <$> tasks) = filterRefs pred i tasks.
Proof.
  intros Hp Hg. revert i. induction tasks as [|t ts IH]; intros i; cbn;
    [reflexivity|].
  rewrite Hp, IH. destruct (Hg t) as [-> ->]. reflexivity.
Qed.

Lemma depCompleted_fmap (g : Task.t → Task.t) tasks depId :
  (∀ t, Task.id (g t) = Task.id t ∧ Task.status (g t) = Task.status t) →
  depCompleted (g <$> tasks) depId = depCompleted tasks depId.
Proof.
  intros Hg. unfold depCompleted.
  induction tasks as [|t ts IH]; cbn; [reflexivity|].
  destruct (Hg t) as [-> Hs].
  destruct (bool_decide (Task.id t = depId)); [rewrite Hs; reflexivity | exact IH].
Qed.

(** [getReadyTasks] does not read the priorities. *)
Lemma getReadyTasks_reprioritised f run :
  getReadyTasks (reprioritised f run) = getReadyTasks run.
Proof.
  unfold getReadyTasks, reprioritised; cbn.
  apply filterRefs_fmap; [|intros t; split; reflexivity].
  intros t. unfold isReady; cbn. f_equal.
  induction (Task.dependencies t) as [|d ds IH]; cbn; [reflexivity|].
  rewrite IH. f_equal.
  apply depCompleted_fmap. intros t'; split; reflexivity.
Qed.

(** C1, as the code has it.  The ready tasks are taken in the order of
    [run.tasks], the order of creation; priorities are not consulted.
    [getReadyTasks] lists exactly the ready tasks by increasing position and
    gives the same list whatever the priorities are; one pass starts a
    prefix of that list, so when the free slots do not suffice it is the
    earliest ready tasks of the array that are set [in_progress], and every
    other task is left as it was. *)
Theorem ready_tasks_start_in_array_order now p :
  let tasks := Run.tasks (Pipeline.run p) in
  let ready := getReadyTasks (Pipeline.run p) in
  let chosen := started now ready p in
  let after := Run.tasks (Pipeline.run (spawnReady now p)) in
  StronglySorted (λ a b, (TaskRef.index a < TaskRef.index b)%nat) ready
  ∧ (∀ i t, tasks !! i = Some t →
       (isReady tasks t = true
        ↔ TaskRef.mk i (Task.id t) (Task.title t) ∈ ready))
  ∧ chosen `prefix_of` ready
  ∧ (∀ ref, ref ∈ chosen →
       Task.status <$> after !! TaskRef.index ref = Some in_progress)
  ∧ (∀ i, i ∉ TaskRef.index <$> chosen → after !! i = tasks !! i)
  ∧ (∀ f, getReadyTasks (reprioritised f (Pipeline.run p)) = ready).
Proof.
  intros tasks ready chosen after.
  assert (Hafter : after
            = foldl (λ ts ref, alter (markStarted now) (TaskRef.index ref) ts)
                tasks chosen).
  { unfold after, spawnReady. fold ready.
    rewrite spawnLoop_started, startTasks_tasks. reflexivity. }
  split; [apply filterRefs_sorted|].
  split; [|split; [apply started_prefix|split; [|split]]].
  - intros i t Ht. split.
    + intros Hr. apply (filterRefs_complete _ 0 tasks i t Ht Hr).
    + intros Hin. apply elem_of_filterRefs in Hin as (t0 & _ & Hl & Hp & _).
      cbn in Hl. rewrite Nat.sub_0_r in Hl. fold tasks in Hl.
      rewrite Ht in Hl. injection Hl as <-. exact Hp.
  - intros ref Hin. rewrite Hafter. apply markAll_started.
    + apply list_elem_of_fmap. exists ref. auto.
    + assert (Hr : ref ∈ ready)
        by (eapply elem_of_prefix; [exact Hin | apply started_prefix]).
      apply elem_of_filterRefs in Hr as (t & _ & Hl & _).
      rewrite Nat.sub_0_r in Hl. eapply lookup_lt_Some, Hl.
  - intros i Hni. rewrite Hafter. apply markAll_other, Hni.
  - intros f. apply getReadyTasks_reprioritised.
Qed.

(** * Further properties of the code *)

(** ** The event ring *)

Lemma slice_last_snoc {A} (n : nat) (l : list A) x :
  (0 < n)%nat → slice_last n (slice_last n l ++ [x]) = slice_last n (l ++ [x]).
Proof.
  intros Hn. destruct (decide (length l ≤ n)%nat) as [Hle|Hgt].
  - rewrite (slice_last_short n l) by exact Hle. reflexivity.
  - unfold slice_last. rewrite !length_app, length_drop. cbn.
    rewrite drop_app_le by (rewrite length_drop; lia).
    rewrite drop_app_le by lia. rewrite drop_drop. do 2 f_equal. lia.
Qed.

Lemma slice_last_slice_last {A} (n m : nat) (l : list A) :
  (n ≤ m)%nat → slice_last n (slice_last m l) = slice_last n l.
Proof.
  intros Hnm. unfold slice_last. rewrite length_drop, drop_drop. f_equal. lia.
Qed.

Lemma emit_eventLog now ty d b :
  EventBus.eventLog (EventBus.emit now ty d b)
  = slice_last 1000 (EventBus.eventLog b ++ [Event.mk ty d now]).
Proof.
  unfold EventBus.emit; cbn. case_decide as H; [reflexivity|].
  symmetry. apply slice_last_short. lia.
Qed.

Lemma slice_last_inner {A} (n : nat) (l k : list A) :
  slice_last n (slice_last n l ++ k) = slice_last n (l ++ k).
Proof.
  destruct n as [|n].
  { unfold slice_last. rewrite !Nat.sub_0_r, !drop_all. reflexivity. }
  induction k as [|x k IH] using rev_ind.
  - rewrite !app_nil_r. apply slice_last_slice_last. lia.
  - rewrite !app_assoc.
    rewrite <- (slice_last_snoc (S n) (slice_last (S n) l ++ k)) by lia.
    rewrite IH. apply slice_last_snoc. lia.
Qed.

Lemma emitAll_eventLog calls b :
  (length (EventBus.eventLog b) ≤ 1000)%nat →
  EventBus.eventLog (emitAll calls b)
  = slice_last 1000 (EventBus.eventLog b ++ (eventOf <$> calls)).
Proof.
  revert b. induction calls as [|c calls IH]; intros b Hb.
  - cbn. rewrite app_nil_r. symmetry. apply slice_last_short, Hb.
  - cbn [emitAll foldl]. unfold emitAll in IH. rewrite IH.
    + rewrite emit_eventLog, slice_last_inner, <- app_assoc. reflexivity.
    + rewrite emit_eventLog. apply slice_last_length.
Qed.

(** X1.  After any sequence of [emit] calls on a fresh bus the ring
    [eventLog] holds the last 1000 events emitted, oldest first, never more;
    and [getRecentEvents(limit)] returns the last [limit] events emitted for
    a limit from 1 to 1000, the whole ring for a larger limit, and the whole
    ring as well for the limit 0. *)
Theorem event_ring_keeps_latest calls limit :
  let b := emitAll calls EventBus.empty in
  EventBus.eventLog b = slice_last 1000 (eventOf <$> calls)
  ∧ (length (EventBus.eventLog b) ≤ 1000)%nat
  ∧ ((0 < limit ≤ 1000)%nat →
     EventBus.getRecentEvents limit b = slice_last limit (eventOf <$> calls))
  ∧ ((1000 < limit)%nat → EventBus.getRecentEvents limit b = EventBus.eventLog b)
  ∧ EventBus.getRecentEvents 0 b = EventBus.eventLog b.
Proof.
  intros b.
  assert (H : EventBus.eventLog b = slice_last 1000 (eventOf <$> calls)).
  { unfold b. rewrite emitAll_eventLog by (cbn; lia). reflexivity. }
  split; [exact H|]. split; [rewrite H; apply slice_last_length|].
  split; [|split; [|reflexivity]].
  - intros [H0 H1]. destruct limit as [|n]; [lia|].
    cbn [EventBus.getRecentEvents]. rewrite H.
    apply slice_last_slice_last. lia.
  - intros Hl. destruct limit as [|n]; [lia|].
    cbn [EventBus.getRecentEvents]. apply slice_last_short.
    rewrite H. pose proof (slice_last_length 1000 (eventOf <$> calls)). lia.
Qed.

(** ** Killing workers *)

Lemma killWorker_effect i e :
  Env.activeWorkers (killWorker i e) = Env.activeWorkers e ∖ {[i]}
  ∧ Env.abortedWorkers (killWorker i e)
    = Env.abortedWorkers e ∪ (Env.activeWorkers e ∩ {[i]})
  ∧ Env.bus (killWorker i e) = Env.bus e
  ∧ Env.idCount (killWorker i e) = Env.idCount e.
Proof.
  unfold killWorker. case_decide as H; cbn.
  - split; [reflexivity|]. split; [set_solver|]. split; reflexivity.
  - split; [set_solver|]. split; [set_solver|]. split; reflexivity.
Qed.

Lemma killWorkers_effect ids e :
  Env.activeWorkers (killWorkers ids e)
  = Env.activeWorkers e ∖ list_to_set ids
  ∧ Env.abortedWorkers (killWorkers ids e)
    = Env.abortedWorkers e ∪ (Env.activeWorkers e ∩ list_to_set ids)
  ∧ Env.bus (killWorkers ids e) = Env.bus e
  ∧ Env.idCount (killWorkers ids e) = Env.idCount e.
Proof.
  revert e. induction ids as [|i ids IH]; intros e.
  - cbn. split; [set_solver|]. split; [set_solver|]. split; reflexivity.
  - cbn [killWorkers foldl]. fold (killWorkers ids (killWorker i e)).
    destruct (IH (killWorker i e)) as (-> & -> & -> & ->).
    destruct (killWorker_effect i e) as (-> & -> & -> & ->).
    split; [set_solver|]. split; [|split; reflexivity].
    apply set_eq. intros x. set_unfold.
    destruct (decide (x = i)) as [->|Hne]; tauto.
Qed.

Lemma Env_eq (e1 e2 : Env.t) :
  Env.bus e1 = Env.bus e2 → Env.idCount e1 = Env.idCount e2 →
  Env.activeWorkers e1 = Env.activeWorkers e2 →
  Env.abortedWorkers e1 = Env.abortedWorkers e2 → e1 = e2.
Proof. destruct e1, e2; cbn; intros; subst; reflexivity. Qed.

(** X2.  [killWorkers(ids)] removes the given ids from the table of active
    workers and fires the abort signal of exactly those of them that were
    active; an id that is not active is ignored; the event bus is not
    touched.  Killing the same ids again changes nothing, and
    [killAllWorkers] leaves the table empty. *)
Theorem killWorkers_aborts_active_only ids e :
  Env.activeWorkers (killWorkers ids e)
  = Env.activeWorkers e ∖ list_to_set ids
  ∧ Env.abortedWorkers (killWorkers ids e)
    = Env.abortedWorkers e ∪ (Env.activeWorkers e ∩ list_to_set ids)
  ∧ Env.bus (killWorkers ids e) = Env.bus e
  ∧ killWorkers ids (killWorkers ids e) = killWorkers ids e
  ∧ Env.activeWorkers (killAllWorkers e) = ∅
  ∧ Env.abortedWorkers (killAllWorkers e)
    = Env.abortedWorkers e ∪ Env.activeWorkers e.
Proof.
  destruct (killWorkers_effect ids e) as (Ha & Hb & Hc & Hd).
  destruct (killWorkers_effect ids (killWorkers ids e)) as (Ha' & Hb' & Hc' & Hd').
  destruct (killWorkers_effect (elements (Env.activeWorkers e)) e)
    as (Ka & Kb & _ & _).
  split; [exact Ha|]. split; [exact Hb|]. split; [exact Hc|].
  split; [|split].
  - apply Env_eq; [congruence | congruence | |].
    + rewrite Ha', Ha. set_solver.
    + rewrite Hb', Ha, Hb. set_solver.
  - unfold killAllWorkers. rewrite Ka. set_solver.
  - unfold killAllWorkers. rewrite Kb. set_solver.
Qed.

(** ** Pausing, resuming and the end of a pipeline *)





(** ** The plan and the dependency graph *)

Lemma findByTitle_fmap (g : Task.t → Task.t) tasks depTitle :
  (∀ t, Task.title (g t) = Task.title t) →
  findByTitle (g <$> tasks) depTitle = g <$> findByTitle tasks depTitle.
Proof.
  intros Hg. unfold findByTitle.
  induction tasks as [|t ts IH]; cbn; [reflexivity|].
  rewrite Hg. destruct (bool_decide _); [reflexivity | exact IH].
Qed.

Lemma resolveDependencies_fmap (g : Task.t → Task.t) tasks deps :
  (∀ t, Task.title (g t) = Task.title t ∧ Task.id (g t) = Task.id t) →
  resolveDependencies (g <$> tasks) deps = resolveDependencies tasks deps.
Proof.
  intros Hg. unfold resolveDependencies. apply list_omap_ext.
  apply Forall2_same_length_lookup. split; [reflexivity|].
  intros i x y Hx Hy. rewrite Hx in Hy. injection Hy as <-.
  rewrite findByTitle_fmap by (intros t; apply Hg).
  destruct (findByTitle tasks x) as [t|]; cbn; [|reflexivity].
  destruct (Hg t) as [_ ->]. reflexivity.
Qed.

Lemma resolveDependencies_ids tasks deps d :
  d ∈ resolveDependencies tasks deps → d ∈ Task.id <$> tasks.
Proof.
  intros H. apply elem_of_resolveDependencies in H
    as (_ & depTitle & t & _ & Hf & <-).
  apply findByTitle_Some in Hf as [Hin _].
  apply list_elem_of_fmap. exists t. auto.
Qed.

Lemma planTasks_lookup now c parsed i nt :
  parsed !! i = Some nt →
  planTasks now c parsed !! i
  = Some (Task.set_dependencies
            (resolveDependencies (planTasks now c parsed)
               (default [] (NewTask.dependencies nt)))
            (plannedTask now c i nt)).
Proof.
  intros Hi. unfold planTasks at 1.
  rewrite list_lookup_fmap, list_lookup_imap, Hi; cbn. do 2 f_equal.
  unfold planTasks. symmetry. apply resolveDependencies_fmap.
  intros t; split; reflexivity.
Qed.

Lemma planTasks_closed now c parsed : depsClosed (planTasks now c parsed).
Proof.
  intros t Hin d Hd. apply list_elem_of_lookup in Hin as [i Hi].
  assert (Hlt : (i < length parsed)%nat).
  { apply lookup_lt_Some in Hi. unfold planTasks in Hi.
    rewrite length_fmap, length_imap in Hi. exact Hi. }
  destruct (lookup_lt_is_Some_2 parsed i Hlt) as [nt Hnt].
  rewrite (planTasks_lookup now c parsed i nt Hnt) in Hi.
  injection Hi as <-. cbn in Hd.
  eapply resolveDependencies_ids, Hd.
Qed.

(** X6.  The tasks [createInitialPlan] builds from a parsed plan: one per
    planned task, in order, [pending], with a fresh id, the priority of the
    plan or else its position counted from 1, and as dependencies the ids of
    the tasks of the same plan whose titles match the dependency titles
    (lower-cased; the first match; no match, no dependency).  Every
    dependency is therefore the id of a task of the plan, possibly a later
    one or the task itself. *)
Theorem planned_dependencies_stay_in_plan now c parsed :
  let tasks := planTasks now c parsed in
  length tasks = length parsed
  ∧ (∀ i nt, parsed !! i = Some nt →
       ∃ t, tasks !! i = Some t
            ∧ Task.id t = nanoid (c + i)
            ∧ Task.title t = NewTask.title nt
            ∧ Task.status t = pending
            ∧ Task.priority t = num_or (NewTask.priority nt) (Z.of_nat i + 1)
            ∧ Task.dependencies t
              = resolveDependencies tasks
                  (default [] (NewTask.dependencies nt)))
  ∧ depsClosed tasks.
Proof.
  intros tasks. split; [|split].
  - unfold tasks, planTasks. rewrite length_fmap, length_imap. reflexivity.
  - intros i nt Hi. eexists. split; [apply planTasks_lookup, Hi|].
    repeat split; reflexivity.
  - apply planTasks_closed.
Qed.

(** ** The dead end of the main loop *)

Lemma alterAll_lookup (f : Task.t → Task.t) refs (tasks : list Task.t) i :
  NoDup (TaskRef.index <$> refs) →
  foldl (λ ts ref, alter f (TaskRef.index ref) ts) tasks refs !! i
  = if decide (i ∈ TaskRef.index <$> refs) then f <$> tasks !! i
    else tasks !! i.
Proof.
  revert tasks. induction refs as [|r refs IH]; intros tasks Hnd; cbn.
  - rewrite decide_False by apply not_elem_of_nil. reflexivity.
  - apply NoDup_cons in Hnd as [Hni Hnd]. rewrite IH by exact Hnd.
    destruct (decide (i = TaskRef.index r)) as [->|Hne].
    + rewrite decide_False by exact Hni.
      rewrite decide_True by left. apply list_lookup_alter_eq.
    + rewrite list_lookup_alter_ne by congruence.
      destruct (decide (i ∈ TaskRef.index <$> refs)) as [Hin|Hnin].
      * rewrite decide_True by (right; exact Hin). reflexivity.
      * rewrite decide_False; [reflexivity|].
        intros Hin. apply elem_of_cons in Hin as [? | ?]; contradiction.
Qed.

(** Altering every task a filter selects is mapping over the array. *)
Lemma alterAll_filterRefs (f : Task.t → Task.t) pred (tasks : list Task.t) :
  foldl (λ ts ref, alter f (TaskRef.index ref) ts) tasks
    (filterRefs pred 0 tasks)
  = (λ t, if pred t then f t else t) <$> tasks.
Proof.
  apply list_eq. intros i.
  rewrite alterAll_lookup by apply sorted_refs_NoDup, filterRefs_sorted.
  rewrite list_lookup_fmap. destruct (tasks !! i) as [t|] eqn:Ht; cbn.
  - destruct (pred t) eqn:Hp.
    + rewrite decide_True; [reflexivity|].
      apply list_elem_of_fmap. eexists. split; [|apply (filterRefs_complete pred 0 tasks i t Ht Hp)].
      reflexivity.
    + rewrite decide_False; [reflexivity|].
      intros Hin. apply list_elem_of_fmap in Hin as (ref & -> & Hin).
      apply elem_of_filterRefs in Hin as (t0 & _ & Hl & Hp0 & _).
      rewrite Nat.sub_0_r, Ht in Hl. injection Hl as <-. congruence.
  - destruct (decide _); reflexivity.
Qed.

Lemma cancelBlocked_tasks now p ref :
  Run.tasks (Pipeline.run (cancelBlocked now p ref))
  = alter blockTask (TaskRef.index ref) (Run.tasks (Pipeline.run p)).
Proof. unfold cancelBlocked; cbn. destruct (alter _ _ _ !! _); reflexivity. Qed.

(** What the loop over [trulyBlocked] leaves alone. *)
Lemma cancelBlocked_frame now p ref :
  let q := cancelBlocked now p ref in
  Run.status (Pipeline.run q) = Run.status (Pipeline.run p)
  ∧ Run.judgements (Pipeline.run q) = Run.judgements (Pipeline.run p)
  ∧ Run.workers (Pipeline.run q) = Run.workers (Pipeline.run p)
  ∧ Pipeline.judging q = Pipeline.judging p
  ∧ Pipeline.judgeQueue q = Pipeline.judgeQueue p
  ∧ Pipeline.runningTasks q = Pipeline.runningTasks p.
Proof.
  unfold cancelBlocked; cbn. destruct (alter _ _ _ !! _); repeat split.
Qed.

Lemma cancelAllBlocked now refs p :
  let q := foldl (cancelBlocked now) p refs in
  Run.tasks (Pipeline.run q)
  = foldl (λ ts ref, alter blockTask (TaskRef.index ref) ts)
      (Run.tasks (Pipeline.run p)) refs
  ∧ Run.status (Pipeline.run q) = Run.status (Pipeline.run p)
  ∧ Run.judgements (Pipeline.run q) = Run.judgements (Pipeline.run p)
  ∧ Run.workers (Pipeline.run q) = Run.workers (Pipeline.run p)
  ∧ Pipeline.judging q = Pipeline.judging p
  ∧ Pipeline.judgeQueue q = Pipeline.judgeQueue p
  ∧ Pipeline.runningTasks q = Pipeline.runningTasks p.
Proof.
  revert p. induction refs as [|ref refs IH]; intros p; cbn [foldl].
  - repeat split.
  - destruct (IH (cancelBlocked now p ref)) as (-> & -> & -> & -> & -> & -> & ->).
    destruct (cancelBlocked_frame now p ref) as (-> & -> & -> & -> & -> & ->).
    rewrite cancelBlocked_tasks. repeat split.
Qed.

Lemma trulyBlocked_iff tasks t :
  trulyBlocked tasks t = true ↔
  Task.status t = pending
  ∧ ∃ d dep, d ∈ Task.dependencies t
             ∧ List.find (λ x, bool_decide (Task.id x = d)) tasks = Some dep
             ∧ (Task.status dep = failed ∨ Task.status dep = cancelled).
Proof.
  unfold trulyBlocked. rewrite andb_true_iff, bool_decide_eq_true, existsb_exists.
  split; intros [Hp H]; (split; [exact Hp|]).
  - destruct H as (d & Hin & Hd). unfold depDead in Hd.
    destruct (List.find _ tasks) as [dep|] eqn:Hf; [|discriminate].
    exists d, dep. split; [apply list_elem_of_In, Hin|]. split; [exact Hf|].
    apply orb_true_iff in Hd as [Hd | Hd]; apply bool_decide_eq_true_1 in Hd; auto.
  - destruct H as (d & dep & Hin & Hf & Hs). exists d.
    split; [apply list_elem_of_In, Hin|]. unfold depDead. rewrite Hf.
    apply orb_true_iff.
    destruct Hs as [Hs | Hs]; [left | right]; apply bool_decide_eq_true_2, Hs.
Qed.

(** The tasks after the dead-end branch, when it is entered. *)
Lemma handleBlocked_entered now p :
  size (Pipeline.runningTasks p) = 0%nat →
  getReadyTasks (Pipeline.run p) = [] →
  let tasks := Run.tasks (Pipeline.run p) in
  let q := (handleBlocked now p).1 in
  Run.tasks (Pipeline.run q)
  = (λ t, if trulyBlocked tasks t then blockTask t else t) <$> tasks
  ∧ Run.status (Pipeline.run q) = Run.status (Pipeline.run p)
  ∧ Run.judgements (Pipeline.run q) = Run.judgements (Pipeline.run p)
  ∧ Run.workers (Pipeline.run q) = Run.workers (Pipeline.run p)
  ∧ (handleBlocked now p).2
    = negb (Pipeline.judging p)
      && bool_decide (Pipeline.judgeQueue p = [])
      && bool_decide
           (List.filter (λ t, bool_decide (Task.status t = pending))
              (Run.tasks (Pipeline.run q)) = []).
Proof.
  intros Hsize Hready tasks q. unfold q, handleBlocked.
  rewrite Hsize, Hready. cbn [bool_decide andb].
  rewrite !bool_decide_eq_true_2 by reflexivity. cbn [andb]. fold tasks.
  pose proof (alterAll_filterRefs blockTask (trulyBlocked tasks) tasks) as Hall.
  destruct (filterRefs (trulyBlocked tasks) 0 tasks) as [|ref refs] eqn:Hrefs.
  - cbn in Hall. rewrite <- Hall.
    destruct (_ && _ && _) eqn:Hb; cbn [fst snd]; rewrite ?Hb; repeat split.
  - match goal with |- context [foldl (cancelBlocked now) ?p0 ?l] =>
      destruct (cancelAllBlocked now l p0) as (Ht & Hs & Hj & Hw & Hg & Hq & _);
      set (r := foldl (cancelBlocked now) p0 l) in * end.
    cbn -[foldl] in Ht, Hs, Hj, Hw, Hg, Hq. fold tasks in Ht. rewrite Hall in Ht.
    rewrite Hg, Hq.
    destruct (_ && _ && _) eqn:Hb; cbn [fst snd]; rewrite ?Hb; repeat split; assumption.
Qed.

Lemma filter_nil_iff {A} (f : A → bool) (l : list A) :
  List.filter f l = [] ↔ ∀ x, x ∈ l → f x = false.
Proof.
  induction l as [|a l IH]; cbn.
  - split; [intros _ x Hx; apply elem_of_nil in Hx as [] | reflexivity].
  - destruct (f a) eqn:Ha; split.
    + discriminate.
    + intros H. rewrite (H a) in Ha by left. discriminate.
    + intros H x Hx. apply elem_of_cons in Hx as [-> | Hx]; [exact Ha|].
      apply IH; assumption.
    + intros H. apply IH. intros x Hx. apply H. right. exact Hx.
Qed.

Lemma filterRefs_nil pred i (tasks : list Task.t) :
  (∀ t, t ∈ tasks → pred t = false) → filterRefs pred i tasks = [].
Proof.
  revert i. induction tasks as [|t ts IH]; intros i H; cbn; [reflexivity|].
  rewrite (H t) by left. apply IH. intros x Hx. apply H. right. exact Hx.
Qed.

(** X7.  The dead end of the main loop.  The branch is entered only when no
    task is running and none is ready; otherwise the state is left as it is
    and the loop is not left.  When entered, one pass cancels exactly the
    tasks that are [pending] and have a dependency that resolves to a
    [failed] or [cancelled] task in the state before the pass, with the
    error "Blocked by failed dependencies"; every other task, run status,
    judgements and workers are untouched.  The loop is left exactly when
    the judge is idle, its queue is empty and every pending task was
    cancelled by this pass. *)
Theorem blocked_tasks_are_cancelled now p :
  let tasks := Run.tasks (Pipeline.run p) in
  let q := (handleBlocked now p).1 in
  (size (Pipeline.runningTasks p) ≠ 0%nat ∨ getReadyTasks (Pipeline.run p) ≠ [] →
   handleBlocked now p = (p, false))
  ∧ (size (Pipeline.runningTasks p) = 0%nat →
     getReadyTasks (Pipeline.run p) = [] →
     length (Run.tasks (Pipeline.run q)) = length tasks
     ∧ (∀ i t, tasks !! i = Some t →
          Run.tasks (Pipeline.run q) !! i
          = Some (if trulyBlocked tasks t
                  then Task.set_error (Some "Blocked by failed dependencies")
                         (Task.set_status cancelled t)
                  else t))
     ∧ (∀ t, trulyBlocked tasks t = true ↔
             Task.status t = pending
             ∧ ∃ d dep, d ∈ Task.dependencies t
                        ∧ List.find (λ x, bool_decide (Task.id x = d)) tasks
                          = Some dep
                        ∧ (Task.status dep = failed
                           ∨ Task.status dep = cancelled))
     ∧ Run.status (Pipeline.run q) = Run.status (Pipeline.run p)
     ∧ Run.judgements (Pipeline.run q) = Run.judgements (Pipeline.run p)
     ∧ Run.workers (Pipeline.run q) = Run.workers (Pipeline.run p)
     ∧ ((handleBlocked now p).2 = true ↔
        Pipeline.judging p = false ∧ Pipeline.judgeQueue p = []
        ∧ ∀ t, t ∈ tasks → Task.status t = pending →
               trulyBlocked tasks t = true)).
Proof.
  intros tasks q. split.
  - intros H. unfold handleBlocked.
    destruct H as [H | H]; [rewrite (bool_decide_eq_false_2 _ H); reflexivity|].
    rewrite (bool_decide_eq_false_2 _ H), andb_false_r. reflexivity.
  - intros Hsize Hready.
    destruct (handleBlocked_entered now p Hsize Hready)
      as (Ht & Hs & Hj & Hw & Hb).
    fold tasks q in Ht, Hs, Hj, Hw, Hb.
    split; [rewrite Ht; apply length_fmap|].
    split; [intros i t Hi; rewrite Ht, list_lookup_fmap, Hi; reflexivity|].
    split; [intros t; apply trulyBlocked_iff|].
    split; [exact Hs|]. split; [exact Hj|]. split; [exact Hw|].
    rewrite Hb, !andb_true_iff, negb_true_iff, !bool_decide_eq_true.
    rewrite filter_nil_iff, Ht.
    split.
    + intros [[Hg Hq] Hp]. split; [exact Hg|]. split; [exact Hq|].
      intros t Hin Hst. destruct (trulyBlocked tasks t) eqn:Htb; [reflexivity|].
      specialize (Hp t). rewrite bool_decide_eq_false in Hp.
      exfalso. apply Hp; [|exact Hst].
      apply list_elem_of_fmap. exists t. rewrite Htb. auto.
    + intros (Hg & Hq & Hp). split; [split; assumption|].
      intros t' Hin. apply list_elem_of_fmap in Hin as (t & -> & Hin).
      apply bool_decide_eq_false.
      destruct (trulyBlocked tasks t) eqn:Htb; [discriminate|].
      intros Hst. rewrite (Hp t Hin Hst) in Htb. discriminate.
Qed.

(** X8.  Dependencies that cannot be met stall the loop.  When the run is
    not aborted and not completed, nothing is running, and every pending
    task is neither ready nor behind a failed or cancelled dependency (a
    task that depends on itself, on an identifier no task bears, or tasks
    that wait for each other), a turn of the main loop starts nothing,
    cancels nothing, emits nothing and does not leave the loop: the state
    after the turn is the state before it, whatever the time. *)
Theorem unmet_dependencies_stall_the_loop now p :
  Pipeline.aborted p = false →
  Run.status (Pipeline.run p) ≠ run_completed →
  size (Pipeline.runningTasks p) = 0%nat →
  Exists (λ t, Task.status t = pending) (Run.tasks (Pipeline.run p)) →
  Forall (λ t, Task.status t = pending →
               isReady (Run.tasks (Pipeline.run p)) t = false
               ∧ trulyBlocked (Run.tasks (Pipeline.run p)) t = false)
    (Run.tasks (Pipeline.run p)) →
  spawnReady now p = p
  ∧ handleBlocked now p = (p, false)
  ∧ loopIteration now p = (p, false).
Proof.
  intros Hab Hst Hsize Hex Hall.
  rewrite Forall_forall in Hall. apply Exists_exists in Hex as (t0 & Hin0 & Hp0).
  assert (Hready : getReadyTasks (Pipeline.run p) = []).
  { apply filterRefs_nil. intros t Hin. unfold isReady.
    destruct (decide (Task.status t = pending)) as [Hp | Hp].
    - apply (Hall t Hin Hp).
    - rewrite (bool_decide_eq_false_2 _ Hp). reflexivity. }
  assert (Hblocked : filterRefs (trulyBlocked (Run.tasks (Pipeline.run p))) 0
                       (Run.tasks (Pipeline.run p)) = []).
  { apply filterRefs_nil. intros t Hin. unfold trulyBlocked.
    destruct (decide (Task.status t = pending)) as [Hp | Hp].
    - apply (Hall t Hin Hp).
    - rewrite (bool_decide_eq_false_2 _ Hp). reflexivity. }
  assert (Hspawn : spawnReady now p = p).
  { unfold spawnReady. rewrite Hready. reflexivity. }
  assert (Hhandle : handleBlocked now p = (p, false)).
  { unfold handleBlocked. rewrite Hsize, Hready, Hblocked.
    rewrite !bool_decide_eq_true_2 by reflexivity. cbn [andb].
    assert (Hleft : List.filter (λ t, bool_decide (Task.status t = pending))
                      (Run.tasks (Pipeline.run p)) ≠ []).
    { rewrite filter_nil_iff. intros H. specialize (H t0 Hin0).
      apply bool_decide_eq_false in H. contradiction. }
    rewrite (bool_decide_eq_false_2 _ Hleft), andb_false_r. reflexivity. }
  split; [exact Hspawn|]. split; [exact Hhandle|].
  unfold loopIteration. rewrite Hab, decide_False by exact Hst.
  rewrite Hspawn. exact Hhandle.
Qed.

(** ** Dependencies stay within the run *)

(** A change of the array that keeps, position by position, identifier and
    dependencies keeps the dependencies closed. *)
Lemma depsClosed_pointwise tasks tasks' :
  Forall2 (λ t t', Task.id t' = Task.id t
                   ∧ Task.dependencies t' = Task.dependencies t) tasks tasks' →
  depsClosed tasks → depsClosed tasks'.
Proof.
  intros Hrel Hclosed t' Hin' d Hd.
  assert (Hids : Task.id <$> tasks' = Task.id <$> tasks).
  { clear -Hrel. induction Hrel as [|t t' ts ts' [Hid _] _ IH]; [reflexivity|].
    cbn. rewrite Hid, IH. reflexivity. }
  rewrite Hids.
  apply list_elem_of_lookup in Hin' as [i Hi].
  destruct (Forall2_lookup_r _ _ _ _ _ Hrel Hi) as (t & Ht & _ & Hdeps).
  apply (Hclosed t); [eapply list_elem_of_lookup_2, Ht|].
  rewrite <- Hdeps. exact Hd.
Qed.

Lemma depsClosed_fmap (g : Task.t → Task.t) tasks :
  (∀ t, Task.id (g t) = Task.id t
        ∧ Task.dependencies (g t) = Task.dependencies t) →
  depsClosed tasks → depsClosed (g <$> tasks).
Proof.
  intros Hg. apply depsClosed_pointwise.
  apply Forall2_fmap_r, Forall_Forall2_diag, Forall_forall. intros t _. apply Hg.
Qed.

Lemma depsClosed_alter (g : Task.t → Task.t) i tasks :
  (∀ t, Task.id (g t) = Task.id t
        ∧ Task.dependencies (g t) = Task.dependencies t) →
  depsClosed tasks → depsClosed (alter g i tasks).
Proof.
  intros Hg. apply depsClosed_pointwise.
  apply Forall2_same_length_lookup. split; [rewrite length_alter; reflexivity|].
  intros k t t' Ht Ht'. destruct (decide (k = i)) as [->|Hne].
  - rewrite list_lookup_alter_eq, Ht in Ht'. injection Ht' as <-. apply Hg.
  - rewrite list_lookup_alter_ne, Ht in Ht' by congruence.
    injection Ht' as <-. split; reflexivity.
Qed.

(** Appending tasks whose dependencies are identifiers of what precedes
    them, or of the appended tasks themselves. *)
Lemma depsClosed_app tasks news :
  depsClosed tasks →
  (∀ t, t ∈ news → ∀ d, d ∈ Task.dependencies t →
        d ∈ Task.id <$> (tasks ++ news)) →
  depsClosed (tasks ++ news).
Proof.
  intros Hclosed Hnews t Hin d Hd. apply elem_of_app in Hin as [Hin | Hin].
  - rewrite fmap_app. apply elem_of_app. left. apply (Hclosed t Hin d Hd).
  - apply (Hnews t Hin d Hd).
Qed.

Lemma followUpTasks_closed now jid c tasks nts :
  depsClosed tasks → depsClosed (followUpTasks now jid c tasks nts).
Proof.
  revert c tasks. induction nts as [|nt nts IH]; intros c tasks Hclosed;
    [exact Hclosed|].
  cbn [followUpTasks]. apply IH. apply depsClosed_app; [exact Hclosed|].
  intros t Hin d Hd. apply list_elem_of_singleton in Hin as ->.
  rewrite newTaskOf_dependencies in Hd.
  rewrite fmap_app. apply elem_of_app. left.
  apply (resolveDependencies_ids _ _ _ Hd).
Qed.

Lemma recordJudgement_tasks now task result p :
  Run.tasks (Pipeline.run (recordJudgement now task result p))
  = followUpTasks now (nanoid (Env.idCount (Pipeline.env p)))
      (S (Env.idCount (Pipeline.env p))) (Run.tasks (Pipeline.run p))
      (JudgeResult.newTasks result).
Proof.
  unfold recordJudgement. destruct (JudgeResult.newTasks result) as [|nt nts];
    [reflexivity|].
  cbn [freshId].
  match goal with |- context [foldl ?f ?acc ?l] =>
    pose proof (followUps_tasks now (nanoid (Env.idCount (Pipeline.env p)))
                  l acc) as H;
    destruct (foldl f acc l) as [q ids] end.
  cbn in H. cbn. exact H.
Qed.

(** The tasks after the judge has answered on a task. *)
Lemma judged_tasks now task o p :
  let tasks := Run.tasks (Pipeline.run p) in
  let after := Run.tasks (Pipeline.run (judged now task o p).1) in
  match o with
  | Judged result =>
      let grown :=
        followUpTasks now (nanoid (Env.idCount (Pipeline.env p)))
          (S (Env.idCount (Pipeline.env p))) tasks
          (JudgeResult.newTasks result) in
      after = if JudgeResult.goalComplete result
              then cancelIfPending <$> grown else grown
  | JudgeThrew _ => after = tasks
  end.
Proof.
  destruct o as [result | msg]; cbn zeta.
  - rewrite <- (recordJudgement_tasks now task result p).
    unfold judged, onJudged, concludeJudgement.
    set (r := recordJudgement now task result p).
    destruct (JudgeResult.goalComplete result).
    + destruct (negb _); cbn; [reflexivity|].
      unfold backToExecuting. cbn. destruct (decide _); reflexivity.
    + cbn. unfold backToExecuting. destruct (decide _); reflexivity.
  - unfold judged, onJudgeThrew, backToExecuting. cbn.
    destruct (decide _); reflexivity.
Qed.

Lemma cancelIfPending_shape t :
  Task.id (cancelIfPending t) = Task.id t
  ∧ Task.dependencies (cancelIfPending t) = Task.dependencies t.
Proof. unfold cancelIfPending. destruct (decide _); split; reflexivity. Qed.

Lemma rollbackTask_shape t :
  Task.id (rollbackTask t) = Task.id t
  ∧ Task.dependencies (rollbackTask t) = Task.dependencies t.
Proof. unfold rollbackTask. destruct (decide _); split; reflexivity. Qed.

Lemma settle_shape now o t w b :
  Task.id (settle now o t w b).1.1 = Task.id t
  ∧ Task.dependencies (settle now o t w b).1.1 = Task.dependencies t.
Proof. destruct o; split; reflexivity. Qed.

Lemma spawnLoop_closed now refs p :
  depsClosed (Run.tasks (Pipeline.run p)) →
  depsClosed (Run.tasks (Pipeline.run (spawnLoop now refs p))).
Proof.
  revert p. induction refs as [|ref refs IH]; intros p Hclosed;
    cbn [spawnLoop]; [exact Hclosed|].
  destruct (mustBreak p); [exact Hclosed|]. apply IH.
  rewrite startTask_tasks. apply depsClosed_alter; [|exact Hclosed].
  intros t. split; reflexivity.
Qed.

(** X9.  Dependencies stay within the run.  If every dependency of every
    task is the identifier of a task of the run, as in a run that
    [createRun] has just made, then this still holds after the plan is
    pushed, after a pass that starts ready tasks, after a worker has
    settled, after the judge has answered (whatever the answer: follow-ups,
    goal complete, or an exception), after the dead-end branch, and after
    the roll-back of [stopRun], [pauseRun] and [loadState].  So in such a
    run the look-up of a dependency by identifier never comes back
    empty. *)
Theorem dependencies_stay_within_the_run now p :
  depsClosed (Run.tasks (Pipeline.run p)) →
  (∀ c parsed analysis,
     depsClosed (Run.tasks (pushPlan analysis (planTasks now c parsed)
                              (Pipeline.run p))))
  ∧ depsClosed (Run.tasks (Pipeline.run (spawnReady now p)))
  ∧ (∀ o ti wi b,
       depsClosed (Run.tasks (settleIn now o ti wi (Pipeline.run p) b).1))
  ∧ (∀ task o, depsClosed (Run.tasks (Pipeline.run (judged now task o p).1)))
  ∧ depsClosed (Run.tasks (Pipeline.run (handleBlocked now p).1))
  ∧ depsClosed (rollbackTask <$> Run.tasks (Pipeline.run p))
  ∧ (∀ t d, t ∈ Run.tasks (Pipeline.run p) → d ∈ Task.dependencies t →
       ∃ dep, List.find (λ x, bool_decide (Task.id x = d))
                (Run.tasks (Pipeline.run p)) = Some dep
              ∧ Task.id dep = d).
Proof.
  intros Hclosed. repeat split.
  - intros c parsed analysis. cbn. apply depsClosed_app; [exact Hclosed|].
    intros t Hin d Hd. rewrite fmap_app. apply elem_of_app. right.
    apply (planTasks_closed now c parsed t Hin d Hd).
  - apply spawnLoop_closed, Hclosed.
  - intros o ti wi b. unfold settleIn.
    destruct (Run.tasks (Pipeline.run p) !! ti) as [t|] eqn:Ht; [|exact Hclosed].
    destruct (Run.workers (Pipeline.run p) !! wi) as [w|]; [|exact Hclosed].
    pose proof (settle_shape now o t w b) as Hshape.
    destruct (settle now o t w b) as [[t' w'] b']. cbn in Hshape |- *.
    revert Hclosed. apply depsClosed_pointwise.
    apply Forall2_same_length_lookup. split; [rewrite length_insert; reflexivity|].
    intros k x x' Hx Hx'. destruct (decide (k = ti)) as [->|Hne].
    + rewrite list_lookup_insert_eq in Hx' by (eapply lookup_lt_Some, Ht).
      injection Hx' as <-. rewrite Ht in Hx. injection Hx as <-. exact Hshape.
    + rewrite list_lookup_insert_ne, Hx in Hx' by congruence.
      injection Hx' as <-. split; reflexivity.
  - intros task o. pose proof (judged_tasks now task o p) as H.
    destruct o as [result | msg]; cbn zeta in H; rewrite H; [|exact Hclosed].
    pose proof (followUpTasks_closed now
                  (nanoid (Env.idCount (Pipeline.env p)))
                  (S (Env.idCount (Pipeline.env p))) _
                  (JudgeResult.newTasks result) Hclosed) as Hgrown.
    destruct (JudgeResult.goalComplete result); [|exact Hgrown].
    apply depsClosed_fmap; [apply cancelIfPending_shape | exact Hgrown].
  - destruct (decide (size (Pipeline.runningTasks p) = 0%nat)) as [Hsize | Hsize].
    + destruct (decide (getReadyTasks (Pipeline.run p) = [])) as [Hready | Hready].
      * destruct (handleBlocked_entered now p Hsize Hready) as [-> _].
        apply depsClosed_fmap; [|exact Hclosed].
        intros t. destruct (trulyBlocked _ t); split; reflexivity.
      * unfold handleBlocked.
        rewrite (bool_decide_eq_false_2 _ Hready), andb_false_r. exact Hclosed.
    + unfold handleBlocked. rewrite (bool_decide_eq_false_2 _ Hsize).
      exact Hclosed.
  - apply depsClosed_fmap; [apply rollbackTask_shape | exact Hclosed].
  - intros t d Hin Hd. specialize (Hclosed t Hin d Hd).
    apply list_elem_of_fmap in Hclosed as (dep & -> & Hdep).
    destruct (List.find _ _) as [x|] eqn:Hf.
    + exists x. split; [reflexivity|].
      apply find_some in Hf as [_ Hx]. apply bool_decide_eq_true_1 in Hx. exact Hx.
    + pose proof (find_none _ _ Hf dep ltac:(apply list_elem_of_In, Hdep)) as H.
      cbn beta in H. rewrite bool_decide_eq_true_2 in H by reflexivity.
      discriminate.
Qed.

(** ** Worker slots *)







Lemma find_by_id_lookup (tasks : list Task.t) i t :
  NoDup (Task.id <$> tasks) → tasks !! i = Some t →
  List.find (λ x, bool_decide (Task.id x = Task.id t)) tasks = Some t.
Proof.
  revert i. induction tasks as [|a tasks IH]; intros i Hnd Hi; [discriminate|].
  cbn in Hnd. apply NoDup_cons in Hnd as [Hni Hnd]. destruct i as [|i]; cbn in *.
  - injection Hi as ->. rewrite bool_decide_eq_true_2 by reflexivity. reflexivity.
  - rewrite bool_decide_eq_false_2; [apply (IH i Hnd Hi)|].
    intros Heq. apply Hni. rewrite Heq. apply list_elem_of_fmap.
    exists t. split; [reflexivity|]. eapply list_elem_of_lookup_2, Hi.
Qed.

Lemma find_by_id_insert_other (tasks : list Task.t) i t t' x :
  tasks !! i = Some t → Task.id t' = Task.id t → x ≠ Task.id t →
  List.find (λ y, bool_decide (Task.id y = x)) (<[i := t']> tasks)
  = List.find (λ y, bool_decide (Task.id y = x)) tasks.
Proof.
  revert i. induction tasks as [|a tasks IH]; intros i Hi Hid Hx; [discriminate|].
  destruct i as [|i]; cbn in *.
  - injection Hi as ->.
    rewrite !bool_decide_eq_false_2 by congruence. reflexivity.
  - destruct (bool_decide (Task.id a = x)); [reflexivity|]. apply (IH i Hi Hid Hx).
Qed.

Lemma elem_of_cleanupRunning p x :
  x ∈ Pipeline.runningTasks (cleanupRunning p) ↔
  x ∈ Pipeline.runningTasks p
  ∧ ∀ task, List.find (λ t, bool_decide (Task.id t = x))
              (Run.tasks (Pipeline.run p)) = Some task →
            Task.status task ≠ completed ∧ Task.status task ≠ failed.
Proof.
  unfold cleanupRunning; cbn. rewrite elem_of_filter. split.
  - intros [H Hx]. split; [exact Hx|].
    intros task Hf. rewrite Hf in H. apply orb_false_iff in H as [H1 H2].
    apply bool_decide_eq_false in H1, H2. auto.
  - intros [Hx H]. split; [|exact Hx].
    destruct (List.find _ _) as [task|]; [|reflexivity].
    destruct (H task eq_refl) as [H1 H2].
    rewrite !bool_decide_eq_false_2 by assumption. reflexivity.
Qed.

(** X11.  A settled task leaves the map of running tasks.  The clean-up
    after [Promise.race] touches nothing but the map, and keeps an
    identifier exactly when the first task that bears it is neither
    [completed] nor [failed] (or no task bears it).  With distinct task
    identifiers, once the worker of the task at position [ti] has settled,
    whatever the outcome, the clean-up removes that task's identifier and
    decides on every other identifier as it would have before. *)
Theorem settled_task_leaves_the_map now o ti wi p t w :
  NoDup (Task.id <$> Run.tasks (Pipeline.run p)) →
  Run.tasks (Pipeline.run p) !! ti = Some t →
  Run.workers (Pipeline.run p) !! wi = Some w →
  let settled :=
    Pipeline.set_run
      (settleIn now o ti wi (Pipeline.run p) (Env.bus (Pipeline.env p))).1 p in
  Pipeline.run (cleanupRunning settled) = Pipeline.run settled
  ∧ (Task.id t ∉ Pipeline.runningTasks (cleanupRunning settled))
  ∧ (∀ x, x ≠ Task.id t →
       (x ∈ Pipeline.runningTasks (cleanupRunning settled)
        ↔ x ∈ Pipeline.runningTasks (cleanupRunning p)))
  ∧ (∀ x, x ∈ Pipeline.runningTasks (cleanupRunning p) ↔
          x ∈ Pipeline.runningTasks p
          ∧ ∀ task, task ∈ Run.tasks (Pipeline.run p) → Task.id task = x →
                    Task.status task ≠ completed ∧ Task.status task ≠ failed).
Proof.
  intros Hnd Ht Hw settled.
  assert (Htasks : ∃ t', Run.tasks (Pipeline.run settled)
                         = <[ti := t']> (Run.tasks (Pipeline.run p))
                         ∧ Task.id t' = Task.id t
                         ∧ (Task.status t' = completed ∨ Task.status t' = failed)).
  { unfold settled, settleIn. rewrite Ht, Hw.
    pose proof (settle_shape now o t w (Env.bus (Pipeline.env p))) as [Hid _].
    pose proof (settle_task_status now o t w (Env.bus (Pipeline.env p))) as Hst.
    destruct (settle now o t w _) as [[t' w'] b']. cbn in *.
    exists t'. split; [reflexivity|]. split; [exact Hid|].
    rewrite Hst. destruct o; [left | right]; reflexivity. }
  destruct Htasks as (t' & Htasks & Hid & Hst).
  split; [reflexivity|]. split; [|split].
  - rewrite elem_of_cleanupRunning. intros [_ H].
    assert (Hf : List.find (λ x, bool_decide (Task.id x = Task.id t))
                   (Run.tasks (Pipeline.run settled)) = Some t').
    { rewrite <- Hid. apply (find_by_id_lookup _ ti).
      - rewrite Htasks, list_fmap_insert, Hid, list_insert_id; [exact Hnd|].
        rewrite list_lookup_fmap, Ht. reflexivity.
      - rewrite Htasks. apply list_lookup_insert_eq. eapply lookup_lt_Some, Ht. }
    destruct (H t' Hf) as [H1 H2]. destruct Hst; contradiction.
  - intros x Hx. rewrite !elem_of_cleanupRunning.
    change (Pipeline.runningTasks settled) with (Pipeline.runningTasks p).
    rewrite Htasks, (find_by_id_insert_other _ ti t t' x Ht Hid Hx). reflexivity.
  - intros x. rewrite elem_of_cleanupRunning.
    split; intros [Hin H]; (split; [exact Hin|]).
    + intros task Htask Hx. apply H. rewrite <- Hx.
      apply list_elem_of_lookup in Htask as [i Hi].
      apply (find_by_id_lookup _ i task Hnd Hi).
    + intros task Hf. apply find_some in Hf as [Htask Hx].
      apply bool_decide_eq_true_1 in Hx.
      apply (H task); [apply list_elem_of_In, Htask | exact Hx].
Qed.

(** ** The judge queue *)

Lemma recordJudgement_aborted now task result p :
  Pipeline.aborted (recordJudgement now task result p) = Pipeline.aborted p.
Proof.
  unfold recordJudgement. destruct (JudgeResult.newTasks result) as [|nt nts];
    [reflexivity|].
  cbn [freshId].
  match goal with |- context [foldl ?f ?acc ?l] =>
    pose proof (followUps_frame now (nanoid (Env.idCount (Pipeline.env p)))
                  l acc) as H;
    destruct (foldl f acc l) as [q ids] end.
  destruct H as (_ & _ & _ & _ & _ & _ & Ha & _). cbn in *. exact Ha.
Qed.

(** One answer of the judge, on a run that [beginJudging] has set to
    [judging]. *)
Lemma judged_step now task o p :
  Run.status (Pipeline.run p) = judging →
  let r := judged now task o p in
  (∃ j, Run.judgements (Pipeline.run r.1) = Run.judgements (Pipeline.run p) ++ [j]
        ∧ Judgement.taskId j = TaskRef.id task)
  ∧ Pipeline.aborted r.1 = Pipeline.aborted p
  ∧ Pipeline.judgeQueue r.1 = Pipeline.judgeQueue p
  ∧ (r.2 = true →
     Run.status (Pipeline.run r.1) = run_completed ∧ Pipeline.judging r.1 = false)
  ∧ (r.2 = false → Run.status (Pipeline.run r.1) = executing).
Proof.
  intros Hst. destruct o as [result | msg]; cbn zeta.
  - unfold judged, onJudged.
    destruct (recordJudgement_frame now task result p)
      as ((j & Hj & Hid & _) & Hs & Hq & _).
    pose proof (recordJudgement_aborted now task result p) as Ha.
    set (r := recordJudgement now task result p) in *. clearbody r.
    unfold concludeJudgement.
    destruct (JudgeResult.goalComplete result).
    + destruct (negb _); cbn.
      * rewrite Hj, Ha, Hq. split; [eauto|]. repeat split; discriminate.
      * unfold backToExecuting. cbn. rewrite Hs, Hst.
        rewrite decide_True by reflexivity. cbn. rewrite Hj, Ha, Hq.
        split; [eauto|]. repeat split; discriminate.
    + cbn. unfold backToExecuting. rewrite Hs, Hst.
      rewrite decide_True by reflexivity. cbn. rewrite Hj, Ha, Hq.
      split; [eauto|]. repeat split; discriminate.
  - unfold judged, onJudgeThrew, backToExecuting. cbn. rewrite Hst.
    rewrite decide_True by reflexivity. cbn.
    split; [eexists; split; reflexivity|]. repeat split; discriminate.
Qed.

Lemma drain_spec now judge queue p :
  Pipeline.aborted p = false →
  let q := drain now judge queue p in
  ∃ js, Run.judgements (Pipeline.run q) = Run.judgements (Pipeline.run p) ++ js
        ∧ Judgement.taskId <$> js = TaskRef.id <$> take (length js) queue
        ∧ Pipeline.judging q = false
        ∧ (queue ≠ [] →
           Pipeline.judgeQueue q = drop (length js) queue
           ∧ (Run.status (Pipeline.run q) = executing
              ∧ length js = length queue
              ∨ Run.status (Pipeline.run q) = run_completed)).
Proof.
  revert p. induction queue as [|task rest IH]; intros p Hab; cbn zeta.
  - exists []. cbn. rewrite app_nil_r. do 3 (split; [reflexivity|]).
    intros H. destruct (H eq_refl).
  - cbn [drain]. rewrite Hab.
    destruct (beginJudging_frame now task rest p)
      as (Hj0 & _ & Hs0 & _ & _ & Hq0 & Ha0 & _).
    set (p1 := beginJudging now task (Pipeline.set_judgeQueue rest p)) in *.
    destruct (judged_step now task (judge (Pipeline.run p1) task) p1 Hs0)
      as ((j & Hj & Hid) & Ha & Hq & Hret & Hgo).
    destruct (judged now task (judge (Pipeline.run p1) task) p1)
      as [q1 returned]. cbn [fst snd] in *.
    rewrite Hj0 in Hj. rewrite Ha0 in Ha. rewrite Hq0 in Hq.
    destruct returned.
    + destruct (Hret eq_refl) as [Hs Hg].
      exists [j]. split; [exact Hj|].
      split; [cbn; rewrite Hid; reflexivity|]. split; [exact Hg|].
      intros _. split; [exact Hq | right; exact Hs].
    + specialize (Hgo eq_refl).
      destruct (IH q1 ltac:(congruence)) as (js & Hjs & Hids & Hg & Hrest).
      exists (j :: js).
      split; [rewrite Hjs, Hj, <- app_assoc; reflexivity|].
      split; [cbn; rewrite Hid, Hids; reflexivity|]. split; [exact Hg|].
      intros _. destruct rest as [|task' rest'].
      * assert (js = []) as ->.
        { destruct js; [reflexivity|]. rewrite take_nil in Hids. discriminate. }
        split; [exact Hq|]. left. split; [exact Hgo | reflexivity].
      * destruct (Hrest ltac:(discriminate)) as [Hq' Hs'].
        split; [exact Hq'|].
        destruct Hs' as [[Hs Hl] | Hs]; [left | right; exact Hs].
        split; [exact Hs|]. cbn. rewrite Hl. reflexivity.
Qed.

(** X12.  The judge queue is worked off in order, one judgement per task.
    [processJudgeQueue] does nothing while another call of it is at work.
    Otherwise, with the abort signal fired it only clears the [judging]
    flag; with the signal not fired it appends one judgement per task it
    has taken from the queue, in queue order and bearing that task's
    identifier, leaves what it has not taken in the queue, and ends with
    the [judging] flag cleared.  Of a queue that is not empty it either
    takes every task and leaves the run [executing], or stops after a
    judgement with the run [completed]; it never leaves the run
    [judging]. *)
Theorem judge_queue_is_worked_off_in_order now judge p :
  let queue := Pipeline.judgeQueue p in
  let q := processJudgeQueue now judge p in
  (Pipeline.judging p = true → q = p)
  ∧ (Pipeline.judging p = false → Pipeline.aborted p = true →
     q = Pipeline.set_judging false (Pipeline.set_judging true p))
  ∧ (Pipeline.judging p = false → Pipeline.aborted p = false →
     ∃ js,
       Run.judgements (Pipeline.run q) = Run.judgements (Pipeline.run p) ++ js
       ∧ Judgement.taskId <$> js = TaskRef.id <$> take (length js) queue
       ∧ Pipeline.judging q = false
       ∧ (queue ≠ [] →
          Pipeline.judgeQueue q = drop (length js) queue
          ∧ (Run.status (Pipeline.run q) = executing
             ∧ length js = length queue
             ∨ Run.status (Pipeline.run q) = run_completed))).
Proof.
  intros queue q. unfold q, processJudgeQueue. fold queue. split; [|split].
  - intros ->. reflexivity.
  - intros -> Hab. destruct queue as [|task rest]; [reflexivity|].
    cbn [drain]. cbn. rewrite Hab. reflexivity.
  - intros -> Hab.
    apply (drain_spec now judge queue (Pipeline.set_judging true p) Hab).
Qed.

(** ** Saving and loading *)

Lemma str_or_Some s : str_or (Some s) "" = s.
Proof. destruct s; reflexivity. Qed.

Lemma ofRawWorker_written w : ofRawWorker (writtenWorker w) = w.
Proof. destruct w; reflexivity. Qed.

Lemma Run_eta (r : Run.t) :
  Run.mk (Run.id r) (Run.goal r) (Run.targetDir r) (Run.status r)
    (Run.analysis r) (Run.tasks r) (Run.judgements r) (Run.workers r)
    (Run.maxWorkers r) (Run.createdAt r) (Run.completedAt r) (Run.error r)
  = r.
Proof. destruct r; reflexivity. Qed.

Lemma loadRun_written now data e :
  loadRun now (writtenRun data) e = (Some (restoredAt now data), e).
Proof.
  unfold loadRun, writtenRun, restoredAt. cbn -[str_or].
  rewrite str_or_Some, <- list_fmap_compose.
  f_equal. f_equal. destruct data; cbn.
  unfold Run.set_tasks, Run.set_workers, Run.set_status; cbn. f_equal.
  apply list_fmap_ext. intros i w _. cbn. rewrite ofRawWorker_written. reflexivity.
Qed.

Lemma slice_last_idemp {A} (n : nat) (l : list A) :
  slice_last n (slice_last n l) = slice_last n l.
Proof. apply slice_last_short, slice_last_length. Qed.

Lemma saveRun_idemp run : saveRun (saveRun run) = saveRun run.
Proof.
  unfold saveRun. destruct run; cbn -[slice_last].
  unfold Run.set_workers; cbn -[slice_last]. f_equal.
  rewrite <- list_fmap_compose. apply list_fmap_ext. intros i w _.
  destruct w; cbn -[slice_last].
  unfold Worker.set_activity, Worker.set_logs; cbn -[slice_last].
  rewrite !slice_last_idemp. reflexivity.
Qed.

(** X13.  Saving and loading.  The record [saveRun] writes is the run with
    each worker's logs and activity cut to their last 100 entries, and
    writing is idempotent.  Reading that record back, [loadState] stores
    under the run's identifier the run it was given, with those cuts, an
    active status turned into [paused], running workers failed at the time
    of loading and [in_progress] tasks rolled back; the identifier supply
    is not used.  A run at rest (not active, no worker running, no task in
    progress) whose workers hold at most 100 log and activity entries comes
    back exactly as it was. *)
Theorem saved_run_is_loaded_back now run s :
  let loaded := loadState now [Parsed (writtenRun (saveRun run))] s in
  saveRun (saveRun run) = saveRun run
  ∧ getRun (Run.id run) loaded = Some (restoredAt now (saveRun run))
  ∧ (∀ id, id ≠ Run.id run → getRun id loaded = getRun id s)
  ∧ Store.env loaded = Store.env s
  ∧ Run.tasks (restoredAt now (saveRun run)) = rollbackTask <$> Run.tasks run
  ∧ Run.judgements (restoredAt now (saveRun run)) = Run.judgements run
  ∧ (reconciled run →
     Forall (λ w, (length (Worker.logs w) ≤ 100)%nat
                  ∧ (length (Worker.activity w) ≤ 100)%nat) (Run.workers run) →
     restoredAt now (saveRun run) = run).
Proof.
  intros loaded.
  assert (Hloaded : loaded
                    = Store.mk (<[Run.id run := restoredAt now (saveRun run)]>
                                  (Store.runs s))
                        (Store.runAborts s) (Store.env s)).
  { unfold loaded, loadState. cbn [foldl]. unfold loadFile.
    rewrite loadRun_written. reflexivity. }
  split; [|split; [|split; [|split; [|split; [|split]]]]].
  - apply saveRun_idemp.
  - rewrite Hloaded. unfold getRun. cbn. apply lookup_insert_eq.
  - intros id Hid. rewrite Hloaded. unfold getRun. cbn.
    apply lookup_insert_ne. congruence.
  - rewrite Hloaded. reflexivity.
  - reflexivity.
  - reflexivity.
  - intros (Hst & Hws & Hts) Hshort.
    rewrite <- (Run_eta run) at 2. unfold restoredAt, saveRun.
    unfold Run.set_tasks, Run.set_workers, Run.set_status.
    cbn -[slice_last]. f_equal.
    + destruct (Run.status run); try reflexivity;
        exfalso; apply Hst; repeat first [ left | right ].
    + rewrite <- (list_fmap_id (Run.tasks run)) at 2.
      apply Forall_fmap_ext_1. eapply Forall_impl; [exact Hts|].
      intros t Ht. apply rollbackTask_other, Ht.
    + rewrite <- list_fmap_compose.
      rewrite <- (list_fmap_id (Run.workers run)) at 2.
      apply Forall_fmap_ext_1.
      rewrite Forall_forall in Hws, Hshort. apply Forall_forall.
      intros w Hw. cbn -[slice_last]. destruct (Hshort w Hw) as [Hl Ha].
      rewrite !slice_last_short by assumption.
      destruct w; cbn in *. apply failRunning_other. apply (Hws _ Hw).
Qed.

(** ** The worker's activity summary *)


Lemma substring_length n s : (String.length (String.substring 0 n s) ≤ n)%nat.
Proof.
  revert s. induction n as [|n IH]; intros [|c s]; cbn; try lia.
  specialize (IH s). lia.
Qed.

Lemma append_length (a b : string) :
  String.length (a +:+ b) = (String.length a + String.length b)%nat.
Proof.
  induction a as [|c a IH]; [reflexivity|].
  change (String c a +:+ b) with (String c (a +:+ b)).
  cbn [String.length]. rewrite IH. reflexivity.
Qed.


(** ** Model configuration *)

Lemma prefix_includes sub s : String.prefix sub s = true → includes sub s = true.
Proof. destruct s; cbn; [auto|]. intros ->. reflexivity. Qed.

Lemma str_or_nonempty x d : d ≠ "" → str_or x d ≠ "".
Proof. intros Hd. destruct x as [[|c s]|]; cbn; [exact Hd | discriminate | exact Hd]. Qed.

(** X15.  Which provider serves a model, and which model is used.  A model
    identifier goes to Google exactly when it contains "gemini" and does
    not start with "claude"; every other identifier, recognised or not,
    goes to Anthropic.  The planner and worker model identifiers are never
    empty: an environment variable that is unset or empty falls back to
    [MODEL], and that to "claude-opus-4-6". *)
Theorem provider_follows_the_model_name (modelId : string) (env : ProcessEnv.t) :
  (detectProvider modelId = google ↔
   includes "gemini" modelId = true ∧ String.prefix "claude" modelId = false)
  ∧ (detectProvider modelId = anthropic ↔
     includes "gemini" modelId = false ∨ String.prefix "claude" modelId = true)
  ∧ getPlannerModelId env ≠ ""
  ∧ getWorkerModelId env ≠ ""
  ∧ (ProcessEnv.WORKER_MODEL env = None ∨ ProcessEnv.WORKER_MODEL env = Some "" →
     getWorkerModelId env = getDefaultModelId env)
  ∧ (ProcessEnv.MODEL env = None ∨ ProcessEnv.MODEL env = Some "" →
     getDefaultModelId env = "claude-opus-4-6"
     ∧ detectProvider (getDefaultModelId env) = anthropic).
Proof.
  assert (Hexcl : String.prefix "gemini" modelId = true →
                  String.prefix "claude" modelId = false).
  { destruct modelId as [|c s]; [discriminate|]. cbn [String.prefix].
    destruct (Ascii.ascii_dec _ c) as [<-|];
      [intros _; reflexivity | discriminate]. }
  assert (Hdefault : getDefaultModelId env ≠ "")
    by (apply str_or_nonempty; discriminate).
  split; [|split; [|split; [|split; [|split]]]].
  - unfold detectProvider.
    destruct (String.prefix "gemini" modelId) eqn:Hg.
    + rewrite (prefix_includes _ _ Hg), (Hexcl eq_refl). tauto.
    + destruct (String.prefix "claude" modelId) eqn:Hc.
      * split; [discriminate | intros [_ H]; discriminate].
      * destruct (includes "gemini" modelId); [tauto|].
        destruct (_ || _); split; (discriminate || intros [H _]; discriminate).
  - unfold detectProvider.
    destruct (String.prefix "gemini" modelId) eqn:Hg.
    + rewrite (prefix_includes _ _ Hg), (Hexcl eq_refl).
      split; [discriminate | intros [H | H]; discriminate].
    + destruct (String.prefix "claude" modelId) eqn:Hc; [tauto|].
      destruct (includes "gemini" modelId).
      * split; [discriminate | intros [H | H]; discriminate].
      * destruct (_ || _); tauto.
  - apply str_or_nonempty, Hdefault.
  - apply str_or_nonempty, Hdefault.
  - unfold getWorkerModelId. intros [-> | ->]; reflexivity.
  - unfold getDefaultModelId. intros [-> | ->]; split; reflexivity.
Qed.

(** ** A resume that overlaps the end of the previous pipeline *)




(** ** A judgement and the tasks it spawns *)

Lemma spawnFollowUp_ids now jid acc nt :
  (spawnFollowUp now jid acc nt).2
  = acc.2 ++ [nanoid (Env.idCount (Pipeline.env acc.1))].
Proof.
  destruct acc as [p ids]. unfold spawnFollowUp. cbn [freshId fst snd].
  f_equal. f_equal. apply newTaskOf_fields.
Qed.

Lemma followUps_spec now jid nts acc :
  let r := foldl (spawnFollowUp now jid) acc nts in
  ∃ news,
    Run.tasks (Pipeline.run r.1) = Run.tasks (Pipeline.run acc.1) ++ news
    ∧ r.2 = acc.2 ++ (Task.id <$> news)
    ∧ Task.id <$> news
      = nanoid <$> seq (Env.idCount (Pipeline.env acc.1)) (length nts)
    ∧ Forall2 (λ nt t, Task.title t = NewTask.title nt
                       ∧ Task.spawnedBy t = Some jid
                       ∧ Task.status t = pending) nts news
    ∧ Env.idCount (Pipeline.env r.1)
      = (Env.idCount (Pipeline.env acc.1) + length nts)%nat.
Proof.
  revert acc. induction nts as [|nt nts IH]; intros acc; cbn zeta.
  - exists []. cbn. rewrite !app_nil_r, Nat.add_0_r. repeat split. constructor.
  - cbn [foldl].
    destruct (IH (spawnFollowUp now jid acc nt))
      as (news & Ht & Hids & Hseq & Hall & Hc).
    destruct (spawnFollowUp_tasks now jid acc nt) as [Ht1 Hc1].
    pose proof (spawnFollowUp_ids now jid acc nt) as Hids1.
    set (new := newTaskOf now jid (nanoid (Env.idCount (Pipeline.env acc.1)))
                  (Run.tasks (Pipeline.run acc.1)) nt) in *.
    destruct (newTaskOf_fields now jid (nanoid (Env.idCount (Pipeline.env acc.1)))
                (Run.tasks (Pipeline.run acc.1)) nt) as (Hid & Htitle & Hst & Hsp).
    fold new in Hid, Htitle, Hst, Hsp.
    exists (new :: news).
    split; [rewrite Ht, Ht1, <- app_assoc; reflexivity|].
    split; [rewrite Hids, Hids1, <- app_assoc, fmap_cons, Hid; reflexivity|].
    split; [rewrite fmap_cons, Hid, Hseq, Hc1; reflexivity|].
    split; [constructor; [auto | exact Hall]|].
    rewrite Hc, Hc1. cbn [length]. lia.
Qed.

Lemma filter_all {A} (f : A → bool) (l : list A) :
  (∀ x, x ∈ l → f x = true) → List.filter f l = l.
Proof.
  induction l as [|a l IH]; intros H; cbn; [reflexivity|].
  rewrite (H a) by left. f_equal. apply IH. intros x Hx. apply H. right. exact Hx.
Qed.

(** X17.  A judgement and the tasks it spawns.  Recording the judge's
    answer appends to [run.tasks] one pending task per requested follow-up,
    in order, titled as requested and marked [spawnedBy] with the
    judgement's identifier, and appends to [run.judgements] one judgement
    for the judged task whose [newTaskIds] are the identifiers of exactly
    these tasks.  The judgement takes the next identifier of the supply and
    the follow-ups the ones after it.  Hence, when task identifiers are
    distinct, the tasks of the run whose identifier is among the
    judgement's [newTaskIds], which is what the judgement card shows, are
    exactly the tasks this judgement spawned. *)
Theorem judgement_lists_the_tasks_it_spawned now task result p :
  let q := recordJudgement now task result p in
  let c := Env.idCount (Pipeline.env p) in
  ∃ j news,
    Run.judgements (Pipeline.run q) = Run.judgements (Pipeline.run p) ++ [j]
    ∧ Run.tasks (Pipeline.run q) = Run.tasks (Pipeline.run p) ++ news
    ∧ Judgement.id j = nanoid c
    ∧ Judgement.taskId j = TaskRef.id task
    ∧ Judgement.newTaskIds j = Task.id <$> news
    ∧ Task.id <$> news
      = nanoid <$> seq (S c) (length (JudgeResult.newTasks result))
    ∧ Forall2 (λ nt t, Task.title t = NewTask.title nt
                       ∧ Task.spawnedBy t = Some (Judgement.id j)
                       ∧ Task.status t = pending)
        (JudgeResult.newTasks result) news
    ∧ Env.idCount (Pipeline.env q)
      = (S c + length (JudgeResult.newTasks result))%nat
    ∧ (NoDup (Task.id <$> Run.tasks (Pipeline.run q)) →
       List.filter (λ t, bool_decide (Task.id t ∈ Judgement.newTaskIds j))
         (Run.tasks (Pipeline.run q)) = news).
Proof.
  intros q c.
  assert (H : ∃ j news,
    Run.judgements (Pipeline.run q) = Run.judgements (Pipeline.run p) ++ [j]
    ∧ Run.tasks (Pipeline.run q) = Run.tasks (Pipeline.run p) ++ news
    ∧ Judgement.id j = nanoid c
    ∧ Judgement.taskId j = TaskRef.id task
    ∧ Judgement.newTaskIds j = Task.id <$> news
    ∧ Task.id <$> news
      = nanoid <$> seq (S c) (length (JudgeResult.newTasks result))
    ∧ Forall2 (λ nt t, Task.title t = NewTask.title nt
                       ∧ Task.spawnedBy t = Some (Judgement.id j)
                       ∧ Task.status t = pending)
        (JudgeResult.newTasks result) news
    ∧ Env.idCount (Pipeline.env q)
      = (S c + length (JudgeResult.newTasks result))%nat).
  { subst q c. unfold recordJudgement.
    destruct (JudgeResult.newTasks result) as [|nt nts] eqn:Hnts.
    - eexists _, []. cbn. rewrite app_nil_r, Nat.add_0_r.
      repeat split; try reflexivity. constructor.
    - cbn [freshId].
      match goal with |- context [foldl ?f ?acc ?l] =>
        destruct (followUps_spec now (nanoid (Env.idCount (Pipeline.env p))) l acc)
          as (news & Ht & Hids & Hseq & Hall & Hc);
        destruct (followUps_frame now (nanoid (Env.idCount (Pipeline.env p))) l acc)
          as (Hjs & _);
        destruct (foldl f acc l) as [r ids] end.
      cbn [fst snd] in *. cbn in Ht, Hseq, Hc, Hjs. cbn in Hids. subst ids.
      eexists _, news. cbn. rewrite Ht, Hjs.
      split; [reflexivity|]. split; [reflexivity|]. split; [reflexivity|].
      split; [reflexivity|]. split; [reflexivity|]. split; [exact Hseq|].
      split; [exact Hall | exact Hc]. }
  destruct H as (j & news & Hj & Ht & Hid & Htid & Hnew & Hseq & Hall & Hc).
  exists j, news. repeat (split; [assumption|]).
  intros Hnd. rewrite Ht, Hnew. rewrite Ht, fmap_app in Hnd.
  apply NoDup_app in Hnd as (_ & Hdisj & _).
  rewrite List.filter_app.
  assert (Hold : List.filter (λ t, bool_decide (Task.id t ∈ Task.id <$> news))
                   (Run.tasks (Pipeline.run p)) = []).
  { apply filter_nil_iff. intros t Hin. apply bool_decide_eq_false_2.
    apply Hdisj, list_elem_of_fmap. exists t. auto. }
  rewrite Hold. cbn [app]. apply filter_all. intros t Hin.
  apply bool_decide_eq_true_2, list_elem_of_fmap. exists t. auto.
Qed.

(** ** Skills *)

Lemma find_app {A} (f : A → bool) (l k : list A) :
  List.find f (l ++ k)
  = match List.find f l with Some x => Some x | None => List.find f k end.
Proof.
  induction l as [|a l IH]; cbn; [reflexivity|]. destruct (f a); [reflexivity | exact IH].
Qed.

Lemma find_filter {A} (f g : A → bool) (l : list A) :
  (∀ x, x ∈ l → f x = true → g x = true) →
  List.find f (List.filter g l) = List.find f l.
Proof.
  induction l as [|a l IH]; intros H; cbn; [reflexivity|].
  destruct (g a) eqn:Hg; cbn.
  - destruct (f a); [reflexivity|]. apply IH. intros x Hx. apply H. right. exact Hx.
  - destruct (f a) eqn:Hf.
    + rewrite (H a) in Hg by (left || exact Hf). discriminate.
    + apply IH. intros x Hx. apply H. right. exact Hx.
Qed.

Lemma find_none_iff {A} (f : A → bool) (l : list A) :
  List.find f l = None ↔ ∀ x, x ∈ l → f x = false.
Proof.
  induction l as [|a l IH]; cbn.
  - split; [intros _ x Hx; apply elem_of_nil in Hx as [] | reflexivity].
  - destruct (f a) eqn:Ha; split.
    + discriminate.
    + intros H. rewrite (H a) in Ha by left. discriminate.
    + intros H x Hx. apply elem_of_cons in Hx as [-> | Hx]; [exact Ha|].
      apply IH; assumption.
    + intros H. apply IH. intros x Hx. apply H. right. exact Hx.
Qed.

Lemma elem_of_List_filter {A} (f : A → bool) (l : list A) x :
  x ∈ List.filter f l ↔ x ∈ l ∧ f x = true.
Proof. rewrite !list_elem_of_In. apply filter_In. Qed.

(** X18.  Skills shadow commands, and a hidden skill can still be loaded.
    In the list [loadSkills] returns, every skill of the skills directory
    is kept and a command is kept exactly when no skill of the skills
    directory has its name; so looking a name up yields the skill of the
    skills directory if there is one, and the command otherwise.  The
    summary put in the system prompt lists exactly the skills with
    [disableModelInvocation] false and is empty when there is none; but the
    [skill] tool does not test that flag: it returns the content of the
    first skill with the requested name, hidden or not. *)
Theorem skills_shadow_commands skills commands name :
  let all := mergeSkills skills commands in
  getSkillContent all name
  = match getSkillContent skills name with
    | Some content => Some content
    | None => getSkillContent commands name
    end
  ∧ (∀ s, s ∈ all ↔
          s ∈ skills
          ∨ (s ∈ commands ∧ ∀ k, k ∈ skills → Skill.name k ≠ Skill.name s))
  ∧ (∀ s, s ∈ modelSkills all ↔ s ∈ all ∧ Skill.disableModelInvocation s = false)
  ∧ (buildSkillsSummary all = "" ↔
     ∀ s, s ∈ all → Skill.disableModelInvocation s = true)
  ∧ (∀ s, List.find (λ s, bool_decide (Skill.name s = name)) all = Some s →
          executeSkillTool name all
          = "# Skill: " +:+ name +:+ newline +:+ newline +:+ Skill.content s)
  ∧ ((∀ s, s ∈ all → Skill.name s ≠ name) →
     getSkillContent all name = None).
Proof.
  intros all.
  assert (Hfind : List.find (λ s, bool_decide (Skill.name s = name)) all
                  = match List.find (λ s, bool_decide (Skill.name s = name)) skills with
                    | Some x => Some x
                    | None => List.find (λ s, bool_decide (Skill.name s = name)) commands
                    end).
  { unfold all, mergeSkills. rewrite find_app.
    destruct (List.find _ skills) as [x|] eqn:Hs; [reflexivity|].
    apply find_filter. intros x _ Hx. apply bool_decide_eq_true_1 in Hx.
    apply negb_true_iff, bool_decide_eq_false_2.
    intros Hin. apply list_elem_of_fmap in Hin as (k & Hk & Hin).
    rewrite find_none_iff in Hs. specialize (Hs k Hin).
    apply bool_decide_eq_false in Hs. congruence. }
  split; [|split; [|split; [|split; [|split]]]].
  - unfold getSkillContent. rewrite Hfind.
    destruct (List.find _ skills); reflexivity.
  - intros s. unfold all, mergeSkills.
    rewrite elem_of_app, elem_of_List_filter.
    rewrite negb_true_iff, bool_decide_eq_false, list_elem_of_fmap.
    split; (intros [H | [H1 H2]]; [left; exact H | right; split; [exact H1|]]).
    + intros k Hk Heq. apply H2. exists k. auto.
    + intros (k & Heq & Hk). apply (H2 k Hk). congruence.
  - intros s. unfold modelSkills.
    rewrite elem_of_List_filter, negb_true_iff. reflexivity.
  - unfold buildSkillsSummary.
    destruct (modelSkills all) as [|s0 listed] eqn:Hm.
    + split; [|reflexivity]. intros _ s Hs.
      unfold modelSkills in Hm. rewrite filter_nil_iff in Hm.
      specialize (Hm s Hs). apply negb_false_iff in Hm. exact Hm.
    + split.
      * intros H. apply (f_equal String.length) in H.
        cbn [app String.concat] in H. rewrite append_length in H. cbn in H. lia.
      * intros H. assert (Hin : s0 ∈ modelSkills all) by (rewrite Hm; left).
        unfold modelSkills in Hin. apply elem_of_List_filter in Hin as [Hin Hd].
        rewrite (H s0 Hin) in Hd. discriminate.
  - intros s Hs. unfold executeSkillTool, getSkillContent. rewrite Hs. reflexivity.
  - intros H. unfold getSkillContent.
    replace (List.find _ all) with (@None Skill.t); [reflexivity|].
    symmetry. apply find_none_iff. intros s Hs.
    apply bool_decide_eq_false_2, H, Hs.
Qed.

(** ** Reading a file in windows *)

Lemma jsSlice_window {A} (a b : Z) (l : list A) :
  0 ≤ a → a ≤ b →
  jsSlice a b l = take (Z.to_nat (b - a)) (drop (Z.to_nat a) l).
Proof.
  intros Ha Hab. unfold jsSlice.
  rewrite !decide_False by lia.
  destruct (decide (Z.of_nat (length l) ≤ a)) as [Hout | Hin].
  - rewrite !drop_ge by lia. rewrite !take_nil. reflexivity.
  - rewrite (Z.min_l a) by lia.
    destruct (decide (b ≤ Z.of_nat (length l))) as [Hb | Hb].
    + rewrite Z.min_l by lia. reflexivity.
    + rewrite Z.min_r by lia. rewrite !take_ge; [reflexivity | |];
        rewrite length_drop; lia.
Qed.

(** X19.  Reading a file in windows.  With an offset that is not negative
    and a limit that is not negative (an absent or zero offset reads as 0,
    an absent or zero limit as 2000), [executeRead] shows the lines
    [offset .. offset + limit - 1] of the file, clamped to its end: at most
    [limit] lines, the [k]-th of them being line [offset + k] of the file,
    numbered [offset + k + 1] and cut after 2000 characters.  The note that
    more can be read is appended exactly when lines remain after the
    window, and two adjacent windows show together what the window that
    spans both shows.  A tool result is never longer than 60000 characters
    plus the truncation mark. *)
Theorem read_shows_the_requested_window offset limit (allLines : list string) :
  let off := num_or offset 0 in
  let lim := num_or limit MAX_FILE_LINES in
  let shown := shownLines offset limit allLines in
  0 ≤ off → 0 ≤ lim →
  shown = take (Z.to_nat lim) (drop (Z.to_nat off) allLines)
  ∧ (length shown ≤ Z.to_nat lim)%nat
  ∧ (limit = None ∨ limit = Some 0 → (length shown ≤ 2000)%nat)
  ∧ (∀ k line, shown !! k = Some line →
       allLines !! (Z.to_nat off + k)%nat = Some line
       ∧ imap (numberLine off) shown !! k
         = Some (padStart 5 (pretty (off + Z.of_nat k + 1)) +:+ "| "
                 +:+ truncateLine line)
       ∧ (String.length (truncateLine line) ≤ 2003)%nat)
  ∧ (is_Some (readFooter offset limit allLines) ↔
     (Z.to_nat off + length shown < length allLines)%nat
     ∧ length shown = Z.to_nat lim)
  ∧ (∀ lim', 0 ≤ lim' →
       jsSlice off (off + lim) allLines
       ++ jsSlice (off + lim) (off + lim + lim') allLines
       = jsSlice off (off + (lim + lim')) allLines)
  ∧ (∀ output, Z.of_nat (String.length (truncateResult output)) ≤ 60016
               ∧ (Z.of_nat (String.length output) ≤ 60000 →
                  truncateResult output = output)).
Proof.
  intros off lim shown Hoff Hlim.
  assert (Hshown : shown = take (Z.to_nat lim) (drop (Z.to_nat off) allLines)).
  { unfold shown, shownLines. fold off lim. rewrite jsSlice_window by lia.
    f_equal. lia. }
  assert (Hlen : length shown
                 = (Z.to_nat lim `min` (length allLines - Z.to_nat off))%nat).
  { rewrite Hshown, length_take, length_drop. reflexivity. }
  split; [exact Hshown|]. split; [lia|]. split; [|split; [|split; [|split]]].
  - intros Hdef. assert (lim = 2000) as Hl
      by (unfold lim; destruct Hdef as [-> | ->]; reflexivity).
    rewrite Hl in Hlen. lia.
  - intros k line Hk. split; [|split].
    + rewrite Hshown in Hk. apply lookup_take_Some in Hk as [Hk _].
      rewrite lookup_drop in Hk. exact Hk.
    + rewrite list_lookup_imap, Hk. reflexivity.
    + unfold truncateLine. destruct (decide _) as [Hlong | Hshort].
      * rewrite append_length.
        pose proof (substring_length (Z.to_nat MAX_LINE_CHARS) line) as H.
        change (String.length "...") with 3%nat.
        unfold MAX_LINE_CHARS in *. lia.
      * unfold MAX_LINE_CHARS in Hshort. lia.
  - unfold readFooter. fold off lim. destruct (decide _) as [Hmore | Hdone].
    + split; [intros _; lia | intros _; eexists; reflexivity].
    + split; [intros [x Hx]; discriminate | intros [H1 H2]; lia].
  - intros lim' Hlim'. rewrite !jsSlice_window by lia.
    replace (Z.to_nat (off + lim)) with (Z.to_nat off + Z.to_nat lim)%nat by lia.
    rewrite <- drop_drop.
    replace (Z.to_nat (off + (lim + lim') - off))
      with (Z.to_nat lim + Z.to_nat lim')%nat by lia.
    replace (Z.to_nat (off + lim - off)) with (Z.to_nat lim) by lia.
    replace (Z.to_nat (off + lim + lim' - (off + lim))) with (Z.to_nat lim') by lia.
    apply take_take_drop.
  - intros output. unfold truncateResult. split.
    + destruct (decide _) as [Hlong | Hshort].
      * rewrite !append_length.
        pose proof (substring_length (Z.to_nat MAX_TOOL_RESULT_CHARS) output) as H.
        change (String.length newline) with 1%nat.
        change (String.length "... (truncated)") with 15%nat.
        unfold MAX_TOOL_RESULT_CHARS in *. lia.
      * unfold MAX_TOOL_RESULT_CHARS in Hshort. lia.
    + intros Hshort. rewrite decide_False; [reflexivity|].
      unfold MAX_TOOL_RESULT_CHARS. lia.
Qed.

(** ** HTTP routes *)

(** X20.  What the routes answer.  For an unknown run, [GET /api/runs/:id]
    answers 404, whereas the stop, pause and resume routes answer 500 with
    the message of the exception, and nothing is changed.  For a run that
    exists, stop always answers 200; pause answers 200 exactly when the run
    is active and resume exactly when it is paused or stopped, and 500
    otherwise.  [POST /api/runs] answers 400 and creates nothing when the
    goal or the directory is missing or empty or the resolved directory
    does not exist; otherwise it answers 200 with the new run, stored under
    a fresh identifier, without tasks and already [planning], for which
    [startRun] has registered an abort controller; the other runs are
    untouched. *)
Theorem routes_report_what_the_calls_throw
    (resolve : string → string) (existsSync : string → bool)
    now id goal targetDir maxWorkers s :
  (getRun id s = None →
   getRunRoute id s = RepliedError 404 "Run not found"
   ∧ actionRoute (stopRun now id) s
     = (RepliedError 500 ("Run " +:+ id +:+ " not found"), s)
   ∧ actionRoute (pauseRun now id) s
     = (RepliedError 500 ("Run " +:+ id +:+ " not found"), s)
   ∧ actionRoute (resumeRun now id) s
     = (RepliedError 500 ("Run " +:+ id +:+ " not found"), s))
  ∧ (∀ run, getRun id s = Some run →
       getRunRoute id s = RepliedRun 200 run
       ∧ (actionRoute (stopRun now id) s).1 = Replied 200
       ∧ (if isActive (Run.status run)
          then (actionRoute (pauseRun now id) s).1 = Replied 200
          else actionRoute (pauseRun now id) s
               = (RepliedError 500
                    ("Run " +:+ id +:+ " is " +:+ runStatusName (Run.status run)
                     +:+ ", can only pause active runs"), s))
       ∧ (if decide (Run.status run = paused ∨ Run.status run = stopped)
          then (actionRoute (resumeRun now id) s).1 = Replied 200
          else actionRoute (resumeRun now id) s
               = (RepliedError 500
                    ("Run " +:+ id +:+ " is " +:+ runStatusName (Run.status run)
                     +:+ ", can only resume paused or stopped runs"), s)))
  ∧ (str_or goal "" = "" ∨ str_or targetDir "" = "" →
     postRunsRoute resolve existsSync now goal targetDir maxWorkers s
     = (RepliedError 400 "goal and targetDir are required", s))
  ∧ (str_or goal "" ≠ "" → str_or targetDir "" ≠ "" →
     let dir := resolve (str_or targetDir "") in
     if existsSync dir then
       ∃ run s',
         postRunsRoute resolve existsSync now goal targetDir maxWorkers s
         = (RepliedRun 200 run, s')
         ∧ run = Run.set_status planning
                   (createRun now (str_or goal "") dir maxWorkers s).1
         ∧ Run.id run = nanoid (Env.idCount (Store.env s))
         ∧ Run.status run = planning
         ∧ Run.tasks run = []
         ∧ getRun (Run.id run) s' = Some run
         ∧ Store.runAborts s' !! Run.id run = Some false
         ∧ (∀ other, other ≠ Run.id run → getRun other s' = getRun other s)
     else
       postRunsRoute resolve existsSync now goal targetDir maxWorkers s
       = (RepliedError 400 ("Directory does not exist: " +:+ dir), s)).
Proof.
  split; [|split; [|split]].
  - unfold getRun. intros Hnone.
    unfold getRunRoute, actionRoute, getRun, stopRun, stopRun_begin, pauseRun,
      pauseRun_begin, resumeRun, resumeRun_reopen.
    rewrite Hnone. repeat split.
  - unfold getRun. intros run Hrun.
    unfold getRunRoute, actionRoute, getRun, stopRun, stopRun_begin, pauseRun,
      pauseRun_begin, resumeRun, resumeRun_reopen.
    rewrite Hrun. split; [reflexivity|]. split; [reflexivity|]. split.
    + destruct (isActive (Run.status run)); reflexivity.
    + destruct (Run.status run) eqn:Hst; cbn;
        try (rewrite decide_False by (intros [? | ?]; discriminate); reflexivity);
        rewrite decide_True by (auto);
        unfold startRun_begin; cbn; rewrite lookup_insert_eq; cbn;
        rewrite ?decide_True, ?decide_False by (reflexivity || discriminate);
        cbn; rewrite ?Hst; reflexivity.
  - unfold postRunsRoute. intros [-> | Ht]; [reflexivity|].
    rewrite Ht. destruct (str_or goal ""); reflexivity.
  - intros Hg Ht dir. unfold postRunsRoute. subst dir.
    destruct (str_or goal "") as [|c g] eqn:Eg; [contradiction|].
    destruct (str_or targetDir "") as [|d t] eqn:Et; [contradiction|].
    destruct (existsSync (resolve (String d t))); [|reflexivity].
    unfold createRun, startRun_begin. cbn.
    rewrite lookup_insert_eq. cbn.
    unfold startPlanning, getRun. cbn. repeat (rewrite lookup_insert_eq; cbn).
    eexists _, _. split; [reflexivity|]. cbn.
    split; [reflexivity|]. split; [reflexivity|]. split; [reflexivity|].
    split; [reflexivity|].
    unfold getRun; cbn.
    split; [apply lookup_insert_eq|]. split; [apply lookup_insert_eq|].
    intros other Hne. rewrite !lookup_insert_ne by congruence. reflexivity.
Qed.

(** ** Records in the legacy shape *)

Lemma migrateCycles_judgements now cycles acc :
  let r := foldl (migrateCycle now) acc cycles in
  ∃ js,
    r.1.1.2 = acc.1.1.2 ++ js
    ∧ (λ j, (Judgement.assessment j, Judgement.goalComplete j,
             Judgement.timestamp j)) <$> js
      = omap (cycleVerdict now) cycles
    ∧ Judgement.id <$> js = nanoid <$> seq (Env.idCount acc.2) (length js)
    ∧ Forall (λ j, Judgement.taskId j = "" ∧ Judgement.newTaskIds j = []) js
    ∧ Env.idCount r.2 = (Env.idCount acc.2 + length js)%nat
    ∧ Env.bus r.2 = Env.bus acc.2
    ∧ r.1.2 = match acc.1.2 with
              | EmptyString => default "" (head (omap cycleAnalysis cycles))
              | _ => acc.1.2
              end.
Proof.
  revert acc. induction cycles as [|cycle cycles IH]; intros acc; cbn zeta.
  - exists []. cbn. rewrite app_nil_r, Nat.add_0_r.
    repeat split; [constructor|]. destruct (acc.1.2); reflexivity.
  - cbn [foldl].
    destruct (IH (migrateCycle now acc cycle))
      as (js & Hjs & Hv & Hids & Hall & Hc & Hb & Han).
    destruct acc as [[[ts js0] an] e]. cbn [fst snd] in *.
    unfold migrateCycle in *. unfold cycleVerdict at 1. unfold cycleAnalysis at 1.
    cbn [omap list_omap].
    destruct (RawCycle.judgement cycle) as [[|c a]|]; cbn [fst snd freshId] in *.
    + exists js. rewrite Hjs, Hv, Hids, Hc, Hb, Han.
      repeat split; [exact Hall|].
      destruct (RawCycle.plan cycle ≫= RawPlan.analysis) as [[|c' a']|];
        destruct an; reflexivity.
    + eexists (_ :: js). rewrite Hjs, <- app_assoc. cbn [app fmap list_fmap].
      rewrite Hv, Hids, Hc, Hb, Han. cbn [Env.idCount Env.bus length seq].
      split; [reflexivity|]. split; [reflexivity|]. split; [reflexivity|].
      split; [constructor; [split; reflexivity | exact Hall]|].
      split; [lia|]. split; [reflexivity|].
      destruct (RawCycle.plan cycle ≫= RawPlan.analysis) as [[|c' a']|];
        destruct an; reflexivity.
    + exists js. rewrite Hjs, Hv, Hids, Hc, Hb, Han.
      repeat split; [exact Hall|].
      destruct (RawCycle.plan cycle ≫= RawPlan.analysis) as [[|c' a']|];
        destruct an; reflexivity.
Qed.

(** X21.  Records in the legacy shape.  A saved record with [cycles] and
    without [tasks] is always loaded: its tasks are those of the plans of
    its cycles, in order, rolled back; it gets one judgement per cycle that
    has a verdict, in order, with that verdict as assessment, an empty
    [taskId], no new tasks, [goalComplete] the negation of
    [shouldContinue], the cycle's [completedAt] or else the time of
    loading, and the next identifiers of the supply; its analysis is the
    first non-empty analysis of a plan; a missing [workers] array reads as
    empty and [maxWorkers] 0 as 3.  A record in the current shape without
    [workers] is not loaded at all. *)
Theorem legacy_record_is_migrated now raw e cycles :
  RawRun.cycles raw = Some cycles →
  RawRun.tasks raw = None →
  (∃ run e',
     loadRun now raw e = (Some run, e')
     ∧ Run.tasks run
       = rollbackTask <$>
           (cycles ≫= λ cycle, default [] (RawCycle.plan cycle ≫= RawPlan.tasks))
     ∧ (λ j, (Judgement.assessment j, Judgement.goalComplete j,
              Judgement.timestamp j)) <$> Run.judgements run
       = omap (cycleVerdict now) cycles
     ∧ Judgement.id <$> Run.judgements run
       = nanoid <$> seq (Env.idCount e) (length (Run.judgements run))
     ∧ Forall (λ j, Judgement.taskId j = "" ∧ Judgement.newTaskIds j = [])
         (Run.judgements run)
     ∧ Run.analysis run = default "" (head (omap cycleAnalysis cycles))
     ∧ Run.workers run
       = (λ w, failRunning now (ofRawWorker w)) <$> default [] (RawRun.workers raw)
     ∧ Run.maxWorkers run
       = (if decide (RawRun.maxWorkers raw = 0) then 3 else RawRun.maxWorkers raw)
     ∧ Env.idCount e' = (Env.idCount e + length (Run.judgements run))%nat
     ∧ Env.bus e' = Env.bus e)
  ∧ (∀ raw', RawRun.cycles raw' = None → RawRun.workers raw' = None →
       loadRun now raw' e = (None, e)).
Proof.
  intros Hcycles Htasks. split.
  - unfold loadRun. rewrite Hcycles, Htasks.
    pose proof (migrateCycles_tasks now cycles ([], [], "", e)) as Ht.
    destruct (migrateCycles_judgements now cycles ([], [], "", e))
      as (js & Hjs & Hv & Hids & Hall & Hc & Hb & Han).
    destruct (foldl (migrateCycle now) ([], [], "", e) cycles)
      as [[[ts js'] an] e'].
    cbn [fst snd app] in *. subst ts js' an.
    eexists _, e'. split; [reflexivity|]. cbn -[str_or].
    rewrite str_or_Some.
    split; [reflexivity|]. split; [exact Hv|]. split; [exact Hids|].
    split; [exact Hall|]. split; [reflexivity|]. split; [reflexivity|].
    split; [reflexivity|]. split; [exact Hc | exact Hb].
  - intros raw' Hc Hw. unfold loadRun. rewrite Hc, Hw. reflexivity.
Qed.

(** ** The run view *)

Lemma withStatus_groups (tasks : list Task.t) :
  tasks ≡ₚ
    List.filter (λ t, bool_decide (Task.status t ∈ [in_progress])) tasks
    ++ List.filter (λ t, bool_decide (Task.status t ∈ [pending])) tasks
    ++ List.filter (λ t, bool_decide (Task.status t ∈ [completed; failed; cancelled]))
         tasks.
Proof.
  induction tasks as [|t tasks IH]; [reflexivity|].
  cbn [List.filter].
  destruct (Task.status t) eqn:Hst;
    repeat match goal with
    | |- context [bool_decide (?x ∈ ?l)] =>
        first [ rewrite (bool_decide_eq_true_2 (x ∈ l))
                  by (repeat first [ left | right ])
              | rewrite (bool_decide_eq_false_2 (x ∈ l))
                  by (repeat (apply not_elem_of_cons; split; [discriminate|]);
                      apply not_elem_of_nil) ]
    end;
    cbv iota.
  - cbn [app]. rewrite <- Permutation_middle. constructor. exact IH.
  - cbn [app]. constructor. exact IH.
  - rewrite app_assoc, <- Permutation_middle, <- app_assoc. constructor. exact IH.
  - rewrite app_assoc, <- Permutation_middle, <- app_assoc. constructor. exact IH.
  - rewrite app_assoc, <- Permutation_middle, <- app_assoc. constructor. exact IH.
Qed.

Lemma filter_length_mono {A} (f g : A → bool) (l : list A) :
  (∀ x, f x = true → g x = true) →
  (length (List.filter f l) ≤ length (List.filter g l))%nat.
Proof.
  intros H. induction l as [|a l IH]; [reflexivity|]. cbn.
  destruct (f a) eqn:Hf.
  - rewrite (H a Hf). cbn. lia.
  - destruct (g a); cbn; lia.
Qed.

(** X22.  The buttons of the run view agree with the calls behind them,
    but for Stop.  For a run that exists, the Pause button is shown exactly
    when the pause route answers 200, and the Resume button exactly when
    the resume route does.  The stop route answers 200 in every status,
    while the Stop button is hidden for a run that is idle, completed,
    failed or stopped.  The three task groups of the view (running,
    pending, finished) hold every task of the run exactly once, and the
    count of completed tasks in the header is at most the size of the
    finished group. *)
Theorem buttons_agree_with_the_calls now id s run :
  getRun id s = Some run →
  (showsPause run = true ↔ (actionRoute (pauseRun now id) s).1 = Replied 200)
  ∧ (showsResume run = true ↔ (actionRoute (resumeRun now id) s).1 = Replied 200)
  ∧ (actionRoute (stopRun now id) s).1 = Replied 200
  ∧ (showsStop run = false ↔
     Run.status run ∈ [idle; run_completed; run_failed; stopped])
  ∧ Run.tasks run ≡ₚ runningTasks run ++ pendingTasks run ++ finishedTasks run
  ∧ (completedTasks run ≤ length (finishedTasks run))%nat
  ∧ (length (finishedTasks run) ≤ length (Run.tasks run))%nat.
Proof.
  unfold getRun. intros Hrun.
  split; [|split; [|split; [|split; [|split; [|split]]]]].
  - unfold showsPause, actionRoute, pauseRun, pauseRun_begin. rewrite Hrun.
    destruct (Run.status run); cbn; split; (discriminate || reflexivity).
  - unfold showsResume, actionRoute, resumeRun, resumeRun_reopen. rewrite Hrun.
    destruct (Run.status run) eqn:Hst; cbn;
      try (split; (discriminate || reflexivity));
      destruct (startRun_begin _ _); split; reflexivity.
  - unfold actionRoute, stopRun, stopRun_begin. rewrite Hrun. reflexivity.
  - unfold showsStop. rewrite bool_decide_eq_false.
    destruct (Run.status run); split; intros H; try set_solver.
  - apply withStatus_groups.
  - unfold completedTasks, finishedTasks, withStatus.
    apply filter_length_mono. intros t Ht.
    apply bool_decide_eq_true_1, list_elem_of_singleton in Ht.
    apply bool_decide_eq_true_2. rewrite Ht. left.
  - unfold finishedTasks, withStatus.
    rewrite <- (filter_all (λ _, true) (Run.tasks run)) at 2 by reflexivity.
    apply filter_length_mono. reflexivity.
Qed.

(** X23.  The elapsed time shown for a run.  For a duration that is not
    negative, [formatDuration] shows whole seconds below a minute; minutes
    and seconds below an hour, which add up to the whole seconds of the
    duration; and hours and minutes from there on, the seconds left out.
    A negative duration, as a browser clock behind the server's gives for a
    run in progress, is shown as a negative number of seconds.  Once a run
    has a [completedAt] other than 0, the time shown no longer depends on
    the clock. *)
Theorem elapsed_time_is_split_correctly (ms now now' : Z) (run : Run.t) :
  let s := ms / 1000 in
  (s < 60 → formatDuration ms = pretty s +:+ "s")
  ∧ (ms < 0 → s ≤ -1 ∧ formatDuration ms = pretty s +:+ "s")
  ∧ (60 ≤ s < 3600 →
     ∃ m r, formatDuration ms = pretty m +:+ "m " +:+ pretty r +:+ "s"
            ∧ s = 60 * m + r ∧ 0 ≤ r < 60 ∧ 1 ≤ m < 60)
  ∧ (3600 ≤ s →
     ∃ h m, formatDuration ms = pretty h +:+ "h " +:+ pretty m +:+ "m"
            ∧ 1 ≤ h ∧ 0 ≤ m < 60
            ∧ 60 * (60 * h + m) ≤ s < 60 * (60 * h + m) + 60)
  ∧ (∀ c, Run.completedAt run = Some c → c ≠ 0 →
       elapsed now run = formatDuration (c - Run.createdAt run)
       ∧ elapsed now' run = elapsed now run)
  ∧ (Run.completedAt run = None ∨ Run.completedAt run = Some 0 →
     elapsed now run = formatDuration (now - Run.createdAt run)).
Proof.
  intros s. unfold formatDuration. fold s.
  split; [|split; [|split; [|split; [|split]]]].
  - intros H. rewrite decide_True by exact H. reflexivity.
  - intros H. assert (s ≤ -1).
    { pose proof (Z.div_lt_upper_bound ms 1000 0 ltac:(lia) ltac:(lia)).
      unfold s. lia. }
    split; [assumption|]. rewrite decide_True by lia. reflexivity.
  - intros [H1 H2]. rewrite decide_False by lia.
    assert (Hm : 1 ≤ s / 60 < 60).
    { split; [apply Z.div_le_lower_bound; lia | apply Z.div_lt_upper_bound; lia]. }
    rewrite decide_True by lia.
    exists (s / 60), (Z.rem s 60). split; [reflexivity|].
    rewrite Z.rem_mod_nonneg by lia.
    pose proof (Z.div_mod s 60 ltac:(lia)). pose proof (Z.mod_pos_bound s 60 ltac:(lia)).
    lia.
  - intros H. rewrite decide_False by lia.
    assert (Hm : 60 ≤ s / 60) by (apply Z.div_le_lower_bound; lia).
    rewrite decide_False by lia.
    exists (s / 60 / 60), (Z.rem (s / 60) 60). split; [reflexivity|].
    rewrite Z.rem_mod_nonneg by lia.
    pose proof (Z.div_mod s 60 ltac:(lia)). pose proof (Z.mod_pos_bound s 60 ltac:(lia)).
    pose proof (Z.div_mod (s / 60) 60 ltac:(lia)).
    pose proof (Z.mod_pos_bound (s / 60) 60 ltac:(lia)).
    assert (1 ≤ s / 60 / 60) by (apply Z.div_le_lower_bound; lia).
    lia.
  - intros c Hc Hne. unfold elapsed. rewrite Hc.
    destruct c; [contradiction | split; reflexivity | split; reflexivity].
  - unfold elapsed. intros [-> | ->]; reflexivity.
Qed.

(** ** A worker that has settled *)

(** What [settle] writes, field by field. *)
Lemma settle_fields now o t w b :
  let r := settle now o t w b in
  let t' := r.1.1 in
  let w' := r.1.2 in
  Task.status t' = outcomeStatus o
  ∧ Task.completedAt t' = Some now
  ∧ Task.id t' = Task.id t
  ∧ match o with
    | Resolved result =>
        Task.result t' = Some result ∧ Task.error t' = Task.error t
        ∧ Worker.status w' = worker_completed
    | Rejected msg =>
        Task.error t' = Some msg ∧ Task.result t' = Task.result t
        ∧ Worker.status w' = worker_failed
    end
  ∧ Worker.completedAt w' = Some now
  ∧ Worker.id w' = Worker.id w
  ∧ Worker.taskId w' = Worker.taskId w
  ∧ emitted ev_worker_updated r.2 = emitted ev_worker_updated b ++ [DWorker w']
  ∧ emitted ev_task_updated r.2 = emitted ev_task_updated b ++ [DTask t'].
Proof.
  unfold settle, addLog. destruct o as [result | msg]; cbn -[slice_last];
    rewrite !emitted_emit; cbn -[slice_last]; rewrite ?app_nil_r;
    repeat split.
Qed.

(** X24.  A worker that has settled stays registered.  When the agent loop
    of a worker ends, its task becomes [completed] with the result, or
    [failed] with the error message, and the worker [completed] or
    [failed], both with [completedAt = now]; [worker:updated] and
    [task:updated] are emitted once each with these final records; the
    other runs, the run's status and the abort controllers are untouched.
    The table of active workers is untouched too: the settled worker stays
    in it, and with distinct worker identifiers a later [stopRun] on the run
    still leaves it there, since only workers marked [running] are
    killed. *)
Theorem settled_worker_stays_registered now now' o runId ti wi s run t w :
  getRun runId s = Some run →
  Run.tasks run !! ti = Some t →
  Run.workers run !! wi = Some w →
  let s' := workerSettles now o runId ti wi s in
  ∃ t' w',
    getRun runId s'
    = Some (Run.set_workers (<[wi := w']> (Run.workers run))
              (Run.set_tasks (<[ti := t']> (Run.tasks run)) run))
    ∧ Task.status t' = outcomeStatus o
    ∧ Task.completedAt t' = Some now
    ∧ match o with
      | Resolved result =>
          Task.result t' = Some result ∧ Worker.status w' = worker_completed
      | Rejected msg =>
          Task.error t' = Some msg ∧ Worker.status w' = worker_failed
      end
    ∧ Worker.completedAt w' = Some now
    ∧ Worker.id w' = Worker.id w
    ∧ emitted ev_worker_updated (Env.bus (Store.env s'))
      = emitted ev_worker_updated (Env.bus (Store.env s)) ++ [DWorker w']
    ∧ emitted ev_task_updated (Env.bus (Store.env s'))
      = emitted ev_task_updated (Env.bus (Store.env s)) ++ [DTask t']
    ∧ (∀ other, other ≠ runId → getRun other s' = getRun other s)
    ∧ Store.runAborts s' = Store.runAborts s
    ∧ Env.activeWorkers (Store.env s') = Env.activeWorkers (Store.env s)
    ∧ (NoDup (Worker.id <$> Run.workers run) →
       Worker.id w ∈ Env.activeWorkers (Store.env s) →
       ∃ s'', stopRun now' runId s' = Ok s''
              ∧ Worker.id w ∈ Env.activeWorkers (Store.env s'')).
Proof.
  intros Hrun Ht Hw s'. unfold getRun in Hrun.
  pose proof (settle_fields now o t w (Env.bus (Store.env s))) as Hf.
  unfold s', workerSettles, settleIn. rewrite Hrun, Ht, Hw.
  destruct (settle now o t w (Env.bus (Store.env s))) as [[t' w'] b'].
  cbn zeta in Hf. cbn [fst snd] in Hf.
  destruct Hf as (Hst & Hc & Hid & Ho & Hwc & Hwid & Hwt & Hew & Het).
  exists t', w'. unfold getRun. cbn.
  split; [apply lookup_insert_eq|]. split; [exact Hst|]. split; [exact Hc|].
  split; [destruct o; tauto|]. split; [exact Hwc|]. split; [exact Hwid|].
  split; [exact Hew|]. split; [exact Het|].
  split; [intros other Hne; apply lookup_insert_ne; congruence|].
  split; [reflexivity|]. split; [reflexivity|].
  intros Hnd Hin. unfold stopRun, stopRun_begin. cbn.
  rewrite lookup_insert_eq. eexists. split; [reflexivity|].
  unfold stopRun_finish. cbn. rewrite lookup_insert_eq. cbn.
  match goal with |- context [foldl _ ?e ?ids] =>
    change (foldl (λ acc i, killWorker i acc) e ids) with (killWorkers ids e);
    destruct (killWorkers_effect ids e) as (Ha & _) end.
  rewrite Ha. cbn. apply elem_of_difference. split; [exact Hin|].
  rewrite elem_of_list_to_set.
  intros Hk. apply list_elem_of_fmap in Hk as (x & Hx & Hk).
  apply elem_of_List_filter in Hk as [Hk Hrunning].
  apply bool_decide_eq_true_1 in Hrunning.
  apply list_elem_of_lookup in Hk as [i Hi].
  destruct (decide (i = wi)) as [-> | Hne].
  - rewrite list_lookup_insert_eq in Hi by (eapply lookup_lt_Some, Hw).
    injection Hi as <-. destruct o; destruct Ho as (_ & _ & Ho); congruence.
  - rewrite list_lookup_insert_ne in Hi by congruence.
    apply Hne. eapply NoDup_lookup; [exact Hnd | |].
    + rewrite list_lookup_fmap, Hi. cbn. rewrite <- Hx. reflexivity.
    + rewrite list_lookup_fmap, Hw. reflexivity.
Qed.

End Engine.

(** * The properties on the sample data *)

(** C1, as stated, fails.  Tasks [a] (priority 5) and [b] (priority 1) are
    both ready and there is one free slot; the pass starts [a], the first of
    the array, and leaves [b], the one with the smaller priority value,
    [pending]. *)
Lemma first_in_array_beats_priority :
  getReadyTasks contendedRun = [TaskRef.mk 0 "a" "A"; TaskRef.mk 1 "b" "B"]
  ∧ Task.priority <$> Run.tasks contendedRun = [5; 1]
  ∧ Run.maxWorkers contendedRun = 1
  ∧ started sampleId "model" 7 (getReadyTasks contendedRun) contended
    = [TaskRef.mk 0 "a" "A"]
  ∧ Task.status <$>
      Run.tasks (Pipeline.run (spawnReady sampleId "model" 7 contended))
    = [in_progress; pending].
Proof. repeat split; vm_compute; reflexivity. Qed.

(** A task whose dependency is still pending is not started with it; once
    the dependency is completed it is. *)
Example dependent_task_waits :
  started sampleId "model" 7 (getReadyTasks (Pipeline.run chainWaiting))
    chainWaiting = [TaskRef.mk 0 "t1" "T1"]
  ∧ Task.status <$>
      Run.tasks (Pipeline.run (spawnReady sampleId "model" 7 chainWaiting))
    = [in_progress; pending]
  ∧ started sampleId "model" 7 (getReadyTasks (Pipeline.run chainReleased))
      chainReleased = [TaskRef.mk 1 "t2" "T2"]
  ∧ Task.status <$>
      Run.tasks (Pipeline.run (spawnReady sampleId "model" 7 chainReleased))
    = [completed; in_progress].
Proof. repeat split; vm_compute; reflexivity. Qed.

(** The bounds of C9 are reached: 600 log lines leave 500 in memory, of
    which [saveRun] writes 100. *)
Example logs_fill_up :
  length (Worker.logs
            (runOps (replicate 600 (OpLog 1 info "line"))
               (sampleWorker "w1" "t1" running, EventBus.empty)).1) = 500%nat
  ∧ length (Worker.activity
              (runOps (replicate 300 (OpActivity 1 bash "ls"))
                 (sampleWorker "w1" "t1" running, EventBus.empty)).1) = 200%nat
  ∧ (length ∘ Worker.logs) <$>
      Run.workers
        (saveRun
           (sampleRun "r" executing []
              [(runOps (replicate 600 (OpLog 1 info "line"))
                  (sampleWorker "w1" "t1" running, EventBus.empty)).1] 3 None))
    = [100%nat].
Proof. repeat split; vm_compute; reflexivity. Qed.

(** C2 on [judgedRun]: the judge declares the goal complete after [t1];
    [t2], still pending, is cancelled and the run completes at once. *)
Lemma goal_complete_cancels_pending_witness :
  Pipeline.aborted judgedPipeline = false
  ∧ Task.status <$>
      Run.tasks (Pipeline.run
                   (drain sampleId asciiLower 7 judgeDone [t1Ref] judgedPipeline))
    = [completed; cancelled]
  ∧ Run.status (Pipeline.run
                  (drain sampleId asciiLower 7 judgeDone [t1Ref] judgedPipeline))
    = run_completed
  ∧ Run.completedAt
      (Pipeline.run
         (drain sampleId asciiLower 7 judgeDone [t1Ref] judgedPipeline))
    = Some 7
  ∧ length (emitted ev_run_completed
              (Env.bus (Pipeline.env
                 (drain sampleId asciiLower 7 judgeDone [t1Ref] judgedPipeline))))
    = 1%nat.
Proof.
  pose proof (goal_complete_cancels_pending sampleId asciiLower 7 judgeDone
                t1Ref [] judgedPipeline (JudgeResult.mk "all done" true [])
                eq_refl eq_refl eq_refl) as (_ & Ht & _ & _ & H).
  destruct H as (Hs & Hc & He & Hd & _).
  { rewrite Ht. vm_compute. repeat constructor; discriminate. }
  split; [reflexivity|]. rewrite Hd.
  split; [rewrite Ht; reflexivity|].
  split; [exact Hs|]. split; [exact Hc | rewrite He; reflexivity].
Defined.

(** C3 on [savedFiles]: the run stored as [executing] comes back [paused],
    its running worker failed, its task in progress pending again. *)
Lemma loadState_reconciles_witness :
  ∃ run, Store.runs (loadState sampleId 50 savedFiles Store.empty) !! "r3"
         = Some run
         ∧ reconciled run
         ∧ Run.status run = paused
         ∧ Worker.status <$> Run.workers run = [worker_failed]
         ∧ Worker.completedAt <$> Run.workers run = [Some 50]
         ∧ Task.status <$> Run.tasks run = [pending; pending]
         ∧ Task.startedAt <$> Run.tasks run = [None; None].
Proof.
  eexists. split; [vm_compute; reflexivity|].
  split; [|repeat split; reflexivity].
  eapply (loadState_reconciles sampleId 50 savedFiles "r3").
  vm_compute; reflexivity.
Defined.



(** C6 on [busyStore]: [t1] is rolled back by [pauseRun] at time 10 and
    marked [failed] when its aborted worker settles at time 11; and it is
    [failed] as well when the worker settles while [pauseRun] is awaiting. *)
Lemma interrupted_task_is_overwritten_witness :
  getRun "r3" busyStore = Some busyRun
  ∧ taskStatusAt "r3" 0 busyStore = Some in_progress
  ∧ (∃ s1, pauseRun 10 "r3" busyStore = Ok s1
           ∧ taskStatusAt "r3" 0 s1 = Some pending
           ∧ taskStatusAt "r3" 0
               (workerSettles 11 (Rejected "Aborted") "r3" 0 0 s1)
             = Some failed)
  ∧ (∃ s0, pauseRun_begin "r3" busyStore = Ok s0
           ∧ taskStatusAt "r3" 0
               (pauseRun_finish 10 "r3"
                  (workerSettles 11 (Rejected "Aborted") "r3" 0 0 s0))
             = Some failed).
Proof.
  split; [reflexivity|]. split; [reflexivity|].
  pose proof (interrupted_task_is_overwritten 10 11 (Rejected "Aborted") "r3"
                busyStore busyRun 0 0 _ _
                eq_refl eq_refl eq_refl eq_refl eq_refl)
    as (H1 & H2 & _).
  split; [exact H1 | exact H2].
Defined.


(** C10 on [followUps]: "Test" names "BUILD" and "Deploy"; it gets the id of
    "Build", created just before it by the same judgement, and nothing for
    "Deploy". *)
Lemma follow_up_dependencies_witness :
  followUps !! 1%nat
  = Some (NewTask.mk "Test" "run the tests" None (Some ["BUILD"; "Deploy"]))
  ∧ Task.title <$>
      Run.tasks (Pipeline.run
                   (foldl (spawnFollowUp sampleId asciiLower 7 "j1")
                      (judgedPipeline, []) followUps).1)
    = ["T1"; "T2"; "Build"; "Test"]
  ∧ ∃ task,
      Run.tasks (Pipeline.run
                   (foldl (spawnFollowUp sampleId asciiLower 7 "j1")
                      (judgedPipeline, []) followUps).1) !! 3%nat = Some task
      ∧ Task.id task = "id101"
      ∧ Task.dependencies task = ["id100"].
Proof.
  destruct (follow_up_dependencies sampleId asciiLower 7 "j1" followUps
              judgedPipeline [] 1%nat _ eq_refl)
    as (task & Hl & _ & Hid & _ & Hd & _).
  split; [reflexivity|]. split; [reflexivity|].
  exists task. split; [exact Hl|]. split; [exact Hid|].
  rewrite Hd. reflexivity.
Defined.

(** C5 at [maxWorkers = -5]: the run is created with a cap of -5. *)
Lemma createRun_keeps_negative_maxWorkers_witness :
  -5 < 0
  ∧ Run.maxWorkers
      (createRun sampleId 7 "goal" "/tmp/target" (Some (-5)) Store.empty).1
    = -5.
Proof.
  split; [lia|].
  apply (createRun_keeps_negative_maxWorkers sampleId "model" 7 "goal"
           "/tmp/target" Store.empty (-5)).
  lia.
Defined.




(** X7 on [deadEnd]: [t2] waits for the failed [t1] and is cancelled; [t3]
    waits for [t2], which was still pending when the pass began, and is left
    pending, so the loop goes on; the next pass cancels [t3] and leaves the
    loop. *)
Lemma blocked_tasks_are_cancelled_witness :
  Task.status <$> Run.tasks (Pipeline.run (handleBlocked 7 deadEnd).1)
  = [failed; cancelled; pending]
  ∧ (handleBlocked 7 deadEnd).2 = false
  ∧ Task.status <$>
      Run.tasks (Pipeline.run (handleBlocked 8 (handleBlocked 7 deadEnd).1).1)
    = [failed; cancelled; cancelled]
  ∧ (handleBlocked 8 (handleBlocked 7 deadEnd).1).2 = true.
Proof.
  destruct (blocked_tasks_are_cancelled 7 deadEnd) as [_ H].
  destruct H as (_ & Hl & _); [reflexivity | reflexivity |].
  split.
  { apply list_eq. intros [|[|[|i]]]; rewrite list_lookup_fmap;
      [rewrite (Hl 0%nat _ eq_refl) | rewrite (Hl 1%nat _ eq_refl)
       | rewrite (Hl 2%nat _ eq_refl) | ]; reflexivity. }
  repeat split; reflexivity.
Defined.

(** X8 on [stalled]: the two tasks of [cyclicPlan], as the planner builds
    them, wait for each other; a turn of the loop changes nothing. *)
Lemma unmet_dependencies_stall_the_loop_witness :
  Pipeline.aborted stalled = false
  ∧ Run.tasks cyclicRun = planTasks sampleId asciiLower 0 0 cyclicPlan
  ∧ Task.dependencies <$> Run.tasks cyclicRun = [["id1"]; ["id0"]]
  ∧ spawnReady sampleId "model" 7 stalled = stalled
  ∧ handleBlocked 7 stalled = (stalled, false)
  ∧ loopIteration sampleId "model" 7 stalled = (stalled, false).
Proof.
  split; [reflexivity|]. split; [reflexivity|]. split; [reflexivity|].
  apply (unmet_dependencies_stall_the_loop sampleId "model" 7 stalled).
  - reflexivity.
  - discriminate.
  - reflexivity.
  - apply Exists_cons_hd. reflexivity.
  - repeat constructor; intros _; split; reflexivity.
Defined.


(** X9 on [chainWaiting]: [t2] depends on [t1]; after the judge has added
    the two follow-ups, the second of which names the first, every
    dependency is still a task of the run. *)
Lemma dependencies_stay_within_the_run_witness :
  depsClosed (Run.tasks (Pipeline.run chainWaiting))
  ∧ depsClosed
      (Run.tasks
         (Pipeline.run
            (judged sampleId asciiLower 7 t1Ref
               (Judged (JudgeResult.mk "more to do" false followUps))
               chainWaiting).1))
  ∧ Task.dependencies <$>
      Run.tasks
        (Pipeline.run
           (judged sampleId asciiLower 7 t1Ref
              (Judged (JudgeResult.mk "more to do" false followUps))
              chainWaiting).1)
    = [[]; ["t1"]; []; ["id101"]].
Proof.
  assert (H : depsClosed (Run.tasks (Pipeline.run chainWaiting))).
  { intros t Ht d Hd. cbn in Ht.
    repeat (apply elem_of_cons in Ht as [-> | Ht]); cbn in Hd.
    - apply elem_of_nil in Hd as [].
    - apply list_elem_of_singleton in Hd as ->. left.
    - apply elem_of_nil in Ht as []. }
  split; [exact H|]. split; [|reflexivity].
  apply (dependencies_stay_within_the_run sampleId "model" asciiLower 7
           chainWaiting H).
Defined.

(** X11 on [busyPipeline]: the worker of [t1] resolves at time 9; the
    clean-up takes [t1] out of the map. *)
Lemma settled_task_leaves_the_map_witness :
  NoDup (Task.id <$> Run.tasks (Pipeline.run busyPipeline))
  ∧ Pipeline.runningTasks busyPipeline = {["t1"]}
  ∧ "t1" ∉ Pipeline.runningTasks
             (cleanupRunning
                (Pipeline.set_run
                   (settleIn 9 (Resolved "done") 0 0 (Pipeline.run busyPipeline)
                      (Env.bus (Pipeline.env busyPipeline))).1
                   busyPipeline)).
Proof.
  assert (H : NoDup (Task.id <$> Run.tasks (Pipeline.run busyPipeline))).
  { cbn. repeat (apply NoDup_cons; split;
                 [repeat (apply not_elem_of_cons; split; [discriminate|]);
                  apply not_elem_of_nil|]).
    apply NoDup_nil_2. }
  split; [exact H|]. split; [reflexivity|].
  apply (settled_task_leaves_the_map 9 (Resolved "done") 0 0 busyPipeline
           (sampleTask "t1" "T1" in_progress 1 [])
           (sampleWorker "w1" "t1" running) H eq_refl eq_refl).
Defined.

